(** * memory-match-mobile backend: credential service and statistics

    A shallow embedding of [backend/auth.py], [backend/models.py] and
    [backend/app.py], with the properties of the credential service
    (password hashing, token issuance and verification), of the statistics
    aggregation and of the two user-creation endpoints.

    Python integers are [Z]; Python floats are IEEE binary64 values, kept as
    a mantissa and a binary exponent and computed with exact integer
    arithmetic; a Python [str] is the [string] of its UTF-8 bytes, what
    [s.encode()] gives; JSON objects are [gmap string _]; the tables of the
    database are lists of rows in insertion order; the clock and the random
    source are explicit inputs. *)

From Stdlib Require Import ZArith Lia List Ascii String DecimalString.
From stdpp Require Import base tactics option list strings gmap sorting.

Local Open Scope Z_scope.

(** ** Python exceptions *)

(** The exceptions of PyJWT that derive from [InvalidTokenError]. *)
Inductive jwt_error :=
| DecodeError
| InvalidAlgorithmError
| InvalidSignatureError
| ExpiredSignatureError
| ImmatureSignatureError
| InvalidIssuedAtError
| InvalidAudienceError.

Inductive exn :=
| ZeroDivisionError
| OverflowError
| RecursionError
| ValueError (msg : string)
| TypeError (msg : string)
| KeyError (key : string)
| IntegrityError (msg : string)
| InvalidTokenError (kind : jwt_error)
| Exception (msg : string).

(** A computation that returns or raises. *)
Inductive result (A : Type) :=
| Ok (a : A)
| Raise (e : exn).
Arguments Ok {A} a.
Arguments Raise {A} e.

#[global] Instance result_ret : MRet result := fun A a => Ok a.
#[global] Instance result_bind : MBind result := fun A B k r =>
  match r with
  | Ok a => k a
  | Raise e => Raise e
  end.

(** ** Python floats *)

Module PyFloat.

(** A finite binary64 value [mant * 2 ^ expo].  Normal numbers have
    [2^52 <= |mant| < 2^53]; subnormal ones have [expo = -1074]; zero is
    [B64 0 0] (the sign of a zero is not kept). *)
Record binary64 := B64 { mant : Z; expo : Z }.

Definition emin : Z := -1074.
Definition emax : Z := 971.

(** The integer nearest to [n / d] for [0 < d], ties to the even one. *)
Definition rne_div (n d : Z) : Z :=
  let q := n / d in
  match 2 * (n mod d) ?= d with
  | Lt => q
  | Gt => q + 1
  | Eq => if Z.even q then q else q + 1
  end.

(** [n / (d * 2^e)] as a quotient of two integers,
    [scaled_num n e / scaled_den d e]. *)
Definition scaled_num (n e : Z) : Z := n * 2 ^ Z.max 0 (- e).
Definition scaled_den (d e : Z) : Z := d * 2 ^ Z.max 0 e.

(** [floor (log2 (n / d))] for [0 < n] and [0 < d]. *)
Definition ilog2_ratio (n d : Z) : Z :=
  let l := Z.log2 n - Z.log2 d in
  if scaled_num n l <? scaled_den d l then l - 1 else l.

(** The binary64 value nearest to [n / d] for [0 <= n] and [0 < d], ties to
    the even mantissa; [None] when it is beyond the largest finite value. *)
Definition round_nearest (n d : Z) : option binary64 :=
  if n =? 0 then Some (B64 0 0)
  else
    let e := Z.max (ilog2_ratio n d - 52) emin in
    let m := rne_div (scaled_num n e) (scaled_den d e) in
    let e' := if m =? 2 ^ 53 then e + 1 else e in
    let m' := if m =? 2 ^ 53 then 2 ^ 52 else m in
    if m' =? 0 then Some (B64 0 0)
    else if emax <? e' then None
    else Some (B64 m' e').

(** The same for a quotient of any sign. *)
Definition nearest (n d : Z) : option binary64 :=
  match round_nearest (Z.abs n) (Z.abs d) with
  | Some x => Some (B64 (Z.sgn n * Z.sgn d * mant x) (expo x))
  | None => None
  end.

(** [a / b] on two ints.  CPython rounds the exact quotient once, to the
    nearest float, and raises [OverflowError] when that is too large. *)
Definition truediv (a b : Z) : result binary64 :=
  if b =? 0 then Raise ZeroDivisionError
  else match nearest a b with
       | Some x => Ok x
       | None => Raise OverflowError
       end.

(** [x] in hundredths, rounded to an integer on the exact value of [x],
    ties to even: the digits that [round(x, 2)] keeps. *)
Definition hundredths (x : binary64) : Z :=
  if 0 <=? expo x then 100 * mant x * 2 ^ expo x
  else rne_div (100 * mant x) (2 ^ (- expo x)).

(** [round(x, 2)].  CPython writes [x] with two decimals, correctly rounded
    on its exact binary value, and reads the digits back as a float. *)
Definition round2 (x : binary64) : result binary64 :=
  match nearest (hundredths x) 100 with
  | Some y => Ok y
  | None => Raise OverflowError
  end.

(** [float(n)] for an int [n]. *)
Definition of_int (n : Z) : option binary64 := nearest n 1.

(** A float as JSON can hold it: finite, infinite ([1e999], [Infinity]) or
    not a number ([NaN]). *)
Inductive float :=
| Finite (x : binary64)
| Infinite (negative : bool)
| NaN.

(** [int(x)] for a finite float: the integer part, toward zero. *)
Definition trunc (x : binary64) : Z :=
  if 0 <=? expo x then mant x * 2 ^ expo x
  else Z.quot (mant x) (2 ^ (- expo x)).

End PyFloat.

(** ** models.py *)

(** Points in time ([datetime] values) are microseconds since the epoch. *)
Definition datetime := Z.

(** A row of the [users] table. *)
Module User.
Record t := mk {
  id : Z;
  username : string;
  email : string;
  password_hash : string;
  created_at : datetime;
  last_login : option datetime
}.
End User.

(** A row of the [game_results] table. *)
Module GameResult.
Record t := mk {
  id : Z;
  user_id : Z;
  score : Z;
  moves : Z;
  time_taken : Z;
  difficulty : option string;
  grid_size : option string;
  completed : bool;
  played_at : datetime
}.
End GameResult.

(** ** The statistics of [get_user_stats] *)

Module Stats.
Import PyFloat.

(** A JSON number as Python holds it: an int or a float. *)
Inductive number :=
| PyInt (n : Z)
| PyFloat (x : binary64).

Record t := mk {
  total_games : number;
  average_score : number;
  average_moves : number;
  average_time : number;
  best_score : number;
  total_time_played : number
}.

Definition py_len {A} (l : list A) : Z := Z.of_nat (length l).

(** [sum(...)]: left to right, from 0. *)
Definition py_sum (l : list Z) : Z := fold_left Z.add l 0.

(** [max(...)]: raises on an empty sequence. *)
Definition py_max (l : list Z) : result Z :=
  match l with
  | [] => Raise (ValueError "max() arg is an empty sequence")
  | x :: l' => Ok (fold_left Z.max l' x)
  end.

(** [round(total / count, 2)] *)
Definition average (total count : Z) : result number :=
  q ← truediv total count;
  r ← round2 q;
  mret (PyFloat r).

(** The body of [get_user_stats] once the rows are fetched: the ['stats']
    entry of the response. *)
Definition compute_stats (results : list GameResult.t) : result t :=
  match results with
  | [] =>
      Ok {| total_games := PyInt 0;
            average_score := PyInt 0;
            average_moves := PyInt 0;
            average_time := PyInt 0;
            best_score := PyInt 0;
            total_time_played := PyInt 0 |}
  | _ :: _ =>
      let total_games := py_len results in
      let total_score := py_sum (map GameResult.score results) in
      let total_moves := py_sum (map GameResult.moves results) in
      let total_time := py_sum (map GameResult.time_taken results) in
      best_score ← py_max (map GameResult.score results);
      avg_score ← average total_score total_games;
      avg_moves ← average total_moves total_games;
      avg_time ← average total_time total_games;
      mret {| total_games := PyInt total_games;
              average_score := avg_score;
              average_moves := avg_moves;
              average_time := avg_time;
              best_score := PyInt best_score;
              total_time_played := PyInt total_time |}
  end.

(** *** What the specification asks of the statistics *)

(** The sum of a list, right to left. *)
Definition sum_of (l : list Z) : Z := foldr Z.add 0 l.

(** [b] is the greatest element of [l]. *)
Definition is_max (b : Z) (l : list Z) : Prop :=
  b ∈ l /\ forall y, y ∈ l -> y <= b.

(** [x] is [total / count] rounded to two decimal places: the float nearest
    to [k / 100], for an integer [k] nearest to [100 * total / count] (a tie
    may go either way). *)
Definition rounded2 (x : number) (total count : Z) : Prop :=
  exists k y,
    2 * Z.abs (k * count - 100 * total) <= count
    /\ nearest k 100 = Some y
    /\ x = PyFloat y.

Definition scores (rs : list GameResult.t) : list Z := map GameResult.score rs.
Definition move_counts (rs : list GameResult.t) : list Z := map GameResult.moves rs.
Definition times (rs : list GameResult.t) : list Z := map GameResult.time_taken rs.

(** [compute_stats] on a non-empty list, over the three columns. *)
Definition stats_body (rs : list GameResult.t) : result t :=
  best ← py_max (scores rs);
  avg_score ← average (py_sum (scores rs)) (py_len rs);
  avg_moves ← average (py_sum (move_counts rs)) (py_len rs);
  avg_time ← average (py_sum (times rs)) (py_len rs);
  mret {| total_games := PyInt (py_len rs);
          average_score := avg_score;
          average_moves := avg_moves;
          average_time := avg_time;
          best_score := PyInt best;
          total_time_played := PyInt (py_sum (times rs)) |}.

Definition stats_as_specified (rs : list GameResult.t) (st : t) : Prop :=
  total_games st = PyInt (Z.of_nat (length rs))
  /\ rounded2 (average_score st) (sum_of (scores rs)) (Z.of_nat (length rs))
  /\ rounded2 (average_moves st) (sum_of (move_counts rs)) (Z.of_nat (length rs))
  /\ rounded2 (average_time st) (sum_of (times rs)) (Z.of_nat (length rs))
  /\ (exists b, best_score st = PyInt b /\ is_max b (scores rs))
  /\ total_time_played st = PyInt (sum_of (times rs)).

(** The counters of a stored game are non-negative. *)
Definition nonneg_result (r : GameResult.t) : Prop :=
  0 <= GameResult.score r /\ 0 <= GameResult.moves r
  /\ 0 <= GameResult.time_taken r.

(** A row as the table holds it: non-negative counters that fit the 64-bit
    integers of the database. *)
Definition stored_result (r : GameResult.t) : Prop :=
  0 <= GameResult.score r < 2 ^ 63 /\ 0 <= GameResult.moves r < 2 ^ 63
  /\ 0 <= GameResult.time_taken r < 2 ^ 63.

(** A game result with the given counters. *)
Definition played (score moves time_taken : Z) : GameResult.t :=
  GameResult.mk 0 0 score moves time_taken (Some "medium") (Some "4x4") true 0.

Definition example_results : list GameResult.t :=
  [played 100 20 60; played 200 10 40].

(** Three games whose scores are near [2^45]. *)
Definition large_results : list GameResult.t :=
  [played 35184372088832 1 1; played 35184372088832 1 1;
   played 35184372088833 1 1].

End Stats.

(** ** Python strings *)

(** A [str] is kept as the bytes of its UTF-8 encoding.  Splitting at an
    ASCII separator and comparing are the same on the bytes as on the
    characters; counting characters and reading a number are not, and go
    through the code points. *)
Module PyStr.

(** [s.partition(sep)] for a one-character separator: the text before the
    first [sep] and the text after it, or [None] when [sep] does not occur. *)
Fixpoint partition (sep : ascii) (s : string) : option (string * string) :=
  match s with
  | EmptyString => None
  | String c s' =>
      if Ascii.eqb c sep then Some (EmptyString, s')
      else match partition sep s' with
           | Some (before, rest) => Some (String c before, rest)
           | None => None
           end
  end.

(** [s.split(sep, 2)] when it gives three fields: the text before the first
    [sep], the text between the first two, and the rest. *)
Definition split2 (sep : ascii) (s : string)
  : option (string * string * string) :=
  match partition sep s with
  | None => None
  | Some (first, rest) =>
      match partition sep rest with
      | None => None
      | Some (second, third) => Some (first, second, third)
      end
  end.

(** [c in s] *)
Fixpoint contains (c : ascii) (s : string) : bool :=
  match s with
  | EmptyString => false
  | String c' s' => Ascii.eqb c' c || contains c s'
  end.

(** [s.split(sep)]: all the fields between separators, at least one. *)
Fixpoint split (sep : ascii) (s : string) : list string :=
  match s with
  | EmptyString => [EmptyString]
  | String c s' =>
      if Ascii.eqb c sep then EmptyString :: split sep s'
      else match split sep s' with
           | field :: fields => String c field :: fields
           | [] => [String c EmptyString]
           end
  end.

Definition is_digit (c : ascii) : bool :=
  (48 <=? nat_of_ascii c)%nat && (nat_of_ascii c <=? 57)%nat.
Definition is_lower (c : ascii) : bool :=
  (97 <=? nat_of_ascii c)%nat && (nat_of_ascii c <=? 122)%nat.
Definition is_upper (c : ascii) : bool :=
  (65 <=? nat_of_ascii c)%nat && (nat_of_ascii c <=? 90)%nat.
Definition is_alpha (c : ascii) : bool := is_lower c || is_upper c.
Definition is_alnum (c : ascii) : bool := is_alpha c || is_digit c.

(** The value of a byte. *)
Definition byte (c : ascii) : Z := Z.of_nat (nat_of_ascii c).

(** The bytes [10xxxxxx], which continue a character of UTF-8. *)
Definition continuation (c : ascii) : bool :=
  (128 <=? byte c) && (byte c <? 192).

(** [len(s)]: the number of characters, one for each byte that does not
    continue a character. *)
Fixpoint len (s : string) : nat :=
  match s with
  | EmptyString => 0%nat
  | String c s' => if continuation c then len s' else S (len s')
  end.

(** The code point that a lead byte and its continuation bytes encode, when
    it is in [lo, hi) and not a surrogate: the shortest encoding only. *)
Definition scalar (lo hi cp : Z) : option Z :=
  if (lo <=? cp) && (cp <? hi) && negb ((55296 <=? cp) && (cp <? 57344))
  then Some cp else None.

(** The characters of a string, as code points; [None] for bytes that are
    the UTF-8 encoding of no [str]. *)
Fixpoint code_points (s : string) : option (list Z) :=
  match s with
  | EmptyString => Some []
  | String c0 s1 =>
      let b0 := byte c0 in
      if b0 <? 128 then cps ← code_points s1; Some (b0 :: cps)
      else if b0 <? 192 then None
      else
        match s1 with
        | EmptyString => None
        | String c1 s2 =>
            if negb (continuation c1) then None
            else
              let b1 := byte c1 - 128 in
              if b0 <? 224 then
                cp ← scalar 128 2048 ((b0 - 192) * 64 + b1);
                cps ← code_points s2; Some (cp :: cps)
              else
                match s2 with
                | EmptyString => None
                | String c2 s3 =>
                    if negb (continuation c2) then None
                    else
                      let b2 := byte c2 - 128 in
                      if b0 <? 240 then
                        cp ← scalar 2048 65536
                               (((b0 - 224) * 64 + b1) * 64 + b2);
                        cps ← code_points s3; Some (cp :: cps)
                      else
                        match s3 with
                        | EmptyString => None
                        | String c3 s4 =>
                            if negb (continuation c3) then None
                            else if 248 <=? b0 then None
                            else
                              let b3 := byte c3 - 128 in
                              cp ← scalar 65536 1114112
                                     ((((b0 - 240) * 64 + b1) * 64 + b2) * 64
                                      + b3);
                              cps ← code_points s4; Some (cp :: cps)
                        end
                end
        end
  end.

(** The characters beyond ASCII that [str.isspace] accepts. *)
Definition unicode_spaces : list Z :=
  [133; 160; 5760; 8192; 8193; 8194; 8195; 8196; 8197; 8198; 8199; 8200;
   8201; 8202; 8232; 8233; 8239; 8287; 12288].

(** The digit zero of each run of ten decimal digits beyond ASCII (Unicode
    14.0, the database of CPython 3.11). *)
Definition decimal_zeros : list Z :=
  [1632; 1776; 1984; 2406; 2534; 2662; 2790; 2918; 3046; 3174; 3302; 3430;
   3558; 3664; 3792; 3872; 4160; 4240; 6112; 6160; 6470; 6608; 6784; 6800;
   6992; 7088; 7232; 7248; 42528; 43216; 43264; 43472; 43504; 43600; 44016;
   65296; 66720; 68912; 69734; 69872; 69942; 70096; 70384; 70736; 70864;
   71248; 71360; 71472; 71904; 72016; 72784; 73040; 73120; 92768; 92864;
   93008; 120782; 120792; 120802; 120812; 120822; 123200; 123632; 125264;
   130032].

(** [unicodedata.decimal(c)] beyond ASCII. *)
Definition to_decimal (cp : Z) : option Z :=
  zero ← find (fun zero => (zero <=? cp) && (cp <? zero + 10)) decimal_zeros;
  Some (cp - zero).

(** What [int()] turns a character into before it reads the number: an
    ASCII character stays, a blank beyond ASCII becomes a space and a
    decimal digit beyond ASCII the ASCII digit; any other character is
    refused. *)
Definition to_ascii (cp : Z) : option Z :=
  if cp <? 128 then Some cp
  else if bool_decide (cp ∈ unicode_spaces) then Some 32
  else d ← to_decimal cp; Some (48 + d).

(** The blanks that [int()] skips at both ends of the ASCII text: space,
    tab, line feed, vertical tab, form feed and carriage return. *)
Definition is_space (c : Z) : bool :=
  (c =? 32) || ((9 <=? c) && (c <=? 13)).

Fixpoint lstrip (s : list Z) : list Z :=
  match s with
  | c :: s' => if is_space c then lstrip s' else s
  | [] => []
  end.

Definition rstrip (s : list Z) : list Z := rev (lstrip (rev s)).

(** [sys.get_int_max_str_digits()] *)
Definition int_max_str_digits : nat := 4300.

(** Decimal digits with single underscores between them, most significant
    first; [acc] is the value read so far, [count] the number of digits
    read and [after_digit] tells whether an underscore may come next. *)
Fixpoint digits (s : list Z) (acc : Z) (count : nat) (after_digit : bool)
  : option Z :=
  match s with
  | [] =>
      if after_digit && (count <=? int_max_str_digits)%nat then Some acc
      else None
  | c :: s' =>
      if (48 <=? c) && (c <=? 57) then
        digits s' (10 * acc + (c - 48)) (S count) true
      else if c =? 95 then
        if after_digit then digits s' acc count false else None
      else None
  end.

(** [int(s)] for a string: blanks at both ends, an optional sign, decimal
    digits of any script with single underscores between them, no more
    than [int_max_str_digits] of them; [None] is a [ValueError]. *)
Definition int (s : string) : option Z :=
  cps ← code_points s;
  text ← mapM to_ascii cps;
  match rstrip (lstrip text) with
  | 45 :: s' => z ← digits s' 0 0 false; Some (- z)
  | 43 :: s' => digits s' 0 0 false
  | s' => digits s' 0 0 false
  end.

(** [str(n)] for an int. *)
Definition of_int (n : Z) : string :=
  DecimalString.NilZero.string_of_int (Z.to_int n).

End PyStr.

(** ** The key derivation functions of [hashlib] *)

(** [hashlib.scrypt] and [hashlib.pbkdf2_hmac], each returning the digest in
    hexadecimal; [None] is the [ValueError] they raise on parameters or
    digest names they do not accept. *)
Class Hashlib := {
  scrypt : forall (password salt : string) (n r p maxmem : Z), option string;
  pbkdf2_hmac :
    forall (hash_name password salt : string) (iterations : Z), option string
}.

(** A source of random numbers: the successive results of
    [secrets.randbelow]. *)
Definition random_source := nat -> nat.

(** ** werkzeug.security (release 3.0) *)

Module Werkzeug.
Section Security.
Context {hashlib : Hashlib}.

Definition SALT_CHARS : string :=
  "abcdefghijklmnopqrstuvwxyzABCDEFGHIJKLMNOPQRSTUVWXYZ0123456789".

Definition DEFAULT_PBKDF2_ITERATIONS : Z := 600000.

(** [secrets.choice(SALT_CHARS)] on the draw [r]. *)
Definition choice (r : nat) : ascii :=
  nth (r mod 62) (list_ascii_of_string SALT_CHARS) "a"%char.

(** [gen_salt(length)]: [length] characters drawn from [SALT_CHARS]. *)
Definition gen_salt (rnd : random_source) (length : nat) : result string :=
  if decide (length = 0%nat) then
    Raise (ValueError "Salt length must be at least 1.")
  else
    Ok (string_of_list_ascii (map (fun i => choice (rnd i)) (seq 0 length))).

Definition value_error_of {A} (msg : string) (o : option A) : result A :=
  match o with
  | Some a => Ok a
  | None => Raise (ValueError msg)
  end.

(** The name of a method, before its parameters. *)
Definition method_name (method : string) : string :=
  match PyStr.split ":" method with
  | name :: _ => name
  | [] => EmptyString
  end.

(** [_hash_internal(method, salt, password)]: the digest in hexadecimal and
    the method spelled out with its parameters. *)
Definition _hash_internal (method salt password : string)
  : result (string * string) :=
  match PyStr.split ":" method with
  | [] => Raise (ValueError "Invalid hash method ''.")
  | name :: args =>
      if String.eqb name "scrypt" then
        '(n, r, p) ←
          match args with
          | [] => Ok (2 ^ 15, 8, 1)
          | [a; b; c] =>
              value_error_of "'scrypt' takes 3 arguments."
                (n ← PyStr.int a; r ← PyStr.int b; p ← PyStr.int c;
                 Some (n, r, p))
          | _ => Raise (ValueError "'scrypt' takes 3 arguments.")
          end;
        let maxmem := 132 * n * r * p in
        h ← value_error_of "scrypt" (scrypt password salt n r p maxmem);
        Ok (h, "scrypt:" +:+ PyStr.of_int n +:+ ":" +:+ PyStr.of_int r
                 +:+ ":" +:+ PyStr.of_int p)
      else if String.eqb name "pbkdf2" then
        '(hash_name, iterations) ←
          match args with
          | [] => Ok ("sha256"%string, DEFAULT_PBKDF2_ITERATIONS)
          | [a] => Ok (a, DEFAULT_PBKDF2_ITERATIONS)
          | [a; b] =>
              n ← value_error_of "invalid literal for int()" (PyStr.int b);
              Ok (a, n)
          | _ => Raise (ValueError "'pbkdf2' takes 2 arguments.")
          end;
        h ← value_error_of "pbkdf2_hmac"
              (pbkdf2_hmac hash_name password salt iterations);
        Ok (h, "pbkdf2:" +:+ hash_name +:+ ":" +:+ PyStr.of_int iterations)
      else Raise (ValueError ("Invalid hash method '" +:+ name +:+ "'."))
  end.

(** [generate_password_hash(password, method, salt_length)] *)
Definition generate_password_hash (rnd : random_source) (password : string)
    (method : string) (salt_length : nat) : result string :=
  salt ← gen_salt rnd salt_length;
  '(h, actual_method) ← _hash_internal method salt password;
  Ok (actual_method +:+ "$" +:+ salt +:+ "$" +:+ h).

(** [check_password_hash(pwhash, password)]: [pwhash.split("$", 2)] must
    give three fields, otherwise the answer is [False]. *)
Definition check_password_hash (pwhash password : string) : result bool :=
  match PyStr.split2 "$" pwhash with
  | None => Ok false
  | Some (method, salt, hashval) =>
      '(h, _) ← _hash_internal method salt password;
      Ok (String.eqb h hashval)
  end.

(** [scrypt] accepts the parameters that werkzeug uses by default. *)
Definition scrypt_accepts_defaults : Prop :=
  forall password salt, is_Some (scrypt password salt 32768 8 1 34603008).

End Security.

(** A stored hash that [check_password_hash] cannot use: fewer than three
    fields between [$], or a first field that names no method. *)
Definition malformed (pwhash : string) : Prop :=
  match PyStr.split2 "$" pwhash with
  | None => True
  | Some (method, _, _) =>
      method_name method <> "scrypt"%string
      /\ method_name method <> "pbkdf2"%string
  end.

End Werkzeug.

(** ** Time *)

(** The clock of the process: the successive readings that
    [datetime.utcnow()] returns, and how many were taken. *)
Module Clock.
Record t := mk { reading : nat -> datetime; reads : nat }.

Definition utcnow (c : t) : datetime * t :=
  (reading c (reads c), {| reading := reading c; reads := S (reads c) |}).

(** The clock never goes back. *)
Definition monotone (c : t) : Prop :=
  forall i j, (i <= j)%nat -> reading c i <= reading c j.
End Clock.

Definition microseconds_per_second : Z := 1000000.

(** [timedelta(days=n)] *)
Definition timedelta_days (n : Z) : Z := n * 86400 * microseconds_per_second.

(** [calendar.timegm(t.utctimetuple())]: whole seconds since the epoch. *)
Definition timegm (t : datetime) : Z := t / microseconds_per_second.

(** ** JSON *)

(** The JSON values of a token payload: null, booleans, integers, floats
    and strings. *)
Inductive json :=
| JNull
| JBool (b : bool)
| JInt (n : Z)
| JFloat (x : PyFloat.float)
| JStr (s : string).

#[global] Instance binary64_eq_dec : EqDecision PyFloat.binary64.
Proof. solve_decision. Defined.

#[global] Instance float_eq_dec : EqDecision PyFloat.float.
Proof. solve_decision. Defined.

#[global] Instance json_eq_dec : EqDecision json.
Proof. solve_decision. Defined.

(** ** PyJWT (release 2.8), for the algorithm HS256 *)

Module PyJWT.

(** The header of a token; [typ] plays no part in decoding. *)
Record jose_header := { alg : option string }.

#[global] Instance jose_header_eq_dec : EqDecision jose_header.
Proof. solve_decision. Defined.

(** A token, by what its compact serialization holds: three base64url
    segments carrying a JSON object header, a JSON object payload and a
    signature ([Compact]); three segments whose header is JSON nested
    beyond what the interpreter's recursion limit lets [json.loads] read
    ([DeepHeader]); a header, the text of the first two segments and a
    signature, where the payload is JSON nested so ([DeepPayload]); or
    anything else, which PyJWT refuses with [DecodeError] before it looks at
    the signature ([Garbled]). *)
Inductive token :=
| Garbled (raw : string)
| Compact (header : jose_header) (payload : gmap string json)
          (signature : string)
| DeepHeader (raw : string)
| DeepPayload (header : jose_header) (signing_input signature : string).

(** HMAC-SHA256 of the first two segments under a key: by what the
    segments hold, and by their text for a payload that is not read. *)
Class Hmac := {
  hmac_sha256 : string -> jose_header -> gmap string json -> string;
  hmac_sha256_raw : string -> string -> string
}.

(** A value of the payload handed to [jwt.encode]. *)
Inductive pyval :=
| PyDatetime (t : datetime)
| PyJson (j : json).

Definition is_time_claim (k : string) : bool :=
  String.eqb k "exp" || String.eqb k "iat" || String.eqb k "nbf".

(** What [json.dumps] can write, once [jwt.encode] has turned the datetimes
    of the time claims into seconds. *)
Definition serializable (k : string) (v : pyval) : Prop :=
  match v with
  | PyDatetime _ => is_time_claim k = true
  | PyJson _ => True
  end.

#[global] Instance serializable_dec k v : Decision (serializable k v).
Proof. destruct v; simpl; apply _. Defined.

Definition to_json (v : pyval) : json :=
  match v with
  | PyDatetime t => JInt (timegm t)
  | PyJson j => j
  end.

(** A claim of a token. *)
Definition claim (tok : token) (name : string) : option json :=
  match tok with
  | Compact _ payload _ => payload !! name
  | Garbled _ | DeepHeader _ | DeepPayload _ _ _ => None
  end.

Section Api.
Context {hmac : Hmac}.

(** [jwt.encode(payload, key, algorithm='HS256')] *)
Definition encode (payload : gmap string pyval) (key : string) : result token :=
  if decide (map_Forall serializable payload) then
    let header := {| alg := Some "HS256"%string |} in
    let claims := to_json <$> payload in
    Ok (Compact header claims (hmac_sha256 key header claims))
  else Raise (TypeError "Object of type datetime is not JSON serializable").

(** [int(v)] on a claim, inside [try ... except ValueError], which turns
    the [ValueError] of a string that is no number, or of a float that is
    not a number, into [invalid]; the [OverflowError] of an infinite float
    and the [TypeError] of [None] are not caught. *)
Definition int_of_claim (v : json) (invalid : jwt_error) : result Z :=
  match v with
  | JInt n => Ok n
  | JBool b => Ok (if b then 1 else 0)
  | JFloat (PyFloat.Finite x) => Ok (PyFloat.trunc x)
  | JFloat (PyFloat.Infinite _) => Raise OverflowError
  | JFloat PyFloat.NaN => Raise (InvalidTokenError invalid)
  | JStr s =>
      match PyStr.int s with
      | Some n => Ok n
      | None => Raise (InvalidTokenError invalid)
      end
  | JNull => Raise (TypeError "int() argument must be a string, a bytes-like object or a real number, not 'NoneType'")
  end.

(** The truth value of a claim. *)
Definition truthy (v : json) : bool :=
  match v with
  | JNull => false
  | JBool b => b
  | JInt n => negb (n =? 0)
  | JFloat (PyFloat.Finite x) => negb (PyFloat.mant x =? 0)
  | JFloat _ => true
  | JStr s => negb (String.eqb s "")
  end.

Definition seconds (n : Z) : datetime := n * microseconds_per_second.

Definition _validate_iat (payload : gmap string json) (now : datetime)
  : result unit :=
  match payload !! "iat" with
  | None => Ok tt
  | Some v =>
      iat ← int_of_claim v InvalidIssuedAtError;
      if now <? seconds iat then Raise (InvalidTokenError ImmatureSignatureError)
      else Ok tt
  end.

Definition _validate_nbf (payload : gmap string json) (now : datetime)
  : result unit :=
  match payload !! "nbf" with
  | None => Ok tt
  | Some v =>
      nbf ← int_of_claim v DecodeError;
      if now <? seconds nbf then Raise (InvalidTokenError ImmatureSignatureError)
      else Ok tt
  end.

Definition _validate_exp (payload : gmap string json) (now : datetime)
  : result unit :=
  match payload !! "exp" with
  | None => Ok tt
  | Some v =>
      exp ← int_of_claim v DecodeError;
      if seconds exp <=? now then Raise (InvalidTokenError ExpiredSignatureError)
      else Ok tt
  end.

(** No audience is expected: a token that names one is refused. *)
Definition _validate_aud (payload : gmap string json) : result unit :=
  match payload !! "aud" with
  | None => Ok tt
  | Some v =>
      if truthy v then Raise (InvalidTokenError InvalidAudienceError)
      else Ok tt
  end.

Definition _validate_claims (payload : gmap string json) (now : datetime)
  : result unit :=
  _ ← _validate_iat payload now;
  _ ← _validate_nbf payload now;
  _ ← _validate_exp payload now;
  _validate_aud payload.

(** The signature check of [_verify_signature]. *)
Definition signature_ok (key : string) (header : jose_header)
    (payload : gmap string json) (signature : string) : bool :=
  String.eqb signature (hmac_sha256 key header payload).

(** [jwt.decode(token, key, algorithms=['HS256'])] at the time [now]: the
    header is read, then the algorithm and the signature are checked, then
    the payload is read and its claims validated.  PyJWT catches the
    [ValueError] of [json.loads], not its [RecursionError]. *)
Definition decode (tok : token) (key : string) (now : datetime)
  : result (gmap string json) :=
  match tok with
  | Garbled _ => Raise (InvalidTokenError DecodeError)
  | DeepHeader _ => Raise RecursionError
  | Compact header payload signature =>
      match alg header with
      | None => Raise (InvalidTokenError InvalidAlgorithmError)
      | Some a =>
          if negb (String.eqb a "HS256") then
            Raise (InvalidTokenError InvalidAlgorithmError)
          else if negb (signature_ok key header payload signature) then
            Raise (InvalidTokenError InvalidSignatureError)
          else
            _ ← _validate_claims payload now;
            Ok payload
      end
  | DeepPayload header signing_input signature =>
      match alg header with
      | None => Raise (InvalidTokenError InvalidAlgorithmError)
      | Some a =>
          if negb (String.eqb a "HS256") then
            Raise (InvalidTokenError InvalidAlgorithmError)
          else if negb (String.eqb signature
                          (hmac_sha256_raw key signing_input)) then
            Raise (InvalidTokenError InvalidSignatureError)
          else Raise RecursionError
      end
  end.

End Api.
End PyJWT.

(** ** auth.py *)

Module AuthService.
Import PyJWT.
Section Service.
Context {hashlib : Hashlib} {hmac : Hmac}.

(** [os.getenv('JWT_SECRET_KEY', ...)] *)
Definition JWT_SECRET (env : option string) : string :=
  default "your-secret-key-change-in-production"%string env.

Definition JWT_EXPIRATION_DAYS : Z := 7.

(** [generate_password_hash(password)] with werkzeug's defaults. *)
Definition hash_password (rnd : random_source) (password : string)
  : result string :=
  Werkzeug.generate_password_hash rnd password "scrypt" 16.

Definition verify_password (password_hash password : string) : result bool :=
  Werkzeug.check_password_hash password_hash password.

(** The claims of an issued token. *)
Definition issued_claims (user_id : json) (exp iat : Z) : gmap string json :=
  <["user_id" := user_id]> (<["exp" := JInt exp]> (<["iat" := JInt iat]> ∅)).

(** The payload is built from two readings of the clock: the first for
    ['exp'], the second for ['iat']. *)
Definition generate_jwt (secret : string) (user_id : json) (c : Clock.t)
  : result token * Clock.t :=
  let '(now_exp, c) := Clock.utcnow c in
  let '(now_iat, c) := Clock.utcnow c in
  let payload : gmap string pyval :=
    <["user_id" := PyJson user_id]>
      (<["exp" := PyDatetime (now_exp + timedelta_days JWT_EXPIRATION_DAYS)]>
         (<["iat" := PyDatetime now_iat]> ∅)) in
  (encode payload secret, c).

(** The time that the next reading of the clock gives. *)
Definition now (c : Clock.t) : datetime := Clock.reading c (Clock.reads c).

(** [jwt.decode] reads the clock once. *)
Definition verify_jwt (secret : string) (tok : token) (c : Clock.t)
  : result json * Clock.t :=
  let '(now, c) := Clock.utcnow c in
  (match decode tok secret now with
   | Ok payload =>
       match payload !! "user_id" with
       | Some user_id => Ok user_id
       | None => Raise (KeyError "user_id")
       end
   | Raise (InvalidTokenError ExpiredSignatureError) =>
       Raise (Exception "Token expired")
   | Raise (InvalidTokenError _) => Raise (Exception "Invalid token")
   | Raise e => Raise e
   end, c).

End Service.
End AuthService.


(** ** The tables and the ORM *)

Module Db.

(** A keyword argument of a model constructor. *)
Inductive value :=
| VStr (s : string)
| VTime (t : datetime).

(** The names that class [User] of [models.py] declares. *)
Definition User_attributes : list string :=
  ["__tablename__"; "id"; "username"; "email"; "password_hash"; "created_at";
   "last_login"; "game_results"; "to_dict"]%string.

(** A [User] object before it is flushed: every column is optional. *)
Record UserObj := {
  obj_username : option string;
  obj_email : option string;
  obj_password_hash : option string;
  obj_last_login : option datetime
}.

Definition kwarg (kwargs : list (string * value)) (name : string)
  : option value :=
  snd <$> List.find (fun kv => String.eqb (fst kv) name) kwargs.

Definition str_kwarg (kwargs : list (string * value)) (name : string)
  : option string :=
  match kwarg kwargs name with
  | Some (VStr s) => Some s
  | _ => None
  end.

Definition time_kwarg (kwargs : list (string * value)) (name : string)
  : option datetime :=
  match kwarg kwargs name with
  | Some (VTime t) => Some t
  | _ => None
  end.

(** The declarative constructor of [User]: it refuses a keyword that is not
    an attribute of the class. *)
Definition User_init (kwargs : list (string * value)) : result UserObj :=
  match List.find (fun kv => negb (bool_decide (fst kv ∈ User_attributes)))
          kwargs with
  | Some (name, _) =>
      Raise (TypeError ("'" +:+ name
                        +:+ "' is an invalid keyword argument for User"))
  | None =>
      Ok {| obj_username := str_kwarg kwargs "username";
            obj_email := str_kwarg kwargs "email";
            obj_password_hash := str_kwarg kwargs "password_hash";
            obj_last_login := time_kwarg kwargs "last_login" |}
  end.

(** [User.query.filter_by(...).first()] *)
Definition first_by_email (users : list User.t) (email : string)
  : option User.t :=
  List.find (fun u => String.eqb (User.email u) email) users.

Definition first_by_username (users : list User.t) (username : string)
  : option User.t :=
  List.find (fun u => String.eqb (User.username u) username) users.

(** The integers that SQLite stores.  A Python int beyond them cannot be
    bound to a statement: the driver raises [OverflowError]. *)
Definition sqlite_int (n : Z) : bool := (- 2 ^ 63 <=? n) && (n <? 2 ^ 63).

(** The row of the table with a primary key. *)
Definition row_with_id (users : list User.t) (id : Z) : option User.t :=
  List.find (fun u => User.id u =? id) users.

(** [User.query.get(id)]: the key is bound to the SELECT. *)
Definition get_user (users : list User.t) (id : Z) : result (option User.t) :=
  if sqlite_int id then Ok (row_with_id users id) else Raise OverflowError.

(** The next value of the integer primary key. *)
Definition next_id (users : list User.t) : Z :=
  1 + fold_right Z.max 0 (map User.id users).

(** [db.session.add(user); db.session.commit()] at the time [now], which
    is the default of [created_at]: the row is inserted unless a NOT NULL
    or UNIQUE constraint of the table refuses it. *)
Definition insert_user (users : list User.t) (u : UserObj) (now : datetime)
  : result (User.t * list User.t) :=
  match obj_username u, obj_email u, obj_password_hash u with
  | Some username, Some email, Some password_hash =>
      if first_by_username users username is Some _ then
        Raise (IntegrityError "UNIQUE constraint failed: users.username")
      else if first_by_email users email is Some _ then
        Raise (IntegrityError "UNIQUE constraint failed: users.email")
      else
        let row := User.mk (next_id users) username email password_hash now
                     (obj_last_login u) in
        Ok (row, users ++ [row])
  | None, _, _ =>
      Raise (IntegrityError "NOT NULL constraint failed: users.username")
  | _, None, _ =>
      Raise (IntegrityError "NOT NULL constraint failed: users.email")
  | _, _, None =>
      Raise (IntegrityError "NOT NULL constraint failed: users.password_hash")
  end.

(** The invariant of the [users] table: no two rows share a username or an
    email. *)
Definition unique_users (users : list User.t) : Prop :=
  NoDup (map User.username users) /\ NoDup (map User.email users).

End Db.

(** ** app.py *)

Module App.
Import PyJWT.

(** What [User.to_dict] returns. *)
Record user_dict := {
  dict_id : Z;
  dict_username : string;
  dict_email : string;
  dict_created_at : datetime;
  dict_last_login : option datetime
}.

Definition to_dict (u : User.t) : user_dict :=
  {| dict_id := User.id u;
     dict_username := User.username u;
     dict_email := User.email u;
     dict_created_at := User.created_at u;
     dict_last_login := User.last_login u |}.

(** The JSON bodies of the responses. *)
Inductive body :=
| ErrorBody (error : string)
| FailureBody (what : string) (e : exn)
| UserBody (user : user_dict)
| AuthBody (user : user_dict) (tok : token) (message : string)
| StatsBody (user : user_dict) (stats : Stats.t).

Record response := { status : Z; content : body }.

(** The state around a request: the two tables, the clock and the random
    source. *)
Record world := {
  users : list User.t;
  game_results : list GameResult.t;
  clock : Clock.t;
  random : random_source
}.

Definition with_users (w : world) (us : list User.t) : world :=
  {| users := us; game_results := game_results w;
     clock := clock w; random := random w |}.

Definition with_clock (w : world) (c : Clock.t) : world :=
  {| users := users w; game_results := game_results w;
     clock := c; random := random w |}.

(** The random source after [n] draws. *)
Definition after_draws (w : world) (n : nat) : world :=
  {| users := users w; game_results := game_results w;
     clock := clock w; random := fun i => random w (n + i)%nat |}.

(** [not s] on a field of the request. *)
Definition missing (field : option string) : bool :=
  match field with
  | None | Some EmptyString => true
  | Some _ => false
  end.

Definition all_chars (p : ascii -> bool) (s : string) : bool :=
  forallb p (list_ascii_of_string s).

Definition is_local_char (c : ascii) : bool :=
  PyStr.is_alnum c || PyStr.contains c "._%+-".

Definition is_domain_char (c : ascii) : bool :=
  PyStr.is_alnum c || PyStr.contains c ".-".

(** The text before the last [sep] and the text after it. *)
Fixpoint rpartition (sep : ascii) (s : string) : option (string * string) :=
  match s with
  | EmptyString => None
  | String c s' =>
      match rpartition sep s' with
      | Some (before, rest) => Some (String c before, rest)
      | None => if Ascii.eqb c sep then Some (EmptyString, s') else None
      end
  end.

(** A final line feed is not part of what [$] has to match. *)
Fixpoint chomp (s : string) : string :=
  match s with
  | EmptyString => EmptyString
  | String c EmptyString => if Ascii.eqb c "010" then EmptyString else s
  | String c s' => String c (chomp s')
  end.

(** [re.match(r'^[a-zA-Z0-9._%+-]+@[a-zA-Z0-9.-]+\.[a-zA-Z]{2,}$', email)] *)
Definition email_regex_match (email : string) : bool :=
  match PyStr.partition "@" (chomp email) with
  | None => false
  | Some (local, rest) =>
      negb (String.eqb local "") && all_chars is_local_char local
      && match rpartition "." rest with
         | None => false
         | Some (domain, tld) =>
             negb (String.eqb domain "") && all_chars is_domain_char domain
             && (2 <=? String.length tld)%nat && all_chars PyStr.is_alpha tld
         end
  end.

Section Endpoints.
Context {hashlib : Hashlib} {hmac : Hmac}.
Variable JWT_SECRET : string.

(** The [try] block of [register].  The table changes only when the commit
    succeeds, so the rollback of the [except] branch has nothing to undo. *)
Definition create_account (email username password : string) (w : world)
  : result response * world :=
  let hashed := AuthService.hash_password (random w) password in
  let w := after_draws w 16 in
  match hashed with
  | Raise e => (Raise e, w)
  | Ok password_hash =>
      let '(last_login, c) := Clock.utcnow (clock w) in
      let w := with_clock w c in
      match Db.User_init [("username"%string, Db.VStr username);
                          ("email"%string, Db.VStr email);
                          ("password_hash"%string, Db.VStr password_hash);
                          ("last_login"%string, Db.VTime last_login)] with
      | Raise e => (Raise e, w)
      | Ok obj =>
          let '(created_at, c) := Clock.utcnow (clock w) in
          let w := with_clock w c in
          match Db.insert_user (users w) obj created_at with
          | Raise e => (Raise e, w)
          | Ok (user, table) =>
              let w := with_users w table in
              let '(tok, c) :=
                AuthService.generate_jwt JWT_SECRET (JInt (User.id user))
                  (clock w) in
              let w := with_clock w c in
              match tok with
              | Raise e => (Raise e, w)
              | Ok tok =>
                  (Ok {| status := 201;
                         content := AuthBody (to_dict user) tok
                                      "Registration successful" |}, w)
              end
          end
      end
  end.

(** POST /api/auth/register *)
Definition register (data : gmap string string) (w : world)
  : result response * world :=
  let email := data !! "email" in
  let username := data !! "username" in
  let password := data !! "password" in
  match email, username, password with
  | Some email, Some username, Some password =>
      if missing (Some email) || missing (Some username)
         || missing (Some password) then
        (Ok {| status := 400;
               content := ErrorBody "Email, username, and password are required" |}, w)
      else if negb (email_regex_match email) then
        (Ok {| status := 400; content := ErrorBody "Invalid email format" |}, w)
      else if Db.first_by_email (users w) email is Some _ then
        (Ok {| status := 409; content := ErrorBody "Email already registered" |}, w)
      else if Db.first_by_username (users w) username is Some _ then
        (Ok {| status := 409; content := ErrorBody "Username already taken" |}, w)
      else if (PyStr.len password <? 6)%nat then
        (Ok {| status := 400;
               content := ErrorBody "Password must be at least 6 characters" |}, w)
      else
        match create_account email username password w with
        | (Raise e, w') =>
            (Ok {| status := 500;
                   content := FailureBody "Registration failed: " e |}, w')
        | (Ok r, w') => (Ok r, w')
        end
  | _, _, _ =>
      (Ok {| status := 400;
             content := ErrorBody "Email, username, and password are required" |}, w)
  end.

(** POST /api/users *)
Definition create_user (data : option (gmap string string)) (w : world)
  : result response * world :=
  match data with
  | None =>
      (Ok {| status := 400; content := ErrorBody "Username is required" |}, w)
  | Some data =>
      match data !! "username" with
      | None =>
          (Ok {| status := 400; content := ErrorBody "Username is required" |}, w)
      | Some username =>
          match Db.first_by_username (users w) username with
          | Some existing_user =>
              (Ok {| status := 200; content := UserBody (to_dict existing_user) |}, w)
          | None =>
              match Db.User_init [("username"%string, Db.VStr username);
                                  ("auth_provider"%string, Db.VStr "username")] with
              | Raise e => (Raise e, w)
              | Ok obj =>
                  let '(created_at, c) := Clock.utcnow (clock w) in
                  let w := with_clock w c in
                  match Db.insert_user (users w) obj created_at with
                  | Raise e => (Raise e, w)
                  | Ok (user, table) =>
                      (Ok {| status := 201; content := UserBody (to_dict user) |},
                       with_users w table)
                  end
              end
          end
      end
  end.

(** GET /api/results/user/<user_id>/stats *)
Definition get_user_stats (user_id : Z) (w : world) : result response :=
  found ← Db.get_user (users w) user_id;
  match found with
  | None => Ok {| status := 404; content := ErrorBody "User not found" |}
  | Some user =>
      let results :=
        filter (fun r => GameResult.user_id r = user_id) (game_results w) in
      stats ← Stats.compute_stats results;
      Ok {| status := 200; content := StatsBody (to_dict user) stats |}
  end.

End Endpoints.
End App.

(** ** Sample data *)

Module Sample.


(** Stand-ins for the cryptographic primitives, to run the definitions. *)
Definition hashlib : Hashlib := {|
  scrypt password salt n r p maxmem := Some (salt +:+ password);
  pbkdf2_hmac hash_name password salt iterations := Some (salt +:+ password)
|}.

Definition hmac : PyJWT.Hmac := {|
  PyJWT.hmac_sha256 key header payload :=
    key +:+ default "" (PyJWT.alg header);
  PyJWT.hmac_sha256_raw key signing_input := key +:+ signing_input
|}.

(** A token signed under the key ["k"] whose expiry is [1e999]. *)
Definition infinite_expiry : PyJWT.token :=
  PyJWT.Compact {| PyJWT.alg := Some "HS256"%string |}
    (<["user_id" := JInt 1]>
       (<["exp" := JFloat (PyFloat.Infinite false)]> ∅))
    "kHS256".

(** A clock that starts at [start] and advances by [step] microseconds
    from one reading to the next. *)
Definition ticking (start step : Z) : Clock.t :=
  Clock.mk (fun i => start + step * Z.of_nat i) 0.

(** Two readings one microsecond apart, on the two sides of a second. *)
Definition across_a_second : Clock.t := ticking 1700000000999999 1.

Definition constant_draws (r : nat) : random_source := fun _ => r.

(** Requests and a world to run the endpoints. *)
Definition empty_world : App.world :=
  {| App.users := []; App.game_results := [];
     App.clock := ticking 1700000000000000 5;
     App.random := constant_draws 0 |}.

Definition alice : gmap string string :=
  <["email" := "a@b.com"]>
    (<["username" := "alice"]> (<["password" := "secret1"]> ∅)).

Definition alice_again : gmap string string :=
  <["email" := "a@b.com"]>
    (<["username" := "alicia"]> (<["password" := "secret2"]> ∅)).

Definition bob : gmap string string := <["username" := "bob"]> ∅.

End Sample.

(** ** app.py: login, lookups and game results *)

(** [ORDER BY played_at DESC], as the database engine does it: some
    arrangement of the rows with the most recent first; rows played at the
    same time come in an order of the engine's choosing. *)
Class OrderBy := {
  most_recent_first : list GameResult.t -> list GameResult.t;
  most_recent_first_perm : forall rs, most_recent_first rs ≡ₚ rs;
  most_recent_first_sorted :
    forall rs,
      StronglySorted
        (fun a b => GameResult.played_at b <= GameResult.played_at a)
        (most_recent_first rs)
}.

Module Api.
Import App.

(** The clock [n] readings later. *)
Definition later (c : Clock.t) (n : nat) : Clock.t :=
  Clock.mk (Clock.reading c) (n + Clock.reads c).

(** A registration request that passes every check of [register] on the
    table [us]. *)
Definition acceptable (data : gmap string string) (us : list User.t)
    (email username password : string) : Prop :=
  data !! "email" = Some email
  /\ data !! "username" = Some username
  /\ data !! "password" = Some password
  /\ missing (Some email) = false
  /\ missing (Some username) = false
  /\ missing (Some password) = false
  /\ email_regex_match email = true
  /\ Db.first_by_email us email = None
  /\ Db.first_by_username us username = None
  /\ (6 <= PyStr.len password)%nat.

(** The row of a new account, from the two readings of the clock that
    [register] takes before the insertion. *)
Definition new_account (us : list User.t) (c : Clock.t)
    (email username password_hash : string) : User.t :=
  User.mk (Db.next_id us) username email password_hash
    (Clock.reading c (S (Clock.reads c)))
    (Some (Clock.reading c (Clock.reads c))).

Definition with_results (w : world) (rs : list GameResult.t) : world :=
  {| users := users w; game_results := rs;
     clock := clock w; random := random w |}.

(** [user.last_login = t] *)
Definition touch (t : datetime) (u : User.t) : User.t :=
  User.mk (User.id u) (User.username u) (User.email u)
    (User.password_hash u) (User.created_at u) (Some t).

(** The UPDATE of the commit: the row with this primary key. *)
Definition update_last_login (users : list User.t) (id : Z) (t : datetime)
  : list User.t :=
  map (fun u => if User.id u =? id then touch t u else u) users.

(** The bodies of the responses that [App.body] does not list. *)
Inductive body :=
| Error (error : string)
| Users (users : list user_dict)
| Result (result : GameResult.t)
| Results (user : user_dict) (results : list GameResult.t) (total_games : Z).

Record response := { status : Z; content : body }.

(** A member of a JSON request body: absent, [null] or a value. *)
Inductive member (A : Type) :=
| Absent
| Null
| Given (a : A).
Arguments Absent {A}.
Arguments Null {A}.
Arguments Given {A} a.

(** The body of POST /api/results, with integer counters, string labels and
    a boolean flag. *)
Record result_form := {
  form_user_id : member Z;
  form_score : member Z;
  form_moves : member Z;
  form_time_taken : member Z;
  form_difficulty : member string;
  form_grid_size : member string;
  form_completed : option bool
}.

(** [field not in data] *)
Definition not_in {A} (m : member A) : bool :=
  match m with
  | Absent => true
  | _ => false
  end.

(** [data[field]] of a member that is there: [None] is Python's [None]. *)
Definition item {A} (m : member A) : option A :=
  match m with
  | Given a => Some a
  | _ => None
  end.

(** [data.get(field, default)] *)
Definition get_or {A} (m : member A) (default : A) : option A :=
  match m with
  | Absent => Some default
  | Null => None
  | Given a => Some a
  end.

Definition binds (n : option Z) : bool :=
  match n with
  | Some n => Db.sqlite_int n
  | None => true
  end.

Definition next_result_id (results : list GameResult.t) : Z :=
  1 + fold_right Z.max 0 (map GameResult.id results).

(** [db.session.add(result); db.session.commit()] at the time [now], the
    default of [played_at].  An integer beyond 64 bits cannot be bound to
    the statement; the four counters are NOT NULL; the owner is not looked
    up (SQLite does not enforce foreign keys unless asked to). *)
Definition insert_result (results : list GameResult.t)
    (user_id score moves time_taken : option Z)
    (difficulty grid_size : option string) (completed : bool)
    (now : datetime) : result (GameResult.t * list GameResult.t) :=
  if negb (binds user_id && binds score && binds moves && binds time_taken)
  then Raise OverflowError
  else
    match user_id, score, moves, time_taken with
    | Some user_id, Some score, Some moves, Some time_taken =>
        let row := GameResult.mk (next_result_id results) user_id score moves
                     time_taken difficulty grid_size completed now in
        Ok (row, results ++ [row])
    | None, _, _, _ =>
        Raise (IntegrityError "NOT NULL constraint failed: game_results.user_id")
    | _, None, _, _ =>
        Raise (IntegrityError "NOT NULL constraint failed: game_results.score")
    | _, _, None, _ =>
        Raise (IntegrityError "NOT NULL constraint failed: game_results.moves")
    | _, _, _, None =>
        Raise (IntegrityError
                 "NOT NULL constraint failed: game_results.time_taken")
    end.

(** The row that [save_result] stores for a request with the four counters
    [u], [s], [m] and [t], in the state [w]. *)
Definition new_result (data : result_form) (w : world) (u s m t : Z)
  : GameResult.t :=
  GameResult.mk (next_result_id (game_results w)) u s m t
    (get_or (form_difficulty data) "medium"%string)
    (get_or (form_grid_size data) "4x4"%string)
    (default true (form_completed data))
    (Clock.reading (clock w) (Clock.reads (clock w))).

(** The order of [ORDER BY played_at DESC]. *)
Definition most_recent (a b : GameResult.t) : Prop :=
  GameResult.played_at b <= GameResult.played_at a.

(** [query.limit(n)]: the limit is bound to the statement, and the first
    [n] rows are returned; SQLite reads a negative limit as no limit. *)
Definition sql_limit (n : Z) (rows : list GameResult.t)
  : result (list GameResult.t) :=
  if negb (Db.sqlite_int n) then Raise OverflowError
  else if n <? 0 then Ok rows
  else Ok (take (Z.to_nat (Z.min n (Z.of_nat (length rows)))) rows).

(** A limit that leaves the query as it is, or that can be bound to it. *)
Definition bindable (limit : option Z) : bool :=
  match limit with
  | None => true
  | Some n => (n =? 0) || Db.sqlite_int n
  end.

(** What a successful login does to a row [v] of the users, giving [v']:
    the last login of a row with the key [id] becomes [t], and nothing else
    changes. *)
Definition logged_in (id : Z) (t : datetime) (v v' : User.t) : Prop :=
  User.id v' = User.id v
  /\ User.username v' = User.username v
  /\ User.email v' = User.email v
  /\ User.password_hash v' = User.password_hash v
  /\ User.created_at v' = User.created_at v
  /\ User.last_login v'
     = if bool_decide (User.id v = id) then Some t else User.last_login v.

Section Endpoints.
Context {hashlib : Hashlib} {hmac : PyJWT.Hmac} {order : OrderBy}.
Variable JWT_SECRET : string.

(** POST /api/auth/login *)
Definition login (data : gmap string string) (w : world)
  : result App.response * world :=
  let required :=
    {| App.status := 400;
       App.content := ErrorBody "Email and password are required" |} in
  let refused :=
    {| App.status := 401;
       App.content := ErrorBody "Invalid email or password" |} in
  match data !! "email", data !! "password" with
  | Some email, Some password =>
      if missing (Some email) || missing (Some password) then (Ok required, w)
      else
        match Db.first_by_email (users w) email with
        | None => (Ok refused, w)
        | Some user =>
            match AuthService.verify_password (User.password_hash user)
                    password with
            | Raise e =>
                (Ok {| App.status := 500;
                       App.content := FailureBody "Login failed: " e |}, w)
            | Ok false => (Ok refused, w)
            | Ok true =>
                let '(last_login, c) := Clock.utcnow (clock w) in
                let w := with_clock w c in
                let w :=
                  with_users w
                    (update_last_login (users w) (User.id user) last_login) in
                let '(tok, c) :=
                  AuthService.generate_jwt JWT_SECRET (JInt (User.id user))
                    (clock w) in
                let w := with_clock w c in
                match tok with
                | Raise e =>
                    (Ok {| App.status := 500;
                           App.content := FailureBody "Login failed: " e |}, w)
                | Ok tok =>
                    (Ok {| App.status := 200;
                           App.content :=
                             AuthBody (to_dict (touch last_login user)) tok
                               "Login successful" |}, w)
                end
            end
        end
  | _, _ => (Ok required, w)
  end.

(** GET /api/users/<username> *)
Definition get_user (username : string) (w : world) : App.response :=
  match Db.first_by_username (users w) username with
  | None => {| App.status := 404; App.content := ErrorBody "User not found" |}
  | Some user => {| App.status := 200; App.content := UserBody (to_dict user) |}
  end.

(** GET /api/users *)
Definition get_all_users (w : world) : response :=
  {| status := 200; content := Users (map to_dict (users w)) |}.

(** POST /api/results *)
Definition save_result (data : result_form) (w : world)
  : result response * world :=
  let required field :=
    (Ok {| status := 400; content := Error (field +:+ " is required") |}, w) in
  if not_in (form_user_id data) then required "user_id"%string
  else if not_in (form_score data) then required "score"%string
  else if not_in (form_moves data) then required "moves"%string
  else if not_in (form_time_taken data) then required "time_taken"%string
  else
    let '(played_at, c) := Clock.utcnow (clock w) in
    let w := with_clock w c in
    match insert_result (game_results w)
            (item (form_user_id data)) (item (form_score data))
            (item (form_moves data)) (item (form_time_taken data))
            (get_or (form_difficulty data) "medium"%string)
            (get_or (form_grid_size data) "4x4"%string)
            (default true (form_completed data)) played_at with
    | Raise e => (Raise e, w)
    | Ok (row, table) =>
        (Ok {| status := 201; content := Result row |}, with_results w table)
    end.

(** The rows that GET /api/results/user/<user_id> selects, before they are
    ordered: those of the user, with the difficulty asked for unless it is
    absent or empty. *)
Definition selected (user_id : Z) (difficulty : option string)
    (results : list GameResult.t) : list GameResult.t :=
  let own := filter (fun r => GameResult.user_id r = user_id) results in
  if missing difficulty then own
  else filter (fun r => GameResult.difficulty r = difficulty) own.

(** GET /api/results/user/<user_id> with the query parameters [limit] and
    [difficulty]. *)
Definition get_user_results (user_id : Z) (limit : option Z)
    (difficulty : option string) (w : world) : result response :=
  found ← Db.get_user (users w) user_id;
  match found with
  | None => Ok {| status := 404; content := Error "User not found" |}
  | Some user =>
      let ordered :=
        most_recent_first (selected user_id difficulty (game_results w)) in
      results ←
        match limit with
        | None => Ok ordered
        | Some n => if n =? 0 then Ok ordered else sql_limit n ordered
        end;
      Ok {| status := 200;
            content := Results (to_dict user) results
                         (Z.of_nat (length results)) |}
  end.

(** The routes of the application that take a request, and the state that
    each leaves: the read-only routes, and a request that ends in an
    exception, leave the tables as they were. *)
Inductive request :=
| Register (data : gmap string string)
| Login (data : gmap string string)
| CreateUser (data : option (gmap string string))
| GetUser (username : string)
| GetAllUsers
| SaveResult (data : result_form)
| GetUserResults (user_id : Z) (limit : option Z) (difficulty : option string)
| GetUserStats (user_id : Z).

Definition serve (req : request) (w : world) : world :=
  match req with
  | Register data => snd (register JWT_SECRET data w)
  | Login data => snd (login data w)
  | CreateUser data => snd (create_user data w)
  | SaveResult data => snd (save_result data w)
  | GetUser _ | GetAllUsers | GetUserResults _ _ _ | GetUserStats _ => w
  end.

Definition serve_all (reqs : list request) (w : world) : world :=
  fold_left (fun w req => serve req w) reqs w.

(** Nothing is removed from the tables and no stored value other than a
    last login is changed: the columns of the users and the rows of the
    results of [w] begin those of [w']. *)
Definition grows (w w' : world) : Prop :=
  map User.id (users w) `prefix_of` map User.id (users w')
  /\ map User.username (users w) `prefix_of` map User.username (users w')
  /\ map User.email (users w) `prefix_of` map User.email (users w')
  /\ map User.password_hash (users w)
     `prefix_of` map User.password_hash (users w')
  /\ map User.created_at (users w) `prefix_of` map User.created_at (users w')
  /\ game_results w `prefix_of` game_results w'.

(** The keys, the usernames and the emails of the users are distinct, and
    so are the keys of the results. *)
Definition distinct_keys (w : world) : Prop :=
  NoDup (map User.id (users w))
  /\ Db.unique_users (users w)
  /\ NoDup (map GameResult.id (game_results w)).

End Endpoints.
End Api.

(** ** More sample data *)

Module Sample2.

(** An ordering of results: merge sort on the time played. *)
Definition later_first (a b : GameResult.t) : Prop :=
  GameResult.played_at b <= GameResult.played_at a.

#[global] Instance later_first_dec a b : Decision (later_first a b).
Proof. unfold later_first. apply _. Defined.

#[global] Instance later_first_total : Total later_first.
Proof. intros a b. unfold later_first. lia. Qed.

#[global] Instance later_first_trans : Transitive later_first.
Proof. intros a b c. unfold later_first. lia. Qed.

Definition order : OrderBy := {|
  most_recent_first := merge_sort later_first;
  most_recent_first_perm := merge_sort_Permutation later_first;
  most_recent_first_sorted := StronglySorted_merge_sort later_first
|}.

(** A result played at a given time. *)
Definition game (id user_id score : Z) (difficulty : string)
    (played_at : datetime) : GameResult.t :=
  GameResult.mk id user_id score 10 30 (Some difficulty) (Some "4x4"%string)
    true played_at.

Definition carol : User.t :=
  User.mk 1 "carol" "carol@example.org" "not-a-hash" 1700000000000000 None.

Definition dave : User.t :=
  User.mk 2 "dave" "dave@example.org" "foo$bar$baz" 1700000000000000 None.

Definition played_world : App.world :=
  {| App.users := [carol; dave];
     App.game_results :=
       [game 1 1 100 "easy" 10; game 2 2 500 "hard" 20;
        game 3 1 300 "hard" 30; game 4 1 200 "easy" 40];
     App.clock := Sample.ticking 1700000000000000 5;
     App.random := Sample.constant_draws 0 |}.

Definition form (user_id score moves time_taken : Z) : Api.result_form :=
  {| Api.form_user_id := Api.Given user_id;
     Api.form_score := Api.Given score;
     Api.form_moves := Api.Given moves;
     Api.form_time_taken := Api.Given time_taken;
     Api.form_difficulty := Api.Absent;
     Api.form_grid_size := Api.Absent;
     Api.form_completed := None |}.

(** A request whose score is [null]. *)
Definition null_score : Api.result_form :=
  {| Api.form_user_id := Api.Given 1;
     Api.form_score := Api.Null;
     Api.form_moves := Api.Given 12;
     Api.form_time_taken := Api.Given 45;
     Api.form_difficulty := Api.Absent;
     Api.form_grid_size := Api.Absent;
     Api.form_completed := None |}.

Definition credentials (email password : string) : gmap string string :=
  <["email" := email]> (<["password" := password]> ∅).

(** The state after the registration of [Sample.alice] in the empty state,
    with the stand-ins for the primitives. *)
Definition registered_world : App.world :=
  snd (App.register (hashlib := Sample.hashlib) (hmac := Sample.hmac) "k"
         Sample.alice Sample.empty_world).

End Sample2.

(** * Properties *)

(** ** Rounding to binary64 *)

Module PyFloatFacts.
Import PyFloat.

Lemma rne_div_close n d :
  0 < d -> 2 * Z.abs (rne_div n d * d - n) <= d.
Proof.
  intros Hd. unfold rne_div.
  pose proof (Z.div_mod n d ltac:(lia)) as Hdiv.
  pose proof (Z.mod_pos_bound n d Hd) as Hmod.
  destruct (Z.compare_spec (2 * (n mod d)) d) as [Heq | Hlt | Hgt];
    [destruct (Z.even (n / d)) | | ]; nia.
Qed.

Lemma rne_div_nonneg n d : 0 <= n -> 0 < d -> 0 <= rne_div n d.
Proof.
  intros Hn Hd. unfold rne_div.
  pose proof (Z.div_pos n d Hn Hd).
  destruct (_ ?= _); [destruct (Z.even _) | | ]; lia.
Qed.

Lemma pow2_pos e : 0 < 2 ^ Z.max 0 e.
Proof. apply Z.pow_pos_nonneg; lia. Qed.

Lemma pow2_split a b : 0 <= a -> 0 <= b -> 2 ^ (a + b) = 2 ^ a * 2 ^ b.
Proof. intros. apply Z.pow_add_r; lia. Qed.

(** [2^l <= n / d] for [l = ilog2_ratio n d]. *)
Lemma ilog2_ratio_lower n d :
  0 < n -> 0 < d ->
  scaled_den d (ilog2_ratio n d) <= scaled_num n (ilog2_ratio n d).
Proof.
  intros Hn Hd. unfold ilog2_ratio, scaled_den, scaled_num.
  set (p := Z.log2 n). set (q := Z.log2 d).
  destruct (Z.ltb_spec (n * 2 ^ Z.max 0 (- (p - q))) (d * 2 ^ Z.max 0 (p - q)))
    as [Hlt | Hge]; [ | lia].
  pose proof (Z.log2_spec n Hn) as [Hp _].
  pose proof (Z.log2_spec d Hd) as [_ Hq].
  pose proof (Z.log2_nonneg n). pose proof (Z.log2_nonneg d).
  fold p in Hp. fold q in Hq.
  destruct (Z_le_gt_dec 0 (p - q - 1)) as [Hl | Hl].
  - rewrite (Z.max_r 0 (p - q - 1)), (Z.max_l 0 (- (p - q - 1))) by lia.
    replace p with (Z.succ q + (p - q - 1)) in Hp by lia.
    rewrite pow2_split in Hp by lia.
    assert (0 < 2 ^ (p - q - 1)) by (apply Z.pow_pos_nonneg; lia).
    nia.
  - rewrite (Z.max_l 0 (p - q - 1)), (Z.max_r 0 (- (p - q - 1))) by lia.
    replace (Z.succ q) with (p + (- (p - q - 1))) in Hq by lia.
    rewrite pow2_split in Hq by lia.
    assert (0 < 2 ^ (- (p - q - 1))) by (apply Z.pow_pos_nonneg; lia).
    nia.
Qed.

(** [n / d < 2^(l+1)] for [l = ilog2_ratio n d]. *)
Lemma ilog2_ratio_upper n d :
  0 < n -> 0 < d ->
  scaled_num n (ilog2_ratio n d + 1) < scaled_den d (ilog2_ratio n d + 1).
Proof.
  intros Hn Hd. unfold ilog2_ratio, scaled_den, scaled_num.
  set (p := Z.log2 n). set (q := Z.log2 d).
  destruct (Z.ltb_spec (n * 2 ^ Z.max 0 (- (p - q))) (d * 2 ^ Z.max 0 (p - q)))
    as [Hlt | Hge].
  { replace (p - q - 1 + 1) with (p - q) by lia. exact Hlt. }
  pose proof (Z.log2_spec n Hn) as [_ Hp].
  pose proof (Z.log2_spec d Hd) as [Hq _].
  pose proof (Z.log2_nonneg n). pose proof (Z.log2_nonneg d).
  fold p in Hp. fold q in Hq.
  destruct (Z_le_gt_dec 0 (p - q + 1)) as [Hl | Hl].
  - rewrite (Z.max_r 0 (p - q + 1)), (Z.max_l 0 (- (p - q + 1))) by lia.
    replace (Z.succ p) with (q + (p - q + 1)) in Hp by lia.
    rewrite pow2_split in Hp by lia.
    assert (0 < 2 ^ (p - q + 1)) by (apply Z.pow_pos_nonneg; lia).
    nia.
  - rewrite (Z.max_l 0 (p - q + 1)), (Z.max_r 0 (- (p - q + 1))) by lia.
    replace q with (Z.succ p + (- (p - q + 1))) in Hq by lia.
    rewrite pow2_split in Hq by lia.
    assert (0 < 2 ^ (- (p - q + 1))) by (apply Z.pow_pos_nonneg; lia).
    nia.
Qed.


Lemma scaled_num_pos n e : 0 < n -> 0 < scaled_num n e.
Proof. intros. unfold scaled_num. pose proof (pow2_pos (- e)). nia. Qed.

Lemma scaled_den_pos d e : 0 < d -> 0 < scaled_den d e.
Proof. intros. unfold scaled_den. pose proof (pow2_pos e). nia. Qed.

(** Moving the exponent by [c] scales the quotient by [2^c]. *)
Lemma scaled_shift n d e c :
  0 <= c ->
  scaled_num n e * scaled_den d (e + c)
  = 2 ^ c * (scaled_num n (e + c) * scaled_den d e).
Proof.
  intros Hc. unfold scaled_num, scaled_den.
  assert (2 ^ Z.max 0 (- e) * 2 ^ Z.max 0 (e + c)
          = 2 ^ c * (2 ^ Z.max 0 (- (e + c)) * 2 ^ Z.max 0 e)) as Hpow.
  { rewrite <- !pow2_split by lia. f_equal. lia. }
  transitivity (n * d * (2 ^ Z.max 0 (- e) * 2 ^ Z.max 0 (e + c))); [ring | ].
  rewrite Hpow. ring.
Qed.


Lemma scaled_succ n d e :
  (0 <= e /\ scaled_num n (e + 1) = scaled_num n e
          /\ scaled_den d (e + 1) = 2 * scaled_den d e)
  \/ (e < 0 /\ scaled_num n e = 2 * scaled_num n (e + 1)
            /\ scaled_den d (e + 1) = scaled_den d e).
Proof.
  unfold scaled_num, scaled_den.
  destruct (Z_le_gt_dec 0 e) as [He | He]; [left | right].
  - rewrite !(Z.max_r 0 e), !(Z.max_r 0 (e + 1)) by lia.
    rewrite !(Z.max_l 0 (- e)), !(Z.max_l 0 (- (e + 1))) by lia.
    rewrite pow2_split by lia. change (2 ^ 1) with 2. lia.
  - rewrite !(Z.max_l 0 e), !(Z.max_l 0 (e + 1)) by lia.
    rewrite !(Z.max_r 0 (- e)), !(Z.max_r 0 (- (e + 1))) by lia.
    set (k := - (e + 1)). replace (- e) with (k + 1) by lia.
    rewrite pow2_split by lia. change (2 ^ 1) with 2. lia.
Qed.

(** The scaled quotient at the chosen exponent is below [2^53]. *)
Lemma scaled_upper n d :
  0 < n -> 0 < d ->
  let e := Z.max (ilog2_ratio n d - 52) emin in
  scaled_num n e < 2 ^ 53 * scaled_den d e.
Proof.
  intros Hn Hd e.
  pose proof (ilog2_ratio_upper n d Hn Hd) as Hup.
  set (l := ilog2_ratio n d) in *.
  pose proof (scaled_num_pos n e Hn) as HN.
  pose proof (scaled_den_pos d e Hd) as HD.
  pose proof (scaled_num_pos n (l + 1) Hn) as HN'.
  pose proof (scaled_den_pos d (l + 1) Hd) as HD'.
  destruct (Z_le_gt_dec e (l + 1)) as [Hle | Hgt].
  - pose proof (scaled_shift n d e (l + 1 - e) ltac:(lia)) as Hs.
    replace (e + (l + 1 - e)) with (l + 1) in Hs by lia.
    assert (0 < 2 ^ (l + 1 - e) <= 2 ^ 53) as Hc.
    { split; [apply Z.pow_pos_nonneg; lia | apply Z.pow_le_mono_r; lia]. }
    set (c := 2 ^ (l + 1 - e)) in *. set (K := 2 ^ 53) in *.
    set (N := scaled_num n e) in *. set (D := scaled_den d e) in *.
    set (N' := scaled_num n (l + 1)) in *. set (D' := scaled_den d (l + 1)) in *.
    assert (N' * D < D' * D) by (apply Z.mul_lt_mono_pos_r; lia).
    assert (c * (N' * D) <= K * (N' * D))
      by (apply Z.mul_le_mono_nonneg_r; nia).
    assert (K * (N' * D) < K * (D' * D))
      by (apply Z.mul_lt_mono_pos_l; lia).
    apply (Z.mul_lt_mono_pos_r D'); [lia | ].
    replace (K * D * D') with (K * (D' * D)) by ring. lia.
  - pose proof (scaled_shift n d (l + 1) (e - (l + 1)) ltac:(lia)) as Hs.
    replace (l + 1 + (e - (l + 1))) with e in Hs by lia.
    assert (1 <= 2 ^ (e - (l + 1))) as Hc.
    { change 1 with (2 ^ 0). apply Z.pow_le_mono_r; lia. }
    assert (0 < 2 ^ 53) by reflexivity.
    set (c := 2 ^ (e - (l + 1))) in *. set (K := 2 ^ 53) in *.
    set (N := scaled_num n e) in *. set (D := scaled_den d e) in *.
    set (N' := scaled_num n (l + 1)) in *. set (D' := scaled_den d (l + 1)) in *.
    assert (N * D' <= c * (N * D'))
      by (rewrite <- (Z.mul_1_l (N * D')) at 1;
          apply Z.mul_le_mono_nonneg_r; nia).
    assert (N' * D < D' * D) by (apply Z.mul_lt_mono_pos_r; lia).
    assert (N * D' < D * D') by lia.
    assert (N < D) by (apply (Z.mul_lt_mono_pos_r D'); lia).
    nia.
Qed.

(** In the normal range it is at least [2^52]. *)
Lemma scaled_lower n d :
  0 < n -> 0 < d ->
  emin <= ilog2_ratio n d - 52 ->
  let e := Z.max (ilog2_ratio n d - 52) emin in
  2 ^ 52 * scaled_den d e <= scaled_num n e.
Proof.
  intros Hn Hd Hnormal e.
  pose proof (ilog2_ratio_lower n d Hn Hd) as Hlow.
  set (l := ilog2_ratio n d) in *.
  assert (e = l - 52) as -> by (unfold e; lia).
  pose proof (scaled_shift n d (l - 52) 52 ltac:(lia)) as Hs.
  replace (l - 52 + 52) with l in Hs by lia.
  pose proof (scaled_den_pos d l Hd) as HD'.
  pose proof (scaled_den_pos d (l - 52) Hd) as HD.
  assert (0 < 2 ^ 52) by reflexivity.
  set (K := 2 ^ 52) in *.
  set (N := scaled_num n (l - 52)) in *. set (D := scaled_den d (l - 52)) in *.
  set (N' := scaled_num n l) in *. set (D' := scaled_den d l) in *.
  assert (K * (D' * D) <= K * (N' * D)).
  { apply Z.mul_le_mono_nonneg_l; [lia | ].
    apply Z.mul_le_mono_nonneg_r; lia. }
  apply (Z.mul_le_mono_pos_r _ _ D'); [lia | ].
  replace (K * D * D') with (K * (D' * D)) by ring. lia.
Qed.


(** What [round_nearest] returns: a mantissa below [2^53]; either zero, when
    the quotient is at most half the smallest subnormal, or a value within
    half a unit in the last place of the quotient, whose mantissa is at least
    [2^52] above the smallest exponent. *)
Lemma round_nearest_spec n d x :
  0 < n -> 0 < d -> round_nearest n d = Some x ->
  0 <= mant x < 2 ^ 53
  /\ (mant x = 0 ->
      x = B64 0 0 /\ 2 * scaled_num n emin <= scaled_den d emin)
  /\ (mant x <> 0 ->
      emin <= expo x <= emax
      /\ expo x <= Z.max (ilog2_ratio n d - 52) emin + 1
      /\ 2 * Z.abs (mant x * scaled_den d (expo x) - scaled_num n (expo x))
         <= scaled_den d (expo x)
      /\ (emin < expo x -> 2 ^ 52 <= mant x)).
Proof.
  intros Hn Hd. unfold round_nearest.
  destruct (Z.eqb_spec n 0) as [-> | _]; [lia | ].
  pose proof (scaled_upper n d Hn Hd) as Hup.
  pose proof (scaled_lower n d Hn Hd) as Hlow.
  cbv zeta in Hup, Hlow.
  set (e := Z.max (ilog2_ratio n d - 52) emin) in *.
  pose proof (scaled_num_pos n e Hn) as HN.
  pose proof (scaled_den_pos d e Hd) as HD.
  pose proof (rne_div_close (scaled_num n e) (scaled_den d e) HD) as Hclose.
  pose proof (rne_div_nonneg (scaled_num n e) (scaled_den d e)
                ltac:(lia) HD) as Hm0.
  pose proof (scaled_succ n d e) as Hsucc.
  set (m := rne_div (scaled_num n e) (scaled_den d e)) in *.
  assert (2 ^ 52 = 4503599627370496) as K52 by reflexivity.
  assert (2 ^ 53 = 9007199254740992) as K53 by reflexivity.
  assert (emin <= e) as Hemin by (unfold e; lia).
  assert (m <= 2 ^ 53) as Hm53 by nia.
  assert (emin < e -> 2 ^ 52 <= m) as Hm52.
  { intros He. assert (emin <= ilog2_ratio n d - 52) as Hl by (unfold e in He; lia).
    specialize (Hlow Hl). nia. }
  cbv zeta.
  destruct (Z.eqb_spec m (2 ^ 53)) as [Hm | Hm].
  - rewrite K52. simpl (4503599627370496 =? 0).
    destruct (Z.ltb_spec emax (e + 1)) as [? | Hemax]; [discriminate | ].
    intros [= <-]. simpl. rewrite K53.
    split; [lia | ]. split; [lia | ]. intros _.
    split; [lia | ]. split; [lia | ]. split; [ | lia].
    destruct Hsucc as [(_ & -> & ->) | (_ & HN2 & ->)]; nia.
  - destruct (Z.eqb_spec m 0) as [Hz | Hz].
    + intros [= <-]. simpl. split; [lia | ]. split; [ | lia]. intros _.
      split; [reflexivity | ].
      assert (e = emin) as <- by (destruct (Z.eq_dec e emin); [done | lia]).
      rewrite Hz in Hclose. lia.
    + destruct (Z.ltb_spec emax e) as [? | Hemax]; [discriminate | ].
      intros [= <-]. simpl. split; [lia | ]. split; [lia | ]. intros _.
      repeat split; try lia; exact Hm52.
Qed.

(** [round_nearest] returns a value when the quotient is below [2^1023]. *)
Lemma ilog2_ratio_le n d K :
  0 < n -> 0 < d -> 0 <= K -> n < d * 2 ^ (K + 1) -> ilog2_ratio n d <= K.
Proof.
  intros Hn Hd HK Hlt.
  pose proof (ilog2_ratio_lower n d Hn Hd) as Hlow.
  set (l := ilog2_ratio n d) in *.
  destruct (Z_le_gt_dec l K) as [ | Hgt]; [done | exfalso].
  unfold scaled_num, scaled_den in Hlow.
  rewrite (Z.max_r 0 l), (Z.max_l 0 (- l)) in Hlow by lia.
  assert (2 ^ (K + 1) <= 2 ^ l) by (apply Z.pow_le_mono_r; lia).
  nia.
Qed.

Lemma round_nearest_some n d K :
  0 <= n -> 0 < d -> 0 <= K <= 1022 -> n < d * 2 ^ (K + 1) ->
  exists x, round_nearest n d = Some x.
Proof.
  intros Hn Hd HK Hlt. unfold round_nearest.
  destruct (Z.eqb_spec n 0) as [ | Hn0]; [eauto | ].
  pose proof (ilog2_ratio_le n d K ltac:(lia) Hd ltac:(lia) Hlt) as Hl.
  cbv zeta. unfold emin, emax.
  repeat match goal with
         | |- context [if Z.eqb ?a ?b then _ else _] =>
             destruct (Z.eqb_spec a b)
         | |- context [if Z.ltb ?a ?b then _ else _] =>
             destruct (Z.ltb_spec a b)
         end; eauto; lia.
Qed.


Lemma round_nearest_zero d : round_nearest 0 d = Some (B64 0 0).
Proof. reflexivity. Qed.

Lemma nearest_nonneg n d :
  0 <= n -> 0 < d -> nearest n d = round_nearest n d.
Proof.
  intros Hn Hd. unfold nearest.
  rewrite (Z.abs_eq n), (Z.abs_eq d) by lia.
  destruct (Z.eq_dec n 0) as [-> | Hn0]; [reflexivity | ].
  destruct (round_nearest n d) as [[m e] | ]; [ | reflexivity].
  rewrite (Z.sgn_pos n), (Z.sgn_pos d) by lia. simpl. do 2 f_equal. lia.
Qed.

(** Below [2^44] the hundredths that [round(n / d, 2)] keeps are a nearest
    integer to the exact [100 * n / d]: the two roundings to binary64 do not
    carry the quotient across a rounding boundary. *)
Lemma hundredths_close n d x :
  0 <= n < 2 ^ 44 -> 0 < d -> round_nearest n d = Some x ->
  0 <= hundredths x /\ 2 * Z.abs (hundredths x * d - 100 * n) <= d.
Proof.
  intros [Hn0 Hn] Hd Hx.
  destruct (Z.eq_dec n 0) as [-> | Hnz].
  { rewrite round_nearest_zero in Hx. injection Hx as <-.
    unfold hundredths. simpl. lia. }
  pose proof (round_nearest_spec n d x ltac:(lia) Hd Hx)
    as (Hm & Hzero & Hnonzero).
  destruct (Z.eq_dec (mant x) 0) as [Hmz | Hmz].
  { destruct (Hzero Hmz) as [-> Hsmall].
    unfold scaled_num, scaled_den, emin in Hsmall.
    change (Z.max 0 (- (-1074))) with 1074 in Hsmall.
    change (2 ^ Z.max 0 (-1074)) with 1 in Hsmall.
    assert (2 ^ 8 <= 2 ^ 1074) as HP by (apply Z.pow_le_mono_r; lia).
    change (2 ^ 8) with 256 in HP.
    set (P := 2 ^ 1074) in *. unfold hundredths. simpl.
    clear Hzero Hnonzero Hm Hmz Hx. nia. }
  destruct (Hnonzero Hmz) as (He & Hel & Hclose & Hnormal).
  assert (2 ^ 44 = 17592186044416) as K44 by reflexivity.
  assert (2 ^ 52 = 4503599627370496) as K52 by reflexivity.
  assert (2 ^ 53 = 9007199254740992) as K53 by reflexivity.
  assert (ilog2_ratio n d <= 43) as Hl.
  { apply ilog2_ratio_le; [lia | lia | lia | ].
    change (43 + 1) with 44. nia. }
  assert (expo x < 0) as Hneg by (unfold emin in *; lia).
  unfold scaled_num, scaled_den in Hclose.
  rewrite (Z.max_l 0 (expo x)), (Z.max_r 0 (- expo x)) in Hclose by lia.
  change (2 ^ 0) with 1 in Hclose. rewrite Z.mul_1_r in Hclose.
  unfold hundredths. destruct (Z.leb_spec 0 (expo x)) as [ | _]; [lia | ].
  assert (0 < 2 ^ (- expo x)) as HP by (apply Z.pow_pos_nonneg; lia).
  pose proof (rne_div_close (100 * mant x) (2 ^ (- expo x)) HP) as Hk.
  pose proof (rne_div_nonneg (100 * mant x) (2 ^ (- expo x)) ltac:(lia) HP)
    as Hk0.
  split; [exact Hk0 | ].
  set (k := rne_div (100 * mant x) (2 ^ (- expo x))) in *.
  destruct (Z.eq_dec (expo x) emin) as [Hsub | Hnorm].
  - (* at the smallest exponent the hundredths are zero *)
    assert (2 ^ 64 <= 2 ^ (- expo x)) as HP64.
    { apply Z.pow_le_mono_r; unfold emin in *; lia. }
    change (2 ^ 64) with 18446744073709551616 in HP64.
    set (P := 2 ^ (- expo x)) in *. set (m := mant x) in *.
    assert (k = 0) as -> by nia.
    assert (n * 18446744073709551616 <= n * P) as HnP
      by (apply Z.mul_le_mono_nonneg_l; lia).
    assert (m * d <= 2 ^ 53 * d) as Hmd
      by (apply Z.mul_le_mono_nonneg_r; lia).
    rewrite K53 in Hmd.
    set (md := m * d) in *. set (nP := n * P) in *. lia.
  - assert (2 ^ 52 <= mant x) as Hm52 by (apply Hnormal; lia).
    set (P := 2 ^ (- expo x)) in *. set (m := mant x) in *.
    destruct (Z_le_gt_dec (2 * Z.abs (k * d - 100 * n)) d) as [ | Hbad];
      [done | exfalso].
    assert (P * (k * d - 100 * n) = d * (k * P - 100 * m) + 100 * (m * d - n * P))
      as Heq by ring.
    set (u := k * P - 100 * m) in *. set (v := m * d - n * P) in *.
    set (W := k * d - 100 * n) in *.
    assert (2 * Z.abs (d * u) <= d * P) as Hdu.
    { rewrite Z.abs_mul, (Z.abs_eq d) by lia.
      replace (2 * (d * Z.abs u)) with (d * (2 * Z.abs u)) by ring.
      apply Z.mul_le_mono_nonneg_l; lia. }
    assert (P * (d + 1) <= 2 * Z.abs (P * W)) as HPW.
    { rewrite Z.abs_mul, (Z.abs_eq P) by lia.
      replace (2 * (P * Z.abs W)) with (P * (2 * Z.abs W)) by ring.
      apply Z.mul_le_mono_nonneg_l; lia. }
    assert (P <= 100 * d) as HPd by lia.
    assert (2 ^ 52 * d <= m * d) as Hmd
      by (apply Z.mul_le_mono_nonneg_r; lia).
    assert (n * P <= n * (100 * d)) as Hnp
      by (apply Z.mul_le_mono_nonneg_l; lia).
    assert ((2 ^ 53 - 1) * d <= 200 * n * d) as Hfin.
    { rewrite K52 in Hmd. rewrite K53. unfold v in Hclose.
      set (md := m * d) in *. set (nP := n * P) in *. lia. }
    assert (2 ^ 53 - 1 <= 200 * n)
      by (apply (Z.mul_le_mono_pos_r _ _ d); lia).
    lia.
Qed.

End PyFloatFacts.

(** ** Statistics *)

Module StatsFacts.
Import PyFloat PyFloatFacts Stats.

Lemma fold_left_add l a : fold_left Z.add l a = a + sum_of l.
Proof.
  revert a. induction l as [ | x l IH]; intros a; simpl; [lia | ].
  rewrite IH. lia.
Qed.

Lemma py_sum_sum_of l : py_sum l = sum_of l.
Proof. unfold py_sum. rewrite fold_left_add. lia. Qed.

Lemma sum_of_perm l l' : l ≡ₚ l' -> sum_of l = sum_of l'.
Proof. induction 1; simpl in *; lia. Qed.

Lemma sum_of_bounds l lo hi :
  Forall (fun x => lo <= x <= hi) l ->
  lo * Z.of_nat (length l) <= sum_of l <= hi * Z.of_nat (length l).
Proof. induction 1; simpl length; simpl sum_of; lia. Qed.

Lemma fold_left_max l x :
  is_max (fold_left Z.max l x) (x :: l).
Proof.
  revert x. induction l as [ | y l IH]; intros x; simpl.
  - split; [left | ]. intros z ->%list_elem_of_singleton. lia.
  - destruct (IH (Z.max x y)) as [Hin Hub]. split.
    + apply elem_of_cons in Hin as [Heq | Hin].
      * rewrite Heq. destruct (Z.max_spec x y) as [[_ ->] | [_ ->]];
          [right; left | left].
      * do 2 right. exact Hin.
    + intros z Hz.
      assert (Z.max x y <= fold_left Z.max l (Z.max x y)) by (apply Hub; left).
      apply elem_of_cons in Hz as [-> | Hz]; [lia | ].
      apply elem_of_cons in Hz as [-> | Hz]; [lia | ].
      apply Hub. right. exact Hz.
Qed.

Lemma py_max_spec l : l <> [] -> exists b, py_max l = Ok b /\ is_max b l.
Proof.
  destruct l as [ | x l]; [done | intros _].
  exists (fold_left Z.max l x). split; [reflexivity | apply fold_left_max].
Qed.

Lemma is_max_unique b b' l : is_max b l -> is_max b' l -> b = b'.
Proof. intros [Hin Hub] [Hin' Hub']. apply Hub' in Hin. apply Hub in Hin'. lia. Qed.

Lemma is_max_perm b l l' : l ≡ₚ l' -> is_max b l -> is_max b l'.
Proof.
  intros Hp [Hin Hub]. split.
  - by rewrite <- Hp.
  - intros y Hy. apply Hub. by rewrite Hp.
Qed.

Lemma py_max_perm l l' : l ≡ₚ l' -> py_max l = py_max l'.
Proof.
  intros Hp. destruct l as [ | x l].
  { apply Permutation_nil_l in Hp. by subst. }
  destruct l' as [ | x' l'].
  { apply Permutation_nil_r in Hp. done. }
  simpl. f_equal.
  eapply is_max_unique; [apply fold_left_max | ].
  eapply is_max_perm; [symmetry; exact Hp | apply fold_left_max].
Qed.

Lemma compute_stats_nonempty_eq rs :
  rs <> [] -> compute_stats rs = stats_body rs.
Proof. destruct rs; [done | reflexivity]. Qed.

(** Below [2^44] an average is the quotient rounded to two decimals. *)
Lemma average_rounded total count :
  0 <= total < 2 ^ 44 -> 0 < count ->
  exists x, average total count = Ok x /\ rounded2 x total count.
Proof.
  intros Ht Hc. unfold average, truediv.
  destruct (Z.eqb_spec count 0) as [ | _]; [lia | ].
  rewrite nearest_nonneg by lia.
  assert (2 ^ 44 = 17592186044416) as K44 by reflexivity.
  destruct (round_nearest_some total count 43) as [q Hq]; [lia | lia | lia | | ].
  { change (43 + 1) with 44. nia. }
  rewrite Hq. simpl.
  destruct (hundredths_close total count q Ht Hc Hq) as [Hk0 Hk].
  unfold round2. rewrite nearest_nonneg by lia.
  set (k := hundredths q) in *.
  assert (k * count <= 100 * total + count) as Hkc by lia.
  assert ((k - 1) * 1 <= (k - 1) * count \/ k = 0) as Hk1.
  { destruct (Z.eq_dec k 0); [by right | left].
    apply Z.mul_le_mono_nonneg_l; lia. }
  destruct (round_nearest_some k 100 51) as [y Hy]; [lia | lia | lia | | ].
  { change (2 ^ (51 + 1)) with 4503599627370496. lia. }
  rewrite Hy. simpl. eexists. split; [reflexivity | ].
  exists k, y. rewrite nearest_nonneg by lia. done.
Qed.


(** Without a bound on the totals: the hundredths kept by [round] stay far
    below the overflow threshold. *)
Lemma hundredths_bound n d x :
  0 <= n -> 0 < d -> n < d * 2 ^ 63 -> round_nearest n d = Some x ->
  0 <= hundredths x < 100 * 2 ^ 64.
Proof.
  intros Hn Hd Hlt Hx.
  destruct (Z.eq_dec n 0) as [-> | Hnz].
  { rewrite round_nearest_zero in Hx. injection Hx as <-. by vm_compute. }
  pose proof (round_nearest_spec n d x ltac:(lia) Hd Hx)
    as (Hm & Hzero & Hnonzero).
  destruct (Z.eq_dec (mant x) 0) as [Hmz | Hmz].
  { destruct (Hzero Hmz) as [-> _]. by vm_compute. }
  destruct (Hnonzero Hmz) as (He & Hel & _ & _).
  pose proof (ilog2_ratio_le n d 62 ltac:(lia) Hd ltac:(lia) Hlt) as Hl.
  assert (expo x <= 11) as He11 by (unfold emin in *; lia).
  assert (2 ^ 53 = 9007199254740992) as K53 by reflexivity.
  assert (2 ^ 64 = 18446744073709551616) as K64 by reflexivity.
  unfold hundredths. destruct (Z.leb_spec 0 (expo x)) as [Hpos | Hneg].
  - assert (0 < 2 ^ expo x <= 2 ^ 11) as HP.
    { split; [apply Z.pow_pos_nonneg; lia | apply Z.pow_le_mono_r; lia]. }
    change (2 ^ 11) with 2048 in HP.
    set (P := 2 ^ expo x) in *. set (m := mant x) in *.
    assert (m * P <= 9007199254740991 * 2048)
      by (apply Z.mul_le_mono_nonneg; lia).
    assert (0 <= m * P) by (apply Z.mul_nonneg_nonneg; lia).
    replace (100 * m * P) with (100 * (m * P)) by ring.
    rewrite K64. lia.
  - assert (2 ^ 1 <= 2 ^ (- expo x)) as HP
      by (apply Z.pow_le_mono_r; lia).
    change (2 ^ 1) with 2 in HP.
    pose proof (rne_div_close (100 * mant x) (2 ^ (- expo x)) ltac:(lia)) as Hk.
    pose proof (rne_div_nonneg (100 * mant x) (2 ^ (- expo x))
                  ltac:(lia) ltac:(lia)) as Hk0.
    set (k := rne_div (100 * mant x) (2 ^ (- expo x))) in *.
    set (P := 2 ^ (- expo x)) in *. set (m := mant x) in *.
    split; [exact Hk0 | ].
    destruct (Z.eq_dec k 0) as [-> | Hkz]; [by vm_compute | ].
    assert ((k - 1) * 2 <= (k - 1) * P) as Hk1
      by (apply Z.mul_le_mono_nonneg_l; lia).
    rewrite Z.mul_sub_distr_r in Hk1.
    rewrite K64. set (kP := k * P) in *. lia.
Qed.

(** An average of stored counters raises nothing. *)
Lemma average_returns total count :
  0 <= total -> 0 < count -> total < count * 2 ^ 63 ->
  exists x, average total count = Ok x.
Proof.
  intros Ht Hc Hlt. unfold average, truediv.
  destruct (Z.eqb_spec count 0) as [ | _]; [lia | ].
  rewrite nearest_nonneg by lia.
  destruct (round_nearest_some total count 62) as [q Hq]; [lia | lia | lia | | ].
  { change (62 + 1) with 63. lia. }
  rewrite Hq. simpl.
  destruct (hundredths_bound total count q Ht Hc Hlt Hq) as [Hk0 Hk].
  unfold round2. rewrite nearest_nonneg by lia.
  destruct (round_nearest_some (hundredths q) 100 64) as [y Hy];
    [lia | lia | lia | | ].
  { change (2 ^ (64 + 1)) with (2 * 2 ^ 64). lia. }
  rewrite Hy. simpl. eauto.
Qed.


Lemma sum_of_nonneg l : Forall (fun x => 0 <= x) l -> 0 <= sum_of l.
Proof. induction 1; simpl; lia. Qed.

Lemma columns_nonneg rs :
  Forall nonneg_result rs ->
  0 <= sum_of (scores rs) /\ 0 <= sum_of (move_counts rs)
  /\ 0 <= sum_of (times rs).
Proof.
  intros Hrs. unfold scores, move_counts, times.
  repeat split; apply sum_of_nonneg, Forall_map;
    (eapply Forall_impl; [exact Hrs | ]); intros r (? & ? & ?); done.
Qed.

Lemma columns_stored rs :
  rs <> [] -> Forall stored_result rs ->
  let n := Z.of_nat (length rs) in
  0 <= sum_of (scores rs) < n * 2 ^ 63
  /\ 0 <= sum_of (move_counts rs) < n * 2 ^ 63
  /\ 0 <= sum_of (times rs) < n * 2 ^ 63.
Proof.
  intros Hne Hrs n.
  assert (0 < n) by (unfold n; destruct rs; [done | simpl; lia]).
  assert (2 ^ 63 = 9223372036854775808) as K63 by reflexivity.
  assert (forall f : GameResult.t -> Z,
             Forall (fun r => 0 <= f r < 2 ^ 63) rs ->
             0 <= sum_of (map f rs) < n * 2 ^ 63) as Hcol.
  { intros f Hf.
    pose proof (sum_of_bounds (map f rs) 0 (2 ^ 63 - 1)) as Hb.
    rewrite length_map in Hb. fold n in Hb.
    rewrite K63 in *.
    assert (Forall (fun x => 0 <= x <= 9223372036854775808 - 1) (map f rs))
      as Hf'.
    { apply Forall_map. eapply Forall_impl; [exact Hf | ]. simpl. lia. }
    specialize (Hb Hf'). lia. }
  unfold scores, move_counts, times.
  repeat split; apply Hcol;
    (eapply Forall_impl; [exact Hrs | ]); intros r (? & ? & ?); simpl; lia.
Qed.

(** A tie of the exact quotient is decided by the binary64 quotient, which
    is not a tie: 3/200 gives 0.01 and 5/200 gives 0.03, where rounding
    half away from zero gives 0.02 and 0.03, and rounding half to even 0.02
    and 0.02. *)
Example average_ties :
  exists x y,
    nearest 1 100 = Some x /\ average 3 200 = Ok (PyFloat x)
    /\ nearest 3 100 = Some y /\ average 5 200 = Ok (PyFloat y).
Proof. do 2 eexists. repeat split; vm_compute; reflexivity. Qed.

(** ** The claims on the statistics *)

(** C1, as the specification states it, fails on three games whose scores
    are near [2^45]: the exact average is 35184372088832.33..., and
    [round(total / 3, 2)] is 35184372088832.34, because the binary64
    quotient 35184372088832.3359375 sits on the other side of the rounding
    boundary. *)
Lemma compute_stats_large_counterexample :
  ~ (forall rs, rs <> [] ->
       exists st, compute_stats rs = Ok st /\ stats_as_specified rs st).
Proof.
  intros Hclaim.
  destruct (Hclaim large_results) as (st & Hst & _ & Havg & _); [done | ].
  vm_compute in Hst. injection Hst as <-.
  destruct Havg as (k & y & Hk & Hy & Heq).
  change (Z.of_nat (length large_results)) with 3 in Hk.
  change (sum_of (scores large_results)) with 105553116266497 in Hk.
  assert (k = 3518437208883233) as -> by lia.
  vm_compute in Hy. injection Hy as <-. discriminate Heq.
Qed.

(** C1, amended: for every non-empty sequence of game results with
    non-negative counters whose three totals are below [2^44], the
    statistics are returned with [total_games] the count, each average the
    float nearest to a two-decimal value that is nearest to the exact
    quotient, [best_score] the greatest score and [total_time_played] the
    integer sum of the times; on the two-result example they are 2, 150.0,
    15.0, 50.0, 200 and 100. *)
Theorem compute_stats_nonempty :
  (forall rs,
      rs <> [] -> Forall nonneg_result rs ->
      sum_of (scores rs) < 2 ^ 44 ->
      sum_of (move_counts rs) < 2 ^ 44 ->
      sum_of (times rs) < 2 ^ 44 ->
      exists st, compute_stats rs = Ok st /\ stats_as_specified rs st)
  /\ (exists a_score a_moves a_time,
        of_int 150 = Some a_score
        /\ of_int 15 = Some a_moves
        /\ of_int 50 = Some a_time
        /\ compute_stats example_results
           = Ok {| total_games := PyInt 2;
                   average_score := PyFloat a_score;
                   average_moves := PyFloat a_moves;
                   average_time := PyFloat a_time;
                   best_score := PyInt 200;
                   total_time_played := PyInt 100 |}).
Proof.
  split.
  - intros rs Hne Hrs Hs Hm Ht.
    destruct (columns_nonneg rs Hrs) as (Hs0 & Hm0 & Ht0).
    assert (0 < Z.of_nat (length rs)) as Hlen
      by (destruct rs; [done | simpl; lia]).
    rewrite compute_stats_nonempty_eq by done. unfold stats_body, py_len.
    destruct (py_max_spec (scores rs)) as (b & -> & Hb).
    { destruct rs; done. }
    rewrite !py_sum_sum_of.
    destruct (average_rounded (sum_of (scores rs)) (Z.of_nat (length rs)))
      as (xs & -> & Hxs); [lia | lia | ].
    destruct (average_rounded (sum_of (move_counts rs)) (Z.of_nat (length rs)))
      as (xm & -> & Hxm); [lia | lia | ].
    destruct (average_rounded (sum_of (times rs)) (Z.of_nat (length rs)))
      as (xt & -> & Hxt); [lia | lia | ].
    simpl. eexists. split; [reflexivity | ].
    unfold stats_as_specified. simpl. eauto 10.
  - do 3 eexists. repeat split; vm_compute; reflexivity.
Qed.

Lemma compute_stats_nonempty_witness :
  exists st,
    compute_stats example_results = Ok st
    /\ stats_as_specified example_results st.
Proof.
  apply (proj1 compute_stats_nonempty).
  - discriminate.
  - repeat constructor; simpl; lia.
  - vm_compute. reflexivity.
  - vm_compute. reflexivity.
  - vm_compute. reflexivity.
Defined.

(** C5: on the empty sequence the statistics are returned, all six equal to
    the integer 0. *)
Theorem compute_stats_empty :
  compute_stats []
  = Ok {| total_games := PyInt 0;
          average_score := PyInt 0;
          average_moves := PyInt 0;
          average_time := PyInt 0;
          best_score := PyInt 0;
          total_time_played := PyInt 0 |}.
Proof. reflexivity. Qed.

(** C6: the statistics do not depend on the order of the results, and on
    stored results (non-negative 64-bit counters) they are returned without
    an exception. *)
Theorem compute_stats_order_irrelevant :
  (forall rs rs', rs ≡ₚ rs' -> compute_stats rs = compute_stats rs')
  /\ (forall rs, Forall stored_result rs -> exists st, compute_stats rs = Ok st).
Proof.
  split.
  - intros rs rs' Hp.
    destruct (decide (rs = [])) as [-> | Hne].
    { apply Permutation_nil_l in Hp. by subst. }
    assert (rs' <> []) as Hne'.
    { intros ->. apply Permutation_nil_r in Hp. done. }
    rewrite !compute_stats_nonempty_eq by done. unfold stats_body, py_len.
    rewrite !py_sum_sum_of.
    rewrite (py_max_perm (scores rs) (scores rs'))
      by (apply Permutation_map, Hp).
    rewrite (sum_of_perm (scores rs) (scores rs'))
      by (apply Permutation_map, Hp).
    rewrite (sum_of_perm (move_counts rs) (move_counts rs'))
      by (apply Permutation_map, Hp).
    rewrite (sum_of_perm (times rs) (times rs'))
      by (apply Permutation_map, Hp).
    rewrite (Permutation_length Hp). reflexivity.
  - intros rs Hrs.
    destruct (decide (rs = [])) as [-> | Hne]; [eexists; reflexivity | ].
    destruct (columns_stored rs Hne Hrs) as (Hs & Hm & Ht).
    assert (0 < Z.of_nat (length rs)) as Hlen
      by (destruct rs; [done | simpl; lia]).
    rewrite compute_stats_nonempty_eq by done. unfold stats_body, py_len.
    destruct (py_max_spec (scores rs)) as (b & -> & _).
    { destruct rs; done. }
    rewrite !py_sum_sum_of.
    destruct (average_returns (sum_of (scores rs)) (Z.of_nat (length rs)))
      as (xs & ->); [lia | lia | lia | ].
    destruct (average_returns (sum_of (move_counts rs)) (Z.of_nat (length rs)))
      as (xm & ->); [lia | lia | lia | ].
    destruct (average_returns (sum_of (times rs)) (Z.of_nat (length rs)))
      as (xt & ->); [lia | lia | lia | ].
    simpl. eexists. reflexivity.
Qed.

Lemma compute_stats_order_irrelevant_witness :
  compute_stats (rev example_results) = compute_stats example_results
  /\ exists st, compute_stats example_results = Ok st.
Proof.
  split.
  - apply (proj1 compute_stats_order_irrelevant).
    simpl. apply perm_swap.
  - apply (proj2 compute_stats_order_irrelevant).
    repeat constructor; simpl; lia.
Defined.

End StatsFacts.

(** ** Passwords *)

Module PasswordFacts.
Import AuthService.

Lemma partition_app sep a b :
  PyStr.contains sep a = false ->
  PyStr.partition sep (a +:+ String sep b) = Some (a, b).
Proof.
  induction a as [ | c a IH]; simpl; intros Ha.
  - by rewrite Ascii.eqb_refl.
  - apply orb_false_iff in Ha as [Hc Ha].
    rewrite Hc, IH by done. reflexivity.
Qed.

Lemma partition_none sep s :
  PyStr.contains sep s = false -> PyStr.partition sep s = None.
Proof.
  induction s as [ | c s IH]; simpl; intros Hs; [done | ].
  apply orb_false_iff in Hs as [Hc Hs].
  rewrite Hc, IH by done. reflexivity.
Qed.

Lemma split2_join sep a b c :
  PyStr.contains sep a = false -> PyStr.contains sep b = false ->
  PyStr.split2 sep (a +:+ String sep (b +:+ String sep c)) = Some (a, b, c).
Proof.
  intros Ha Hb. unfold PyStr.split2.
  rewrite partition_app by done. rewrite partition_app by done. reflexivity.
Qed.

Lemma contains_string_of_list c l :
  Forall (fun x => x <> c) l ->
  PyStr.contains c (string_of_list_ascii l) = false.
Proof.
  induction 1 as [ | x l Hx _ IH]; simpl; [done | ].
  rewrite IH, orb_false_r. by apply Ascii.eqb_neq.
Qed.

(** No salt character is the separator of the stored format. *)
Lemma choice_not_dollar r : Werkzeug.choice r <> "$"%char.
Proof.
  unfold Werkzeug.choice.
  set (chars := list_ascii_of_string Werkzeug.SALT_CHARS).
  assert (forallb (fun x => negb (Ascii.eqb x "$")) chars = true) as Hall
    by reflexivity.
  destruct (nth_in_or_default (r mod 62) chars "a"%char) as [Hin | ->];
    [ | discriminate].
  rewrite forallb_forall in Hall. specialize (Hall _ Hin).
  apply negb_true_iff in Hall. by apply Ascii.eqb_neq.
Qed.

Lemma gen_salt_16 rnd :
  exists salt,
    Werkzeug.gen_salt rnd 16 = Ok salt /\ PyStr.contains "$" salt = false.
Proof.
  unfold Werkzeug.gen_salt. rewrite decide_False by done.
  eexists. split; [reflexivity | ].
  apply contains_string_of_list, Forall_map, Forall_forall.
  intros i _. apply choice_not_dollar.
Qed.

Section WithHashlib.
Context {hashlib : Hashlib}.

Lemma hash_internal_default salt password h :
  scrypt password salt 32768 8 1 34603008 = Some h ->
  Werkzeug._hash_internal "scrypt" salt password
  = Ok (h, "scrypt:32768:8:1"%string).
Proof.
  intros Hh. unfold Werkzeug._hash_internal.
  change (PyStr.split ":" "scrypt") with ["scrypt"%string].
  change (String.eqb "scrypt" "scrypt") with true. cbv iota.
  simpl mbind. change (2 ^ 15) with 32768.
  change (132 * 32768 * 8 * 1) with 34603008. rewrite Hh. reflexivity.
Qed.

Lemma hash_internal_spelled_out salt password h :
  scrypt password salt 32768 8 1 34603008 = Some h ->
  Werkzeug._hash_internal "scrypt:32768:8:1" salt password
  = Ok (h, "scrypt:32768:8:1"%string).
Proof.
  intros Hh. unfold Werkzeug._hash_internal.
  change (PyStr.split ":" "scrypt:32768:8:1")
    with ["scrypt"%string; "32768"%string; "8"%string; "1"%string].
  change (String.eqb "scrypt" "scrypt") with true. cbv iota.
  change (PyStr.int "32768") with (Some 32768).
  change (PyStr.int "8") with (Some 8).
  change (PyStr.int "1") with (Some 1).
  simpl mbind.
  change (132 * 32768 * 8 * 1) with 34603008. rewrite Hh. reflexivity.
Qed.

(** What [hash_password] stores: the method with its parameters, the salt
    and the digest, separated by [$]. *)
Lemma hash_password_stored rnd password :
  Werkzeug.scrypt_accepts_defaults ->
  exists salt h,
    Werkzeug.gen_salt rnd 16 = Ok salt
    /\ PyStr.contains "$" salt = false
    /\ scrypt password salt 32768 8 1 34603008 = Some h
    /\ hash_password rnd password
       = Ok ("scrypt:32768:8:1" +:+ String "$" (salt +:+ String "$" h)).
Proof.
  intros Hscrypt.
  destruct (gen_salt_16 rnd) as (salt & Hsalt & Hclean).
  destruct (Hscrypt password salt) as [h Hh].
  exists salt, h. repeat split; try done.
  unfold hash_password, Werkzeug.generate_password_hash.
  rewrite Hsalt. simpl mbind.
  rewrite (hash_internal_default _ _ _ Hh). reflexivity.
Qed.

Lemma verify_stored salt password h :
  PyStr.contains "$" salt = false ->
  scrypt password salt 32768 8 1 34603008 = Some h ->
  verify_password ("scrypt:32768:8:1" +:+ String "$" (salt +:+ String "$" h))
    password
  = Ok true.
Proof.
  intros Hclean Hh. unfold verify_password, Werkzeug.check_password_hash.
  rewrite split2_join by done.
  rewrite (hash_internal_spelled_out _ _ _ Hh). simpl.
  by rewrite String.eqb_refl.
Qed.

Lemma stored_differ salt1 salt2 h1 h2 :
  PyStr.contains "$" salt1 = false -> PyStr.contains "$" salt2 = false ->
  salt1 <> salt2 ->
  "scrypt:32768:8:1" +:+ String "$" (salt1 +:+ String "$" h1)
  <> "scrypt:32768:8:1" +:+ String "$" (salt2 +:+ String "$" h2).
Proof.
  intros H1 H2 Hne Heq. apply (f_equal (PyStr.split2 "$")) in Heq.
  rewrite !split2_join in Heq by done. congruence.
Qed.

(** C4: a password verifies against the hash stored for it, and two calls
    of [hash_password] on the same password that draw different salts store
    different hashes, both of which verify. *)
Theorem hash_password_round_trip :
  Werkzeug.scrypt_accepts_defaults ->
  forall password rnd1 rnd2,
  exists stored1 stored2,
    hash_password rnd1 password = Ok stored1
    /\ hash_password rnd2 password = Ok stored2
    /\ verify_password stored1 password = Ok true
    /\ verify_password stored2 password = Ok true
    /\ (Werkzeug.gen_salt rnd1 16 <> Werkzeug.gen_salt rnd2 16 ->
        stored1 <> stored2).
Proof.
  intros Hscrypt password rnd1 rnd2.
  destruct (hash_password_stored rnd1 password Hscrypt)
    as (salt1 & h1 & Hsalt1 & Hclean1 & Hh1 & ->).
  destruct (hash_password_stored rnd2 password Hscrypt)
    as (salt2 & h2 & Hsalt2 & Hclean2 & Hh2 & ->).
  do 2 eexists. split; [reflexivity | ]. split; [reflexivity | ].
  split; [by apply verify_stored | ]. split; [by apply verify_stored | ].
  intros Hne. apply stored_differ; try done. congruence.
Qed.

(** C7, amended: a stored hash with fewer than three fields between [$] is
    answered with [False]; one with three fields whose first names no
    method makes [verify_password] raise [ValueError]. *)
Theorem verify_password_malformed stored password :
  (PyStr.split2 "$" stored = None -> verify_password stored password = Ok false)
  /\ (forall method salt h,
        PyStr.split2 "$" stored = Some (method, salt, h) ->
        Werkzeug.method_name method <> "scrypt"%string ->
        Werkzeug.method_name method <> "pbkdf2"%string ->
        verify_password stored password
        = Raise (ValueError ("Invalid hash method '"
                             +:+ Werkzeug.method_name method +:+ "'."))).
Proof.
  unfold verify_password, Werkzeug.check_password_hash. split.
  - intros ->. reflexivity.
  - intros method salt h -> Hs Hp.
    unfold Werkzeug._hash_internal, Werkzeug.method_name in *.
    destruct (PyStr.split ":" method) as [ | name args]; [reflexivity | ].
    apply String.eqb_neq in Hs, Hp. rewrite Hs, Hp. reflexivity.
Qed.

End WithHashlib.

Lemma hash_password_round_trip_witness :
  exists stored1 stored2,
    hash_password (hashlib := Sample.hashlib) (Sample.constant_draws 0) "hunter2"
    = Ok stored1
    /\ hash_password (hashlib := Sample.hashlib) (Sample.constant_draws 1) "hunter2"
       = Ok stored2
    /\ verify_password (hashlib := Sample.hashlib) stored1 "hunter2" = Ok true
    /\ verify_password (hashlib := Sample.hashlib) stored2 "hunter2" = Ok true
    /\ stored1 <> stored2.
Proof.
  destruct (hash_password_round_trip (hashlib := Sample.hashlib)
              ltac:(intros password salt; eexists; reflexivity)
              "hunter2" (Sample.constant_draws 0) (Sample.constant_draws 1))
    as (s1 & s2 & H1 & H2 & V1 & V2 & Hne).
  exists s1, s2. repeat split; try done.
  apply Hne. vm_compute. discriminate.
Defined.

(** C7, as the specification states it, fails on a stored hash whose first
    field names no method: [check_password_hash] raises [ValueError]. *)
Lemma verify_password_malformed_counterexample :
  ~ (forall (hashlib : Hashlib) stored password,
        Werkzeug.malformed stored ->
        verify_password stored password = Ok false).
Proof.
  intros Hclaim.
  specialize (Hclaim Sample.hashlib "foo$bar$baz"%string "secret"%string).
  assert (Werkzeug.malformed "foo$bar$baz") as Hbad
    by (vm_compute; split; discriminate).
  specialize (Hclaim Hbad). vm_compute in Hclaim. discriminate Hclaim.
Qed.

Lemma verify_password_malformed_witness :
  verify_password (hashlib := Sample.hashlib) "not-a-hash" "secret" = Ok false
  /\ verify_password (hashlib := Sample.hashlib) "foo$bar$baz" "secret"
     = Raise (ValueError "Invalid hash method 'foo'.").
Proof.
  split.
  - apply (proj1 (verify_password_malformed "not-a-hash" "secret")).
    reflexivity.
  - apply (proj2 (verify_password_malformed "foo$bar$baz" "secret")
             "foo"%string "bar"%string "baz"%string).
    + reflexivity.
    + vm_compute. discriminate.
    + vm_compute. discriminate.
Defined.

End PasswordFacts.

(** ** Tokens *)

Module TokenFacts.
Import PyJWT AuthService.

Lemma seven_days : timedelta_days JWT_EXPIRATION_DAYS = 604800 * 1000000.
Proof. reflexivity. Qed.

Lemma timegm_plus_seven_days t :
  timegm (t + timedelta_days JWT_EXPIRATION_DAYS) = timegm t + 604800.
Proof.
  rewrite seven_days. unfold timegm, microseconds_per_second.
  apply Z.div_add. lia.
Qed.

Lemma seconds_timegm t : seconds (timegm t) <= t.
Proof.
  unfold seconds, timegm, microseconds_per_second.
  pose proof (Z.mul_div_le t 1000000 ltac:(lia)). lia.
Qed.

Lemma issued_lookup user_id exp iat :
  let p := issued_claims user_id exp iat in
  p !! "user_id" = Some user_id
  /\ p !! "exp" = Some (JInt exp)
  /\ p !! "iat" = Some (JInt iat)
  /\ p !! "nbf" = None
  /\ p !! "aud" = None.
Proof. unfold issued_claims. repeat split; by simplify_map_eq. Qed.

Section WithHmac.
Context {hmac : Hmac}.

(** The token that [generate_jwt] returns, from the two readings of the
    clock. *)
Lemma generate_jwt_spec secret user_id c :
  let t_exp := Clock.reading c (Clock.reads c) in
  let t_iat := Clock.reading c (S (Clock.reads c)) in
  let header := {| alg := Some "HS256"%string |} in
  let claims := issued_claims user_id (timegm t_exp + 604800) (timegm t_iat) in
  generate_jwt secret user_id c
  = (Ok (Compact header claims (hmac_sha256 secret header claims)),
     {| Clock.reading := Clock.reading c; Clock.reads := S (S (Clock.reads c)) |}).
Proof.
  unfold generate_jwt, Clock.utcnow, encode. simpl.
  rewrite decide_True.
  2: { repeat apply map_Forall_insert_2; simpl; try done. }
  rewrite !fmap_insert, fmap_empty. simpl.
  rewrite timegm_plus_seven_days. reflexivity.
Qed.

(** A token with a valid signature and the claims of an issued token, read
    between its issue and its expiry, decodes to its claims. *)
Lemma validate_issued user_id exp iat t :
  seconds iat <= t ->
  _validate_claims (issued_claims user_id exp iat) t
  = if seconds exp <=? t then Raise (InvalidTokenError ExpiredSignatureError)
    else Ok tt.
Proof.
  intros Hiat.
  destruct (issued_lookup user_id exp iat) as (_ & Hexp & Hi & Hnbf & Haud).
  unfold _validate_claims, _validate_iat, _validate_nbf, _validate_exp,
    _validate_aud.
  rewrite Hexp, Hi, Hnbf, Haud. simpl.
  destruct (Z.ltb_spec t (seconds iat)) as [ | _]; [lia | ]. simpl.
  destruct (seconds exp <=? t); reflexivity.
Qed.

Lemma signature_ok_signed secret header claims :
  signature_ok secret header claims (hmac_sha256 secret header claims) = true.
Proof. unfold signature_ok. apply String.eqb_refl. Qed.

(** [verify_jwt] in terms of [decode] at the time the clock gives. *)
Lemma verify_jwt_decode secret tok c :
  fst (verify_jwt secret tok c)
  = match decode tok secret (now c) with
    | Ok payload =>
        match payload !! "user_id" with
        | Some user_id => Ok user_id
        | None => Raise (KeyError "user_id")
        end
    | Raise (InvalidTokenError ExpiredSignatureError) =>
        Raise (Exception "Token expired")
    | Raise (InvalidTokenError _) => Raise (Exception "Invalid token")
    | Raise e => Raise e
    end.
Proof. reflexivity. Qed.

(** C2: a token verified with the clock as [generate_jwt] left it, on a
    clock that does not go back, under the same secret and before the
    expiry it encodes, gives back the user identifier it was issued for. *)
Theorem verify_generated_jwt secret user_id c :
  Clock.monotone c ->
  exists tok exp,
    fst (generate_jwt secret user_id c) = Ok tok
    /\ claim tok "exp" = Some (JInt exp)
    /\ (now (snd (generate_jwt secret user_id c)) < seconds exp ->
        fst (verify_jwt secret tok (snd (generate_jwt secret user_id c)))
        = Ok user_id).
Proof.
  intros Hmono.
  pose proof (generate_jwt_spec secret user_id c) as Hgen. cbv zeta in Hgen.
  rewrite Hgen. cbn [fst snd]. clear Hgen.
  set (t_exp := Clock.reading c (Clock.reads c)).
  set (t_iat := Clock.reading c (S (Clock.reads c))).
  set (c1 := Clock.mk (Clock.reading c) (S (S (Clock.reads c)))).
  destruct (issued_lookup user_id (timegm t_exp + 604800) (timegm t_iat))
    as (Huid & Hexp & _).
  do 2 eexists. split; [reflexivity | ]. split; [exact Hexp | ].
  intros Hbefore. rewrite verify_jwt_decode.
  cbn [decode alg]. change (String.eqb "HS256" "HS256") with true.
  rewrite signature_ok_signed. cbn [negb].
  rewrite validate_issued.
  2: { pose proof (seconds_timegm t_iat).
       pose proof (Hmono (S (Clock.reads c)) (S (S (Clock.reads c)))
                     ltac:(lia)).
       unfold now, c1. cbn [Clock.reading Clock.reads]. fold t_iat in H0. lia. }
  destruct (Z.leb_spec (seconds (timegm t_exp + 604800)) (now c1))
    as [ | _]; [lia | ].
  simpl. by rewrite Huid.
Qed.


(** What the token of [generate_jwt] encodes: the user identifier, the
    second of the second reading of the clock as issue time, and seven days
    after the second of the first reading as expiry. *)
Lemma generate_jwt_claims secret user_id c :
  exists tok,
    fst (generate_jwt secret user_id c) = Ok tok
    /\ claim tok "user_id" = Some user_id
    /\ claim tok "iat"
       = Some (JInt (timegm (Clock.reading c (S (Clock.reads c)))))
    /\ claim tok "exp"
       = Some (JInt (timegm (Clock.reading c (Clock.reads c)) + 604800)).
Proof.
  rewrite generate_jwt_spec. cbv zeta. simpl fst.
  eexists. split; [reflexivity | ]. simpl.
  match goal with
  | |- context [issued_claims ?u ?e ?i] =>
      destruct (issued_lookup u e i) as (-> & -> & -> & _)
  end.
  done.
Qed.

(** The expiry is seven days after the issue time when the two readings
    fall in the same second, and never later on a clock that does not go
    back. *)
Lemma generate_jwt_expiry secret user_id c :
  exists tok iat exp,
    fst (generate_jwt secret user_id c) = Ok tok
    /\ claim tok "iat" = Some (JInt iat)
    /\ claim tok "exp" = Some (JInt exp)
    /\ (timegm (Clock.reading c (Clock.reads c))
        = timegm (Clock.reading c (S (Clock.reads c))) ->
        exp = iat + 7 * 86400)
    /\ (Clock.monotone c -> exp <= iat + 7 * 86400).
Proof.
  destruct (generate_jwt_claims secret user_id c)
    as (tok & Htok & _ & Hiat & Hexp).
  exists tok. do 2 eexists.
  split; [exact Htok | ]. split; [exact Hiat | ]. split; [exact Hexp | ].
  split; [lia | ]. intros Hmono.
  pose proof (Hmono (Clock.reads c) (S (Clock.reads c)) ltac:(lia)) as Hle.
  apply (Z.div_le_mono _ _ microseconds_per_second) in Hle; [ | done].
  unfold timegm. lia.
Qed.

(** C8 on a clock whose two readings fall on the two sides of a second: the
    token encodes the user identifier and an issue time, but its expiry is
    the issue time plus seven days less one second. *)
Theorem generate_jwt_expiry_across_a_second secret user_id :
  exists tok iat exp,
    fst (generate_jwt secret user_id Sample.across_a_second) = Ok tok
    /\ claim tok "user_id" = Some user_id
    /\ claim tok "iat" = Some (JInt iat)
    /\ claim tok "exp" = Some (JInt exp)
    /\ exp = iat + 7 * 86400 - 1.
Proof.
  destruct (generate_jwt_claims secret user_id Sample.across_a_second)
    as (tok & Htok & Huid & Hiat & Hexp).
  exists tok, 1700000001, 1700604800.
  split; [exact Htok | ]. split; [exact Huid | ].
  split; [exact Hiat | ]. split; [exact Hexp | reflexivity].
Qed.

End WithHmac.

Lemma verify_generated_jwt_witness :
  exists tok exp,
    fst (generate_jwt (hmac := Sample.hmac) "k" (JInt 7)
           (Sample.ticking 1700000000000000 5)) = Ok tok
    /\ claim tok "exp" = Some (JInt exp)
    /\ fst (verify_jwt (hmac := Sample.hmac) "k" tok
              (snd (generate_jwt (hmac := Sample.hmac) "k" (JInt 7)
                      (Sample.ticking 1700000000000000 5))))
       = Ok (JInt 7).
Proof.
  destruct (verify_generated_jwt (hmac := Sample.hmac) "k" (JInt 7)
              (Sample.ticking 1700000000000000 5))
    as (tok & exp & Htok & Hexp & Hverify).
  - intros i j Hij. simpl. lia.
  - exists tok, exp.
    split; [exact Htok | ]. split; [exact Hexp | ].
    apply Hverify.
    vm_compute in Htok. injection Htok as <-.
    vm_compute in Hexp. injection Hexp as <-.
    vm_compute. reflexivity.
Defined.



End TokenFacts.

(** ** The user-creation endpoints *)

Module AppFacts.
Import App.


Lemma first_by_email_none users email :
  Db.first_by_email users email = None <-> email ∉ map User.email users.
Proof.
  unfold Db.first_by_email. induction users as [ | u users IH]; simpl.
  - split; [intros _; apply not_elem_of_nil | done].
  - destruct (String.eqb_spec (User.email u) email) as [Heq | Hne].
    + split; [done | ]. intros Hnot. exfalso. apply Hnot. rewrite Heq. left.
    + rewrite IH, not_elem_of_cons. split; [by split | by intros [_ ?]].
Qed.

Lemma first_by_username_none users username :
  Db.first_by_username users username = None
  <-> username ∉ map User.username users.
Proof.
  unfold Db.first_by_username. induction users as [ | u users IH]; simpl.
  - split; [intros _; apply not_elem_of_nil | done].
  - destruct (String.eqb_spec (User.username u) username) as [Heq | Hne].
    + split; [done | ]. intros Hnot. exfalso. apply Hnot. rewrite Heq. left.
    + rewrite IH, not_elem_of_cons. split; [by split | by intros [_ ?]].
Qed.

Lemma first_by_username_some users username u :
  Db.first_by_username users username = Some u ->
  u ∈ users /\ User.username u = username.
Proof.
  unfold Db.first_by_username. intros Hfind.
  apply List.find_some in Hfind as [Hin Heq].
  split; [by apply list_elem_of_In | by apply String.eqb_eq].
Qed.

Lemma first_by_email_app users row :
  is_Some (Db.first_by_email (users ++ [row]) (User.email row)).
Proof.
  destruct (Db.first_by_email (users ++ [row]) (User.email row)) eqn:Hfind;
    [eauto | ].
  apply first_by_email_none in Hfind. exfalso. apply Hfind.
  rewrite map_app. apply elem_of_app. right. simpl. left.
Qed.

Lemma NoDup_snoc {A} (l : list A) x : NoDup l -> x ∉ l -> NoDup (l ++ [x]).
Proof.
  intros Hl Hx. apply NoDup_app. split; [done | ]. split.
  - intros y Hy ->%list_elem_of_singleton. done.
  - apply NoDup_singleton.
Qed.

(** An insertion that succeeds appends one row with the username and the
    email of the object, both new to the table, and keeps usernames and
    emails unique. *)
Lemma insert_user_spec users obj now row table :
  Db.insert_user users obj now = Ok (row, table) ->
  table = users ++ [row]
  /\ Db.obj_username obj = Some (User.username row)
  /\ Db.obj_email obj = Some (User.email row)
  /\ (User.username row ∉ map User.username users)
  /\ (User.email row ∉ map User.email users)
  /\ (Db.unique_users users -> Db.unique_users table).
Proof.
  unfold Db.insert_user. intros Hins.
  destruct (Db.obj_username obj) as [username | ]; [ | done].
  destruct (Db.obj_email obj) as [email | ];
    [ | destruct (Db.obj_password_hash obj); done].
  destruct (Db.obj_password_hash obj) as [password_hash | ]; [ | done].
  destruct (Db.first_by_username users username) eqn:Hname; [done | ].
  destruct (Db.first_by_email users email) eqn:Hmail; [done | ].
  injection Hins as <- <-. simpl.
  apply first_by_username_none in Hname. apply first_by_email_none in Hmail.
  repeat split; try done; destruct H as [Hnames Hmails];
    rewrite map_app; by apply NoDup_snoc.
Qed.

(** A user without a password hash is refused by the table. *)
Lemma insert_user_without_hash users obj now :
  Db.obj_password_hash obj = None ->
  exists msg, Db.insert_user users obj now = Raise (IntegrityError msg).
Proof.
  unfold Db.insert_user. intros ->.
  destruct (Db.obj_username obj), (Db.obj_email obj); eauto.
Qed.

#[local] Opaque AuthService.generate_jwt AuthService.hash_password
  Db.insert_user.

Section WithPrimitives.
Context {hashlib : Hashlib} {hmac : PyJWT.Hmac}.
Variable JWT_SECRET : string.

(** [create_account] changes the table only by a successful insertion. *)
Lemma create_account_spec email username password w r w' :
  create_account JWT_SECRET email username password w = (r, w') ->
  match r with
  | Ok resp =>
      status resp = 201
      /\ exists row,
          users w' = users w ++ [row]
          /\ User.email row = email /\ User.username row = username
          /\ (Db.unique_users (users w) -> Db.unique_users (users w'))
  | Raise _ => users w' = users w
  end.
Proof.
  unfold create_account. intros Hcreate.
  destruct (AuthService.hash_password (random w) password) as [hashed | e];
    [ | by injection Hcreate as <- <-].
  simpl in Hcreate.
  match type of Hcreate with
  | context [Db.insert_user ?us ?obj ?now] =>
      destruct (Db.insert_user us obj now) as [[row table] | e] eqn:Hins
  end; [ | by injection Hcreate as <- <-].
  apply insert_user_spec in Hins
    as (-> & Hname & Hmail & _ & _ & Hunique). simpl in *.
  rewrite TokenFacts.generate_jwt_spec in Hcreate. cbv zeta in Hcreate.
  injection Hcreate as <- <-. simpl. split; [done | ].
  vm_compute in Hname, Hmail.
  injection Hname as Hname. change (username = User.username row) in Hname.
  injection Hmail as Hmail. change (email = User.email row) in Hmail.
  exists row. split; [reflexivity | ]. split; [congruence | ].
  split; [congruence | exact Hunique].
Qed.

(** What [register] does to the table: a response with status 201 comes
    with one new row that carries the email and the username of the
    request, whose email passed the format check; any other response leaves
    the table as it was. *)
Lemma register_spec data w r w' :
  register JWT_SECRET data w = (r, w') ->
  exists resp,
    r = Ok resp
    /\ (status resp = 201 ->
        exists email row,
          data !! "email" = Some email
          /\ missing (Some email) = false
          /\ email_regex_match email = true
          /\ users w' = users w ++ [row]
          /\ User.email row = email
          /\ data !! "username" = Some (User.username row))
    /\ (status resp <> 201 -> users w' = users w)
    /\ (Db.unique_users (users w) -> Db.unique_users (users w')).
Proof.
  unfold register. intros Hreg.
  assert (forall resp,
             status resp <> 201 -> (Ok resp, w) = (r, w') ->
             exists resp0,
               r = Ok resp0
               /\ (status resp0 = 201 ->
                   exists email row,
                     data !! "email" = Some email
                     /\ missing (Some email) = false
                     /\ email_regex_match email = true
                     /\ users w' = users w ++ [row]
                     /\ User.email row = email
                     /\ data !! "username" = Some (User.username row))
               /\ (status resp0 <> 201 -> users w' = users w)
               /\ (Db.unique_users (users w) -> Db.unique_users (users w')))
    as Hrefused.
  { intros resp Hstatus [= <- <-]. eexists. split; [reflexivity | done]. }
  destruct (data !! "email") as [email | ];
    [ | by eapply Hrefused; [ | exact Hreg]].
  destruct (data !! "username") as [username | ];
    [ | by eapply Hrefused; [ | exact Hreg]].
  destruct (data !! "password") as [password | ];
    [ | by eapply Hrefused; [ | exact Hreg]].
  destruct (missing (Some email)) eqn:Hemail; cbn [orb] in Hreg;
    [by eapply Hrefused; [ | exact Hreg] | ].
  destruct (missing (Some username)); cbn [orb] in Hreg;
    [by eapply Hrefused; [ | exact Hreg] | ].
  destruct (missing (Some password)); cbn [orb] in Hreg;
    [by eapply Hrefused; [ | exact Hreg] | ].
  destruct (email_regex_match email) eqn:Hformat; cbn [negb] in Hreg;
    [ | by eapply Hrefused; [ | exact Hreg]].
  destruct (Db.first_by_email (users w) email);
    [by eapply Hrefused; [ | exact Hreg] | ].
  destruct (Db.first_by_username (users w) username);
    [by eapply Hrefused; [ | exact Hreg] | ].
  destruct (PyStr.len password <? 6)%nat;
    [by eapply Hrefused; [ | exact Hreg] | ].
  clear Hrefused.
  destruct (create_account JWT_SECRET email username password w)
    as [[created | e] w2] eqn:Hcreate;
    apply create_account_spec in Hcreate; cbv beta iota in Hreg;
    injection Hreg as <- <-.
  - destruct Hcreate as (Hstatus & row & Husers & Hmail & Hname & Hunique).
    eexists. split; [reflexivity | ]. split; [ | split; [done | done]].
    intros _. exists email, row. subst username. done.
  - eexists. split; [reflexivity | ]. simpl.
    split; [done | ]. split; [done | ]. by rewrite Hcreate.
Qed.

(** C9: once a registration has succeeded, a registration with the same
    email leaves the table as it is and is never answered with 201; when it
    supplies a username and a password it is answered with 409 and
    "Email already registered", whatever the username.  Registrations keep
    usernames and emails unique. *)
Theorem register_same_email_conflict data1 data2 w resp1 w1 :
  register JWT_SECRET data1 w = (Ok resp1, w1) ->
  status resp1 = 201 ->
  data2 !! "email" = data1 !! "email" ->
  exists resp2,
    register JWT_SECRET data2 w1 = (Ok resp2, w1)
    /\ status resp2 <> 201
    /\ (missing (data2 !! "username") = false ->
        missing (data2 !! "password") = false ->
        resp2 = {| status := 409;
                   content := ErrorBody "Email already registered" |})
    /\ (Db.unique_users (users w) -> Db.unique_users (users w1)).
Proof.
  intros Hfirst Hcreated Hsame.
  destruct (register_spec _ _ _ _ Hfirst) as (r & [= <-] & Hrow & _ & Hunique).
  destruct (Hrow Hcreated)
    as (email & row & Hemail & Hpresent & Hformat & Husers & Hmail & _).
  rewrite Hemail in Hsame.
  assert (is_Some (Db.first_by_email (users w1) email)) as [found Hfound].
  { rewrite Husers, <- Hmail. apply first_by_email_app. }
  unfold register. rewrite Hsame.
  destruct (data2 !! "username") as [username | ];
    [ | eexists; split; [reflexivity | done]].
  destruct (data2 !! "password") as [password | ];
    [ | eexists; split; [reflexivity | done]].
  rewrite Hpresent. cbn [orb].
  destruct (missing (Some username)); cbn [orb];
    [eexists; split; [reflexivity | done] | ].
  destruct (missing (Some password)); cbn [orb];
    [eexists; split; [reflexivity | done] | ].
  rewrite Hformat, Hfound. cbn [negb].
  eexists. split; [reflexivity | done].
Qed.

End WithPrimitives.

(** C10: when a user with the given username exists, [create_user] answers
    200 with that user and changes nothing; when none exists, the
    constructor of [User] raises [TypeError] on the keyword
    [auth_provider], which the model does not declare, and nothing is
    created; no request is answered with 201, and the table is never
    changed.  A user built from a username alone would be refused by the
    table for want of a password hash. *)
Theorem create_user_never_creates data username w :
  data !! "username" = Some username ->
  (forall existing,
      Db.first_by_username (users w) username = Some existing ->
      create_user (Some data) w
      = (Ok {| status := 200; content := UserBody (to_dict existing) |}, w))
  /\ (Db.first_by_username (users w) username = None ->
      create_user (Some data) w
      = (Raise (TypeError
                  "'auth_provider' is an invalid keyword argument for User"),
         w))
  /\ (forall r w',
        create_user (Some data) w = (r, w') ->
        users w' = users w
        /\ forall resp, r = Ok resp -> status resp <> 201)
  /\ (forall obj users now,
        Db.User_init [("username"%string, Db.VStr username)] = Ok obj ->
        exists msg, Db.insert_user users obj now = Raise (IntegrityError msg)).
Proof.
  intros Hname. unfold create_user. rewrite Hname.
  split; [ | split; [ | split]].
  - intros existing ->. reflexivity.
  - intros ->. reflexivity.
  - intros r w'.
    destruct (Db.first_by_username (users w) username) as [existing | ].
    + intros [= <- <-]. split; [done | ]. by intros resp [= <-].
    + change (Db.User_init _)
        with (@Raise Db.UserObj
                (TypeError
                   "'auth_provider' is an invalid keyword argument for User")).
      intros [= <- <-]. split; [done | ]. by intros resp.
  - intros obj table now [= <-].
    by apply insert_user_without_hash.
Qed.

Lemma register_same_email_conflict_witness :
  exists resp1 w1 resp2,
    register (hashlib := Sample.hashlib) (hmac := Sample.hmac) "k"
      Sample.alice Sample.empty_world = (Ok resp1, w1)
    /\ status resp1 = 201
    /\ register (hashlib := Sample.hashlib) (hmac := Sample.hmac) "k"
         Sample.alice_again w1
       = (Ok resp2, w1)
    /\ resp2 = {| status := 409;
                  content := ErrorBody "Email already registered" |}.
Proof.
  destruct (register (hashlib := Sample.hashlib) (hmac := Sample.hmac) "k"
              Sample.alice Sample.empty_world) as [r1 w1] eqn:Hfirst.
  assert (exists resp1, r1 = Ok resp1 /\ status resp1 = 201)
    as (resp1 & -> & Hcreated).
  { pose proof (f_equal fst Hfirst) as Hr. cbn [fst] in Hr.
    vm_compute in Hr. subst r1. eexists. split; reflexivity. }
  destruct (register_same_email_conflict (hashlib := Sample.hashlib)
              (hmac := Sample.hmac) "k" Sample.alice Sample.alice_again
              Sample.empty_world resp1 w1 Hfirst Hcreated eq_refl)
    as (resp2 & Hsecond & _ & Hconflict & _).
  exists resp1, w1, resp2.
  split; [reflexivity | ]. split; [exact Hcreated | ].
  split; [exact Hsecond | ]. apply Hconflict; reflexivity.
Defined.

Lemma create_user_never_creates_witness :
  create_user (Some Sample.bob) Sample.empty_world
  = (Raise (TypeError
              "'auth_provider' is an invalid keyword argument for User"),
     Sample.empty_world).
Proof.
  apply (create_user_never_creates Sample.bob "bob" Sample.empty_world).
  - reflexivity.
  - reflexivity.
Defined.

End AppFacts.

(** ** More on the credential service *)

Module AuthExtra.
Import PyJWT AuthService.

Section WithHmac.
Context {hmac : Hmac}.

(** A user identifier comes out of [verify_jwt] only for a well-formed
    HS256 token whose signature verifies under the secret; it is the
    identifier of the payload, and an integer expiry of the payload is
    still ahead. *)
Theorem verify_jwt_sound secret tok c user_id :
  fst (verify_jwt secret tok c) = Ok user_id ->
  exists header payload signature,
    tok = Compact header payload signature
    /\ alg header = Some "HS256"%string
    /\ signature_ok secret header payload signature = true
    /\ payload !! "user_id" = Some user_id
    /\ forall exp, payload !! "exp" = Some (JInt exp) -> now c < seconds exp.
Proof.
  rewrite TokenFacts.verify_jwt_decode.
  destruct tok as [raw | header payload signature | raw
                  | header signing_input signature]; [discriminate | | | ].
  2: discriminate.
  2: { cbn [decode]. destruct (alg header) as [a | ]; [ | discriminate].
       destruct (negb (String.eqb a "HS256")); [discriminate | ].
       destruct (negb (String.eqb signature
                         (hmac_sha256_raw secret signing_input)));
         discriminate. }
  cbn [decode].
  destruct (alg header) as [a | ] eqn:Halg; [ | discriminate].
  destruct (String.eqb_spec a "HS256") as [-> | Hne]; [ | discriminate].
  cbn [negb].
  destruct (signature_ok secret header payload signature) eqn:Hsig;
    [ | discriminate].
  cbn [negb].
  destruct (_validate_claims payload (now c)) as [[] | e] eqn:Hvalid.
  2: { simpl. destruct e as [ | | | | | | | [] | ]; discriminate. }
  simpl. destruct (payload !! "user_id") as [v | ] eqn:Huid; [ | discriminate].
  intros [= ->]. exists header, payload, signature.
  repeat split; try done.
  intros exp Hexp. unfold _validate_claims in Hvalid.
  destruct (_validate_iat payload (now c)) as [[] | ]; [ | discriminate].
  destruct (_validate_nbf payload (now c)) as [[] | ]; [ | discriminate].
  simpl in Hvalid. unfold _validate_exp in Hvalid. rewrite Hexp in Hvalid.
  simpl in Hvalid.
  destruct (Z.leb_spec (seconds exp) (now c)); [discriminate | lia].
Qed.

Lemma int_of_claim_raises v invalid err :
  int_of_claim v invalid = Raise err ->
  err = InvalidTokenError invalid \/ (exists msg, err = TypeError msg)
  \/ err = OverflowError.
Proof.
  destruct v as [ | b | n | [x | negative | ] | s]; simpl; try discriminate.
  - intros [= <-]. right. left. eauto.
  - intros [= <-]. auto.
  - intros [= <-]. auto.
  - destruct (PyStr.int s); [discriminate | ]. intros [= <-]. by left.
Qed.

Lemma bind_raises {A B} (r : result A) (k : A -> result B) err :
  r ≫= k = Raise err ->
  r = Raise err \/ exists a, r = Ok a /\ k a = Raise err.
Proof. destruct r as [a | e]; simpl; [eauto | intros [= <-]; auto]. Qed.

Lemma validate_time_claim_raises (claim : option json) invalid
    (check : Z -> bool) kind err :
  match claim with
  | None => Ok tt
  | Some v =>
      n ← int_of_claim v invalid;
      if check n then Raise (InvalidTokenError kind) else Ok tt
  end = Raise err ->
  (exists kind, err = InvalidTokenError kind) \/ (exists msg, err = TypeError msg)
  \/ err = OverflowError.
Proof.
  destruct claim as [v | ]; [ | discriminate].
  intros [Hv | (n & _ & Hcheck)]%bind_raises.
  - apply int_of_claim_raises in Hv as [-> | [? | ->]]; eauto.
  - destruct (check n); [injection Hcheck as <-; eauto | discriminate].
Qed.

Lemma validate_claims_raises payload t err :
  _validate_claims payload t = Raise err ->
  (exists kind, err = InvalidTokenError kind) \/ (exists msg, err = TypeError msg)
  \/ err = OverflowError.
Proof.
  unfold _validate_claims.
  intros [Hiat | ([] & _ & Hrest)]%bind_raises.
  { by eapply (validate_time_claim_raises _ _ (fun iat => t <? seconds iat)). }
  apply bind_raises in Hrest as [Hnbf | ([] & _ & Hrest)].
  { by eapply (validate_time_claim_raises _ _ (fun nbf => t <? seconds nbf)). }
  apply bind_raises in Hrest as [Hexp | ([] & _ & Haud)].
  { by eapply (validate_time_claim_raises _ _ (fun exp => seconds exp <=? t)). }
  unfold _validate_aud in Haud.
  destruct (payload !! "aud") as [a | ]; [ | discriminate].
  destruct (truthy a); [injection Haud as <-; eauto | discriminate].
Qed.

Lemma decode_raises tok key t err :
  decode tok key t = Raise err ->
  (exists kind, err = InvalidTokenError kind) \/ (exists msg, err = TypeError msg)
  \/ err = OverflowError \/ err = RecursionError.
Proof.
  destruct tok as [raw | header payload signature | raw
                  | header signing_input signature]; simpl.
  - intros [= <-]. eauto.
  - destruct (alg header) as [a | ]; [ | intros [= <-]; eauto].
    destruct (negb (String.eqb a "HS256")); [intros [= <-]; eauto | ].
    destruct (negb (signature_ok key header payload signature));
      [intros [= <-]; eauto | ].
    destruct (_validate_claims payload t) as [[] | e] eqn:Hvalid; simpl;
      [discriminate | ].
    intros [= <-].
    apply validate_claims_raises in Hvalid as [? | [? | ->]]; auto.
  - intros [= <-]. auto.
  - destruct (alg header) as [a | ]; [ | intros [= <-]; eauto].
    destruct (negb (String.eqb a "HS256")); [intros [= <-]; eauto | ].
    destruct (negb (String.eqb signature (hmac_sha256_raw key signing_input)));
      intros [= <-]; eauto.
Qed.

(** The exceptions of PyJWT do not leave [verify_jwt], but four built-in
    ones do.  Whatever the token, what is raised is one of the two
    messages, [KeyError] for a payload without [user_id], the [TypeError]
    of a [null] time claim, the [OverflowError] of an infinite one, or the
    [RecursionError] of JSON nested too deeply.  The last two happen: for
    any token whose header is nested so, and for a signed token whose only
    time claim is an infinite [exp]. *)
Theorem verify_jwt_raises secret tok c :
  (forall e,
      fst (verify_jwt secret tok c) = Raise e ->
      e = Exception "Token expired" \/ e = Exception "Invalid token"
      \/ e = KeyError "user_id" \/ (exists msg, e = TypeError msg)
      \/ e = OverflowError \/ e = RecursionError)
  /\ (forall raw,
        tok = DeepHeader raw ->
        fst (verify_jwt secret tok c) = Raise RecursionError)
  /\ (forall header payload signature negative,
        tok = Compact header payload signature ->
        alg header = Some "HS256"%string ->
        signature_ok secret header payload signature = true ->
        payload !! "iat" = None -> payload !! "nbf" = None ->
        payload !! "exp" = Some (JFloat (PyFloat.Infinite negative)) ->
        fst (verify_jwt secret tok c) = Raise OverflowError).
Proof.
  rewrite TokenFacts.verify_jwt_decode. split; [ | split].
  - intros e.
    destruct (decode tok secret (now c)) as [payload | err] eqn:Hdecode.
    + destruct (payload !! "user_id"); [discriminate | ].
      intros [= <-]. auto.
    + apply decode_raises in Hdecode as [[kind ->] | [[msg ->] | [-> | ->]]].
      * destruct kind; intros [= <-]; auto.
      * intros [= <-]. eauto 6.
      * intros [= <-]. auto 6.
      * intros [= <-]. auto 6.
  - intros raw ->. reflexivity.
  - intros header payload signature negative -> Halg Hsig Hiat Hnbf Hexp.
    cbn [decode]. rewrite Halg, Hsig.
    change (String.eqb "HS256" "HS256") with true. cbn [negb].
    unfold _validate_claims, _validate_iat, _validate_nbf, _validate_exp.
    rewrite Hiat, Hnbf, Hexp. reflexivity.
Qed.

(** An issued token that is verified at or after its expiry, and not
    before its issue time, is refused as expired. *)
Theorem verify_jwt_after_expiry secret user_id c c' :
  exists tok iat exp,
    fst (generate_jwt secret user_id c) = Ok tok
    /\ claim tok "iat" = Some (JInt iat)
    /\ claim tok "exp" = Some (JInt exp)
    /\ (seconds iat <= now c' -> seconds exp <= now c' ->
        fst (verify_jwt secret tok c') = Raise (Exception "Token expired")).
Proof.
  pose proof (TokenFacts.generate_jwt_spec secret user_id c) as Hgen.
  cbv zeta in Hgen. rewrite Hgen. cbn [fst].
  set (exp := timegm (Clock.reading c (Clock.reads c)) + 604800).
  set (iat := timegm (Clock.reading c (S (Clock.reads c)))).
  destruct (TokenFacts.issued_lookup user_id exp iat) as (_ & Hexp & Hiat & _).
  eexists _, iat, exp. split; [reflexivity | ].
  split; [exact Hiat | ]. split; [exact Hexp | ].
  intros Hissued Hexpired. rewrite TokenFacts.verify_jwt_decode.
  cbn [decode alg]. change (String.eqb "HS256" "HS256") with true.
  rewrite TokenFacts.signature_ok_signed. cbn [negb].
  rewrite TokenFacts.validate_issued by done.
  destruct (Z.leb_spec (seconds exp) (now c')); [reflexivity | lia].
Qed.

(** A token issued under one secret is refused as invalid under a secret
    that signs it differently, at any time. *)
Theorem verify_jwt_other_secret secret secret' user_id c c' tok :
  fst (generate_jwt secret user_id c) = Ok tok ->
  (forall header payload,
      hmac_sha256 secret header payload <> hmac_sha256 secret' header payload) ->
  fst (verify_jwt secret' tok c') = Raise (Exception "Invalid token").
Proof.
  pose proof (TokenFacts.generate_jwt_spec secret user_id c) as Hgen.
  cbv zeta in Hgen. rewrite Hgen. cbn [fst]. intros [= <-] Hdiffer.
  rewrite TokenFacts.verify_jwt_decode. cbn [decode alg].
  change (String.eqb "HS256" "HS256") with true. cbn [negb].
  unfold signature_ok.
  match goal with
  | |- context [String.eqb ?a ?b] =>
      assert (String.eqb a b = false) as ->
        by (apply String.eqb_neq, Hdiffer)
  end.
  reflexivity.
Qed.

End WithHmac.

Lemma verify_jwt_sound_witness :
  exists header payload signature,
    fst (generate_jwt (hmac := Sample.hmac) "k" (JInt 7)
           (Sample.ticking 1700000000000000 5))
    = Ok (Compact header payload signature)
    /\ payload !! "user_id" = Some (JInt 7).
Proof.
  destruct (TokenFacts.generate_jwt_claims (hmac := Sample.hmac) "k" (JInt 7)
              (Sample.ticking 1700000000000000 5)) as (tok & Htok & _).
  destruct (verify_jwt_sound (hmac := Sample.hmac) "k" tok
              (Clock.mk (fun _ => 1700000000000020) 0) (JInt 7))
    as (header & payload & signature & -> & _ & _ & Huid & _).
  - vm_compute in Htok. injection Htok as <-. vm_compute. reflexivity.
  - exists header, payload, signature. split; [exact Htok | exact Huid].
Defined.

Lemma verify_jwt_raises_witness :
  fst (verify_jwt (hmac := Sample.hmac) "k" Sample.infinite_expiry
         (Sample.ticking 1700000000000000 5))
  = Raise OverflowError.
Proof.
  apply (proj2 (proj2 (verify_jwt_raises (hmac := Sample.hmac) "k"
                         Sample.infinite_expiry
                         (Sample.ticking 1700000000000000 5)))
           {| alg := Some "HS256"%string |}
           (<["user_id" := JInt 1]>
              (<["exp" := JFloat (PyFloat.Infinite false)]> ∅))
           "kHS256"%string false);
    vm_compute; reflexivity.
Defined.

Lemma verify_jwt_after_expiry_witness :
  exists tok,
    fst (generate_jwt (hmac := Sample.hmac) "k" (JInt 7)
           (Sample.ticking 1700000000000000 5)) = Ok tok
    /\ fst (verify_jwt (hmac := Sample.hmac) "k" tok
              (Clock.mk (fun _ => 1700604800000000) 0))
       = Raise (Exception "Token expired").
Proof.
  destruct (verify_jwt_after_expiry (hmac := Sample.hmac) "k" (JInt 7)
              (Sample.ticking 1700000000000000 5)
              (Clock.mk (fun _ => 1700604800000000) 0))
    as (tok & iat & exp & Htok & Hiat & Hexp & Hexpired).
  exists tok. split; [exact Htok | ].
  vm_compute in Htok. injection Htok as <-.
  vm_compute in Hiat. injection Hiat as <-.
  vm_compute in Hexp. injection Hexp as <-.
  apply Hexpired; vm_compute; discriminate.
Defined.

Lemma verify_jwt_other_secret_witness :
  exists tok,
    fst (generate_jwt (hmac := Sample.hmac) "k" (JInt 7)
           (Sample.ticking 1700000000000000 5)) = Ok tok
    /\ fst (verify_jwt (hmac := Sample.hmac) "j" tok
              (Sample.ticking 1700000000000000 5))
       = Raise (Exception "Invalid token").
Proof.
  destruct (TokenFacts.generate_jwt_claims (hmac := Sample.hmac) "k" (JInt 7)
              (Sample.ticking 1700000000000000 5)) as (tok & Htok & _).
  exists tok. split; [exact Htok | ].
  apply (verify_jwt_other_secret (hmac := Sample.hmac) "k" "j" (JInt 7)
           (Sample.ticking 1700000000000000 5)); [exact Htok | ].
  intros header payload. simpl. discriminate.
Defined.

Section WithHashlib.
Context {hashlib : Hashlib}.

Lemma hash_internal_candidate salt password :
  Werkzeug._hash_internal "scrypt:32768:8:1" salt password
  = match scrypt password salt 32768 8 1 34603008 with
    | Some h => Ok (h, "scrypt:32768:8:1"%string)
    | None => Raise (ValueError "scrypt")
    end
  /\ Werkzeug._hash_internal "scrypt" salt password
     = Werkzeug._hash_internal "scrypt:32768:8:1" salt password.
Proof.
  unfold Werkzeug._hash_internal.
  change (PyStr.split ":" "scrypt:32768:8:1")
    with ["scrypt"%string; "32768"%string; "8"%string; "1"%string].
  change (PyStr.split ":" "scrypt") with ["scrypt"%string].
  change (String.eqb "scrypt" "scrypt") with true. cbv iota.
  change (PyStr.int "32768") with (Some 32768).
  change (PyStr.int "8") with (Some 8).
  change (PyStr.int "1") with (Some 1).
  simpl mbind. change (2 ^ 15) with 32768.
  change (132 * 32768 * 8 * 1) with 34603008.
  destruct (scrypt password salt 32768 8 1 34603008); split; reflexivity.
Qed.

(** What [hash_password] returned has the salt it drew and the digest of the
    password under that salt. *)
Lemma hash_password_inv rnd password stored :
  hash_password rnd password = Ok stored ->
  exists salt h,
    Werkzeug.gen_salt rnd 16 = Ok salt
    /\ PyStr.contains "$" salt = false
    /\ scrypt password salt 32768 8 1 34603008 = Some h
    /\ stored = "scrypt:32768:8:1" +:+ String "$" (salt +:+ String "$" h).
Proof.
  destruct (PasswordFacts.gen_salt_16 rnd) as (salt & Hsalt & Hclean).
  unfold hash_password, Werkzeug.generate_password_hash.
  rewrite Hsalt. simpl mbind.
  destruct (hash_internal_candidate salt password) as [Hspelled ->].
  rewrite Hspelled.
  destruct (scrypt password salt 32768 8 1 34603008) as [h | ] eqn:Hh;
    [ | discriminate].
  intros [= <-]. exists salt, h. done.
Qed.

(** A stored hash that [hash_password] returned verifies against its
    password; any other candidate verifies exactly when scrypt gives it the
    stored digest under the stored salt. *)
Theorem verify_password_candidate rnd password candidate stored :
  hash_password rnd password = Ok stored ->
  verify_password stored password = Ok true
  /\ exists salt h,
      Werkzeug.gen_salt rnd 16 = Ok salt
      /\ scrypt password salt 32768 8 1 34603008 = Some h
      /\ verify_password stored candidate
         = match scrypt candidate salt 32768 8 1 34603008 with
           | Some h' => Ok (String.eqb h' h)
           | None => Raise (ValueError "scrypt")
           end.
Proof.
  intros (salt & h & Hsalt & Hclean & Hh & ->)%hash_password_inv.
  split; [by apply PasswordFacts.verify_stored | ].
  exists salt, h. split; [done | ]. split; [done | ].
  unfold verify_password, Werkzeug.check_password_hash.
  rewrite PasswordFacts.split2_join by done.
  destruct (hash_internal_candidate salt candidate) as [-> _].
  destruct (scrypt candidate salt 32768 8 1 34603008); reflexivity.
Qed.

End WithHashlib.

Lemma verify_password_candidate_witness :
  exists stored,
    hash_password (hashlib := Sample.hashlib) (Sample.constant_draws 0)
      "hunter2" = Ok stored
    /\ verify_password (hashlib := Sample.hashlib) stored "hunter2" = Ok true
    /\ verify_password (hashlib := Sample.hashlib) stored "hunter3" = Ok false.
Proof.
  destruct (hash_password (hashlib := Sample.hashlib)
              (Sample.constant_draws 0) "hunter2") as [stored | e] eqn:Hstored;
    [ | vm_compute in Hstored; discriminate Hstored].
  destruct (verify_password_candidate (hashlib := Sample.hashlib)
              (Sample.constant_draws 0) "hunter2" "hunter3" stored Hstored)
    as (Hsame & salt & h & Hsalt & Hh & Hother).
  exists stored. split; [reflexivity | ]. split; [exact Hsame | ].
  rewrite Hother. vm_compute in Hsalt. injection Hsalt as <-.
  vm_compute in Hh. injection Hh as <-. vm_compute. reflexivity.
Defined.

End AuthExtra.

(** ** Registration, login and lookups *)

Module ApiFacts.
Import App Api.

Lemma first_by_email_snoc users row :
  Db.first_by_email users (User.email row) = None ->
  Db.first_by_email (users ++ [row]) (User.email row) = Some row.
Proof.
  unfold Db.first_by_email. induction users as [ | u users IH]; simpl.
  - by rewrite String.eqb_refl.
  - destruct (String.eqb (User.email u) (User.email row)); [done | exact IH].
Qed.

Lemma first_by_username_snoc users row :
  Db.first_by_username users (User.username row) = None ->
  Db.first_by_username (users ++ [row]) (User.username row) = Some row.
Proof.
  unfold Db.first_by_username. induction users as [ | u users IH]; simpl.
  - by rewrite String.eqb_refl.
  - destruct (String.eqb (User.username u) (User.username row));
      [done | exact IH].
Qed.

(** The next primary key is above every key of the table. *)
Lemma next_id_above users u : u ∈ users -> User.id u < Db.next_id users.
Proof.
  unfold Db.next_id. induction 1 as [u users | u v users _ IH]; simpl; lia.
Qed.

Lemma get_user_snoc users row :
  User.id row = Db.next_id users ->
  Db.row_with_id (users ++ [row]) (User.id row) = Some row.
Proof.
  intros Hid. unfold Db.row_with_id.
  assert (forall u, u ∈ users -> (User.id u =? User.id row) = false) as Hold.
  { intros u Hu%next_id_above. apply Z.eqb_neq. lia. }
  clear Hid. induction users as [ | u users IH]; simpl.
  - by rewrite Z.eqb_refl.
  - rewrite Hold by left. apply IH. intros v Hv. apply Hold. by right.
Qed.

Lemma user_init_registration username email password_hash last_login :
  Db.User_init [("username"%string, Db.VStr username);
                ("email"%string, Db.VStr email);
                ("password_hash"%string, Db.VStr password_hash);
                ("last_login"%string, Db.VTime last_login)]
  = Ok {| Db.obj_username := Some username;
          Db.obj_email := Some email;
          Db.obj_password_hash := Some password_hash;
          Db.obj_last_login := Some last_login |}.
Proof. reflexivity. Qed.

Lemma update_last_login_columns users id t :
  map User.id (update_last_login users id t) = map User.id users
  /\ map User.username (update_last_login users id t) = map User.username users
  /\ map User.email (update_last_login users id t) = map User.email users
  /\ map User.password_hash (update_last_login users id t)
     = map User.password_hash users
  /\ map User.created_at (update_last_login users id t)
     = map User.created_at users.
Proof.
  unfold update_last_login. rewrite !map_map.
  repeat split; apply map_ext; intros u; by destruct (User.id u =? id).
Qed.

Lemma update_last_login_rows users id t :
  Forall2 (logged_in id t) users (update_last_login users id t).
Proof.
  unfold update_last_login.
  induction users as [ | v users IH]; simpl; constructor; [ | exact IH].
  unfold logged_in.
  destruct (Z.eqb_spec (User.id v) id) as [Heq | Hne].
  - rewrite bool_decide_eq_true_2 by done. repeat split.
  - rewrite bool_decide_eq_false_2 by done. repeat split.
Qed.

Lemma first_by_email_update users email u t :
  Db.first_by_email users email = Some u ->
  Db.first_by_email (update_last_login users (User.id u) t) email
  = Some (touch t u).
Proof.
  unfold Db.first_by_email, update_last_login.
  induction users as [ | v users IH]; simpl; [done | ].
  destruct (String.eqb (User.email v) email) eqn:Hv.
  - intros [= ->]. rewrite Z.eqb_refl. simpl. by rewrite Hv.
  - intros Hfind. destruct (User.id v =? User.id u); simpl; rewrite Hv; auto.
Qed.

(** A stored hash with three fields whose first names no method makes the
    check raise. *)
Lemma check_unknown_method {hashlib : Hashlib} stored method salt h password :
  PyStr.split2 "$" stored = Some (method, salt, h) ->
  Werkzeug.method_name method <> "scrypt"%string ->
  Werkzeug.method_name method <> "pbkdf2"%string ->
  AuthService.verify_password stored password
  = Raise (ValueError ("Invalid hash method '"
                       +:+ Werkzeug.method_name method +:+ "'.")).
Proof.
  unfold AuthService.verify_password, Werkzeug.check_password_hash.
  intros -> Hs Hp.
  unfold Werkzeug._hash_internal, Werkzeug.method_name in *.
  destruct (PyStr.split ":" method) as [ | name args]; [reflexivity | ].
  apply String.eqb_neq in Hs, Hp. rewrite Hs, Hp. reflexivity.
Qed.

(** An issued token verifies between its issue and its expiry. *)
Lemma verify_issued {hmac : PyJWT.Hmac} secret user_id c c' tok :
  fst (AuthService.generate_jwt secret user_id c) = Ok tok ->
  Clock.reading c (S (Clock.reads c)) <= AuthService.now c' ->
  AuthService.now c'
  < PyJWT.seconds (timegm (Clock.reading c (Clock.reads c)) + 604800) ->
  fst (AuthService.verify_jwt secret tok c') = Ok user_id.
Proof.
  pose proof (TokenFacts.generate_jwt_spec secret user_id c) as Hgen.
  cbv zeta in Hgen. rewrite Hgen. cbn [fst]. intros [= <-] Hissued Hbefore.
  rewrite TokenFacts.verify_jwt_decode. cbn [PyJWT.decode PyJWT.alg].
  change (String.eqb "HS256" "HS256") with true.
  rewrite TokenFacts.signature_ok_signed. cbn [negb].
  rewrite TokenFacts.validate_issued.
  2: { pose proof (TokenFacts.seconds_timegm
                     (Clock.reading c (S (Clock.reads c)))). lia. }
  match goal with
  | |- context [Z.leb ?a ?b] => destruct (Z.leb_spec a b) as [ | _]; [lia | ]
  end.
  simpl.
  match goal with
  | |- context [AuthService.issued_claims ?u ?e ?i] =>
      destruct (TokenFacts.issued_lookup u e i) as (-> & _)
  end.
  reflexivity.
Qed.

Section WithPrimitives.
Context {hashlib : Hashlib} {hmac : PyJWT.Hmac}.
Variable JWT_SECRET : string.

(** The account that [create_account] creates when the password can be
    hashed and neither the username nor the email is taken. *)
Lemma create_account_created email username password w h :
  AuthService.hash_password (random w) password = Ok h ->
  Db.first_by_username (users w) username = None ->
  Db.first_by_email (users w) email = None ->
  let row := new_account (users w) (clock w) email username h in
  exists tok,
    fst (AuthService.generate_jwt JWT_SECRET (JInt (User.id row))
           (later (clock w) 2)) = Ok tok
    /\ create_account JWT_SECRET email username password w
       = (Ok {| App.status := 201;
                App.content :=
                  AuthBody (to_dict row) tok "Registration successful" |},
          {| users := users w ++ [row];
             game_results := game_results w;
             clock := later (clock w) 4;
             random := fun i => random w (16 + i)%nat |}).
Proof.
  intros Hhash Hname Hmail row. unfold new_account in row.
  pose proof (TokenFacts.generate_jwt_spec JWT_SECRET (JInt (User.id row))
                (later (clock w) 2)) as Hgen.
  cbv zeta in Hgen. eexists. split; [by rewrite Hgen | ].
  unfold create_account. rewrite Hhash.
  unfold Clock.utcnow, with_clock, after_draws, with_users.
  cbn [clock users game_results random Clock.reading Clock.reads].
  rewrite user_init_registration.
  unfold Db.insert_user.
  cbn [Db.obj_username Db.obj_email Db.obj_password_hash Db.obj_last_login].
  rewrite Hname, Hmail. fold row.
  change (AuthService.generate_jwt JWT_SECRET (JInt (User.id row))
            {| Clock.reading := Clock.reading (clock w);
               Clock.reads := S (S (Clock.reads (clock w))) |})
    with (AuthService.generate_jwt JWT_SECRET (JInt (User.id row))
            (later (clock w) 2)).
  rewrite Hgen. reflexivity.
Qed.

(** Every outcome of [register]: either the request is acceptable, the
    password is hashed and the account is created, or the answer is not 201
    and the tables are as they were. *)
Lemma register_inv data w r w' :
  register JWT_SECRET data w = (r, w') ->
  (exists email username password h tok,
      acceptable data (users w) email username password
      /\ AuthService.hash_password (random w) password = Ok h
      /\ fst (AuthService.generate_jwt JWT_SECRET
                (JInt (Db.next_id (users w))) (later (clock w) 2)) = Ok tok
      /\ r = Ok {| App.status := 201;
                   App.content :=
                     AuthBody
                       (to_dict (new_account (users w) (clock w) email
                                   username h))
                       tok "Registration successful" |}
      /\ w' = {| users := users w
                          ++ [new_account (users w) (clock w) email username h];
                 game_results := game_results w;
                 clock := later (clock w) 4;
                 random := fun i => random w (16 + i)%nat |})
  \/ (exists resp,
        r = Ok resp /\ App.status resp <> 201
        /\ users w' = users w /\ game_results w' = game_results w).
Proof.
  unfold register. intros Hreg.
  assert (forall resp,
             App.status resp <> 201 -> (Ok resp, w) = (r, w') ->
             exists resp0,
               r = Ok resp0 /\ App.status resp0 <> 201
               /\ users w' = users w /\ game_results w' = game_results w)
    as Hrefused.
  { intros resp Hstatus [= <- <-]. by exists resp. }
  destruct (data !! "email") as [email | ] eqn:Hemail;
    [ | right; by eapply Hrefused; [ | exact Hreg]].
  destruct (data !! "username") as [username | ] eqn:Husername;
    [ | right; by eapply Hrefused; [ | exact Hreg]].
  destruct (data !! "password") as [password | ] eqn:Hpassword;
    [ | right; by eapply Hrefused; [ | exact Hreg]].
  destruct (missing (Some email)) eqn:He; cbn [orb] in Hreg;
    [right; by eapply Hrefused; [ | exact Hreg] | ].
  destruct (missing (Some username)) eqn:Hu; cbn [orb] in Hreg;
    [right; by eapply Hrefused; [ | exact Hreg] | ].
  destruct (missing (Some password)) eqn:Hp; cbn [orb] in Hreg;
    [right; by eapply Hrefused; [ | exact Hreg] | ].
  destruct (email_regex_match email) eqn:Hformat; cbn [negb] in Hreg;
    [ | right; by eapply Hrefused; [ | exact Hreg]].
  destruct (Db.first_by_email (users w) email) eqn:Hmail;
    [right; by eapply Hrefused; [ | exact Hreg] | ].
  destruct (Db.first_by_username (users w) username) eqn:Hname;
    [right; by eapply Hrefused; [ | exact Hreg] | ].
  destruct (Nat.ltb_spec (PyStr.len password) 6) as [ | Hlen];
    [right; by eapply Hrefused; [ | exact Hreg] | ].
  clear Hrefused.
  destruct (AuthService.hash_password (random w) password) as [h | e] eqn:Hhash.
  - destruct (create_account_created email username password w h
                Hhash Hname Hmail) as (tok & Htok & Hcreate).
    rewrite Hcreate in Hreg. injection Hreg as <- <-.
    left. exists email, username, password, h, tok.
    split; [unfold acceptable; split_and!; assumption | ].
    split; [exact Hhash | ]. split; [exact Htok | ].
    split; reflexivity.
  - unfold create_account in Hreg. rewrite Hhash in Hreg.
    injection Hreg as <- <-. right. eexists. split; [reflexivity | ].
    split; [discriminate | split; reflexivity].
Qed.

(** [register] answers 201 exactly when every field is there, the email
    has the expected format, neither the email nor the username is in the
    table, the password has six characters or more, and the password can
    be hashed. *)
Theorem register_created_iff data w :
  (exists resp w',
      register JWT_SECRET data w = (Ok resp, w') /\ App.status resp = 201)
  <-> exists email username password h,
        acceptable data (users w) email username password
        /\ AuthService.hash_password (random w) password = Ok h.
Proof.
  split.
  - intros (resp & w' & Hreg & Hcreated).
    apply register_inv in Hreg
      as [(email & username & password & h & tok & Hok & Hhash & _)
         | (resp' & [= <-] & Hnot & _)]; [eauto 6 | done].
  - intros (email & username & password & h & Hok & Hhash).
    destruct Hok as (He & Hu & Hp & Hme & Hmu & Hmp & Hformat & Hmail
                     & Hname & Hlen).
    destruct (create_account_created email username password w h
                Hhash Hname Hmail) as (tok & _ & Hcreate).
    do 2 eexists. unfold register.
    rewrite He, Hu, Hp, Hme, Hmu, Hmp, Hformat, Hmail, Hname. cbn [orb negb].
    destruct (Nat.ltb_spec (PyStr.len password) 6) as [ | _]; [lia | ].
    rewrite Hcreate. split; reflexivity.
Qed.

(** [register] never touches a row of the table: it appends one row, with a
    primary key above those of the table, when it answers 201, and nothing
    otherwise; the other table is left alone. *)
Theorem register_appends data w r w' :
  register JWT_SECRET data w = (r, w') ->
  game_results w' = game_results w
  /\ (users w' = users w
      \/ exists row,
           users w' = users w ++ [row]
           /\ User.id row = Db.next_id (users w)
           /\ (forall u, u ∈ users w -> User.id u < User.id row)
           /\ data !! "email" = Some (User.email row)
           /\ data !! "username" = Some (User.username row)).
Proof.
  intros [(email & username & password & h & tok & Hok & _ & _ & _ & ->)
         | (resp & _ & _ & Husers & Hresults)]%register_inv.
  - split; [reflexivity | ]. right. eexists. split; [reflexivity | ].
    destruct Hok as (He & Hu & _).
    split; [reflexivity | ]. split; [ | done].
    intros u Hu'. by apply next_id_above.
  - split; [done | by left].
Qed.

(** The token of a successful registration names the new user, who is in
    the table under that identifier; verified under the same secret on a
    clock that does not go back, before its expiry, it gives that
    identifier. *)
Theorem register_token_verifies data w resp w' :
  register JWT_SECRET data w = (Ok resp, w') ->
  App.status resp = 201 ->
  Clock.monotone (clock w) ->
  exists user tok message exp,
    App.content resp = AuthBody user tok message
    /\ to_dict <$> Db.row_with_id (users w') (dict_id user) = Some user
    /\ PyJWT.claim tok "user_id" = Some (JInt (dict_id user))
    /\ PyJWT.claim tok "exp" = Some (JInt exp)
    /\ (AuthService.now (clock w') < PyJWT.seconds exp ->
        fst (AuthService.verify_jwt JWT_SECRET tok (clock w'))
        = Ok (JInt (dict_id user))).
Proof.
  intros [(email & username & password & h & tok & _ & _ & Htok & [= ->] & ->)
         | (resp' & [= <-] & Hnot & _)]%register_inv Hcreated Hmono;
    [ | done].
  set (row := new_account (users w) (clock w) email username h).
  destruct (TokenFacts.generate_jwt_claims JWT_SECRET
              (JInt (Db.next_id (users w))) (later (clock w) 2))
    as (tok' & Htok' & Huid & _ & Hexp).
  rewrite Htok in Htok'. injection Htok' as <-.
  exists (to_dict row), tok, "Registration successful"%string. eexists.
  split; [reflexivity | ]. cbn [users clock].
  split; [ | split; [exact Huid | split; [exact Hexp | ]]].
  - change (dict_id (to_dict row)) with (User.id row).
    by rewrite get_user_snoc.
  - intros Hbefore. apply (verify_issued _ _ _ _ _ Htok); [ | exact Hbefore].
    apply Hmono. simpl. lia.
Qed.

(** Every outcome of [login]: either the email is that of a user whose
    stored hash the password verifies against, the last login of that row
    is set to the time read and a token is issued for its identifier, or
    the answer is not 200 and the state is as it was. *)
Lemma login_inv data w r w' :
  login JWT_SECRET data w = (r, w') ->
  (exists email password user tok,
      data !! "email" = Some email
      /\ data !! "password" = Some password
      /\ Db.first_by_email (users w) email = Some user
      /\ AuthService.verify_password (User.password_hash user) password
         = Ok true
      /\ fst (AuthService.generate_jwt JWT_SECRET (JInt (User.id user))
                (later (clock w) 1)) = Ok tok
      /\ r = Ok {| App.status := 200;
                   App.content :=
                     AuthBody
                       (to_dict (touch (AuthService.now (clock w)) user))
                       tok "Login successful" |}
      /\ w' = {| users := update_last_login (users w) (User.id user)
                            (AuthService.now (clock w));
                 game_results := game_results w;
                 clock := later (clock w) 3;
                 random := random w |})
  \/ (exists resp, r = Ok resp /\ App.status resp <> 200 /\ w' = w).
Proof.
  unfold login. intros Hlogin.
  assert (forall resp,
             App.status resp <> 200 -> (Ok resp, w) = (r, w') ->
             exists resp0, r = Ok resp0 /\ App.status resp0 <> 200 /\ w' = w)
    as Hrefused.
  { intros resp Hstatus [= <- <-]. by exists resp. }
  destruct (data !! "email") as [email | ] eqn:Hemail;
    [ | right; by eapply Hrefused; [ | exact Hlogin]].
  destruct (data !! "password") as [password | ] eqn:Hpassword;
    [ | right; by eapply Hrefused; [ | exact Hlogin]].
  destruct (missing (Some email)); cbn [orb] in Hlogin;
    [right; by eapply Hrefused; [ | exact Hlogin] | ].
  destruct (missing (Some password)); cbn [orb] in Hlogin;
    [right; by eapply Hrefused; [ | exact Hlogin] | ].
  destruct (Db.first_by_email (users w) email) as [user | ] eqn:Huser;
    [ | right; by eapply Hrefused; [ | exact Hlogin]].
  destruct (AuthService.verify_password (User.password_hash user) password)
    as [[ | ] | e] eqn:Hverify;
    [ | right; by eapply Hrefused; [ | exact Hlogin]
      | right; by eapply Hrefused; [ | exact Hlogin]].
  clear Hrefused.
  pose proof (TokenFacts.generate_jwt_spec JWT_SECRET (JInt (User.id user))
                (later (clock w) 1)) as Hgen.
  cbv zeta in Hgen.
  unfold Clock.utcnow, with_clock, with_users in Hlogin.
  cbn [clock users game_results random Clock.reading Clock.reads] in Hlogin.
  change (AuthService.generate_jwt JWT_SECRET (JInt (User.id user))
            {| Clock.reading := Clock.reading (clock w);
               Clock.reads := S (Clock.reads (clock w)) |})
    with (AuthService.generate_jwt JWT_SECRET (JInt (User.id user))
            (later (clock w) 1)) in Hlogin.
  rewrite Hgen in Hlogin. injection Hlogin as <- <-.
  left. exists email, password, user. eexists.
  split; [reflexivity | ]. split; [reflexivity | ].
  split; [exact Huser | ].
  split; [exact Hverify | ]. split; [by rewrite Hgen | ].
  split; reflexivity.
Qed.

(** A successful login changes one thing in the tables: the last login of
    the user found by the email, set to the time read.  Row by row, the
    users after the login are the users before it with the same identifier,
    username, email, password hash and creation time, and with the same
    last login except in a row with the identifier of that user; the game
    results are as before, usernames and emails stay unique, and the
    response carries the user with the new last login and a token for its
    identifier. *)
Theorem login_updates_last_login data w resp w' :
  login JWT_SECRET data w = (Ok resp, w') ->
  App.status resp = 200 ->
  exists email user tok,
    data !! "email" = Some email
    /\ Db.first_by_email (users w) email = Some user
    /\ App.content resp
       = AuthBody (to_dict (touch (AuthService.now (clock w)) user)) tok
           "Login successful"
    /\ PyJWT.claim tok "user_id" = Some (JInt (User.id user))
    /\ Db.first_by_email (users w') email
       = Some (touch (AuthService.now (clock w)) user)
    /\ Forall2 (logged_in (User.id user) (AuthService.now (clock w)))
         (users w) (users w')
    /\ map User.id (users w') = map User.id (users w)
    /\ map User.username (users w') = map User.username (users w)
    /\ map User.email (users w') = map User.email (users w)
    /\ map User.password_hash (users w') = map User.password_hash (users w)
    /\ game_results w' = game_results w
    /\ (Db.unique_users (users w) -> Db.unique_users (users w')).
Proof.
  intros [(email & password & user & tok & Hemail & _ & Huser & _ & Htok
           & [= ->] & ->)
         | (resp' & [= <-] & Hnot & _)]%login_inv Hstatus; [ | done].
  destruct (TokenFacts.generate_jwt_claims JWT_SECRET (JInt (User.id user))
              (later (clock w) 1)) as (tok' & Htok' & Huid & _).
  rewrite Htok in Htok'. injection Htok' as <-.
  destruct (update_last_login_columns (users w) (User.id user)
              (AuthService.now (clock w)))
    as (Hids & Hnames & Hmails & Hhashes & _).
  exists email, user, tok. cbn [users game_results App.content].
  split; [exact Hemail | ]. split; [exact Huser | ].
  split; [reflexivity | ]. split; [exact Huid | ].
  split; [by apply first_by_email_update | ].
  split; [apply update_last_login_rows | ].
  split; [exact Hids | ]. split; [exact Hnames | ].
  split; [exact Hmails | ]. split; [exact Hhashes | ].
  split; [reflexivity | ].
  unfold Db.unique_users. by rewrite Hnames, Hmails.
Qed.

(** A login with an email that no user has and a login with the email of a
    user and a password that does not verify are answered alike, with 401
    and the same message, and change nothing. *)
Theorem login_refusals_alike data1 data2 w email1 password1 email2 password2
    user :
  data1 !! "email" = Some email1 -> data1 !! "password" = Some password1 ->
  data2 !! "email" = Some email2 -> data2 !! "password" = Some password2 ->
  missing (Some email1) = false -> missing (Some password1) = false ->
  missing (Some email2) = false -> missing (Some password2) = false ->
  Db.first_by_email (users w) email1 = None ->
  Db.first_by_email (users w) email2 = Some user ->
  AuthService.verify_password (User.password_hash user) password2 = Ok false ->
  login JWT_SECRET data1 w = login JWT_SECRET data2 w
  /\ login JWT_SECRET data1 w
     = (Ok {| App.status := 401;
              App.content := ErrorBody "Invalid email or password" |}, w).
Proof.
  intros He1 Hp1 He2 Hp2 Hme1 Hmp1 Hme2 Hmp2 Hnone Hsome Hwrong.
  unfold login.
  rewrite He1, Hp1, He2, Hp2, Hme1, Hmp1, Hme2, Hmp2, Hnone, Hsome, Hwrong.
  split; reflexivity.
Qed.

(** A login for a user whose stored hash names no method is answered with
    500 and the [ValueError] of the check, and changes nothing: the
    exception of [verify_password] does not leave [login]. *)
Theorem login_malformed_hash data w email password user method salt h :
  data !! "email" = Some email -> data !! "password" = Some password ->
  missing (Some email) = false -> missing (Some password) = false ->
  Db.first_by_email (users w) email = Some user ->
  PyStr.split2 "$" (User.password_hash user) = Some (method, salt, h) ->
  Werkzeug.method_name method <> "scrypt"%string ->
  Werkzeug.method_name method <> "pbkdf2"%string ->
  login JWT_SECRET data w
  = (Ok {| App.status := 500;
           App.content :=
             FailureBody "Login failed: "
               (ValueError ("Invalid hash method '"
                            +:+ Werkzeug.method_name method +:+ "'.")) |}, w).
Proof.
  intros He Hp Hme Hmp Huser Hfields Hs Hpb. unfold login.
  rewrite He, Hp, Hme, Hmp, Huser.
  rewrite (check_unknown_method _ _ _ _ _ Hfields Hs Hpb). reflexivity.
Qed.

(** After a successful registration, a login with the same email and
    password succeeds: it is answered with 200 and the user that the
    registration returned, with the time of the login as last login. *)
Theorem register_then_login data w resp w1 data2 email password :
  register JWT_SECRET data w = (Ok resp, w1) ->
  App.status resp = 201 ->
  data !! "email" = Some email -> data !! "password" = Some password ->
  data2 !! "email" = Some email -> data2 !! "password" = Some password ->
  exists user tok message resp2 w2 tok2,
    App.content resp = AuthBody user tok message
    /\ login JWT_SECRET data2 w1 = (Ok resp2, w2)
    /\ resp2
       = {| App.status := 200;
            App.content :=
              AuthBody
                {| dict_id := dict_id user;
                   dict_username := dict_username user;
                   dict_email := dict_email user;
                   dict_created_at := dict_created_at user;
                   dict_last_login := Some (AuthService.now (clock w1)) |}
                tok2 "Login successful" |}.
Proof.
  intros [(email' & username & password' & h & tok & Hok & Hhash & Htok
           & [= ->] & ->)
         | (resp' & [= <-] & Hnot & _)]%register_inv Hcreated;
    [ | done].
  intros He Hp He2 Hp2.
  destruct Hok as (He' & _ & Hp' & Hme & _ & Hmp & _ & Hmail & _).
  rewrite He in He'. injection He' as <-.
  rewrite Hp in Hp'. injection Hp' as <-.
  set (row := new_account (users w) (clock w) email username h).
  apply AuthExtra.hash_password_inv in Hhash
    as (salt & digest & _ & Hclean & Hdigest & ->).
  pose proof (PasswordFacts.verify_stored salt password digest Hclean Hdigest)
    as Hverify.
  pose proof (first_by_email_snoc (users w) row Hmail) as Hfound.
  set (w1 := {| users := users w ++ [row]; game_results := game_results w;
                clock := later (clock w) 4;
                random := fun i => random w (16 + i)%nat |}).
  pose proof (TokenFacts.generate_jwt_spec JWT_SECRET (JInt (User.id row))
                (later (clock w1) 1)) as Hgen.
  cbv zeta in Hgen.
  exists (to_dict row), tok, "Registration successful"%string.
  do 3 eexists. split; [reflexivity | ].
  unfold login. rewrite He2, Hp2, Hme, Hmp.
  cbn [orb]. change (users w1) with (users w ++ [row]).
  change (User.email row) with email in Hfound. rewrite Hfound.
  change (User.password_hash row)
    with ("scrypt:32768:8:1" +:+ String "$" (salt +:+ String "$" digest)).
  rewrite Hverify.
  unfold Clock.utcnow, with_clock, with_users.
  cbn [clock users game_results random Clock.reading Clock.reads].
  change (AuthService.generate_jwt JWT_SECRET (JInt (User.id row))
            {| Clock.reading := Clock.reading (clock w1);
               Clock.reads := S (Clock.reads (clock w1)) |})
    with (AuthService.generate_jwt JWT_SECRET (JInt (User.id row))
            (later (clock w1) 1)).
  rewrite Hgen. split; reflexivity.
Qed.

(** GET /api/users/<username> answers 404 exactly when no row has the
    username, and after a successful registration it returns, under the
    username of the request, the user that the registration returned. *)
Theorem get_user_finds_registered data w resp w1 username :
  (App.status (get_user username w) = 404
   <-> username ∉ map User.username (users w))
  /\ (register JWT_SECRET data w = (Ok resp, w1) ->
      App.status resp = 201 ->
      data !! "username" = Some username ->
      exists user tok message,
        App.content resp = AuthBody user tok message
        /\ get_user username w1
           = {| App.status := 200; App.content := UserBody user |}).
Proof.
  split.
  - rewrite <- AppFacts.first_by_username_none. unfold get_user.
    destruct (Db.first_by_username (users w) username); simpl; split;
      (done || lia).
  - intros [(email & username' & password & h & tok & Hok & _ & _
             & [= ->] & ->)
           | (resp' & [= <-] & Hnot & _)]%register_inv Hcreated Hu; [ | done].
    destruct Hok as (_ & Hu' & _ & _ & _ & _ & _ & _ & Hname & _).
    rewrite Hu in Hu'. injection Hu' as <-.
    set (row := new_account (users w) (clock w) email username h).
    pose proof (first_by_username_snoc (users w) row Hname) as Hfound.
    change (User.username row) with username in Hfound.
    do 3 eexists. split; [reflexivity | ].
    unfold get_user. cbn [users]. by rewrite Hfound.
Qed.

(** GET /api/users lists the rows in the order of the table; a successful
    registration adds the user it returned at the end of the list, and any
    other outcome of a registration leaves the list as it was. *)
Theorem get_all_users_after_register data w r w1 :
  register JWT_SECRET data w = (r, w1) ->
  (exists user tok message,
      r = Ok {| App.status := 201;
                App.content := AuthBody user tok message |}
      /\ content (get_all_users w1)
         = Users (map to_dict (users w) ++ [user]))
  \/ ((forall resp, r = Ok resp -> App.status resp <> 201)
      /\ get_all_users w1 = get_all_users w).
Proof.
  intros [(email & username & password & h & tok & _ & _ & _ & -> & ->)
         | (resp & -> & Hnot & Husers & _)]%register_inv.
  - left. do 3 eexists. split; [reflexivity | ].
    unfold get_all_users. cbn [content users]. by rewrite map_app.
  - right. split; [by intros resp' [= <-] | ].
    unfold get_all_users. by rewrite Husers.
Qed.

End WithPrimitives.

Lemma register_created_iff_witness :
  exists resp w',
    register (hashlib := Sample.hashlib) (hmac := Sample.hmac) "k"
      Sample.alice Sample.empty_world = (Ok resp, w')
    /\ App.status resp = 201.
Proof.
  apply (proj2 (register_created_iff (hashlib := Sample.hashlib)
                  (hmac := Sample.hmac) "k" Sample.alice Sample.empty_world)).
  exists "a@b.com"%string, "alice"%string, "secret1"%string.
  eexists. split.
  - repeat split; vm_compute; try reflexivity. lia.
  - vm_compute. reflexivity.
Defined.

(** The registration of [Sample.alice] in the empty state succeeds. *)
Lemma alice_registers :
  exists resp,
    register (hashlib := Sample.hashlib) (hmac := Sample.hmac) "k"
      Sample.alice Sample.empty_world = (Ok resp, Sample2.registered_world)
    /\ App.status resp = 201.
Proof.
  assert (exists resp,
             fst (register (hashlib := Sample.hashlib) (hmac := Sample.hmac)
                    "k" Sample.alice Sample.empty_world) = Ok resp
             /\ App.status resp = 201) as (resp & Hfst & Hcreated).
  { eexists. split; [vm_compute; reflexivity | reflexivity]. }
  exists resp. split; [ | exact Hcreated].
  unfold Sample2.registered_world. rewrite <- Hfst.
  apply surjective_pairing.
Qed.

Lemma ticking_monotone start step :
  0 <= step -> Clock.monotone (Sample.ticking start step).
Proof. intros Hstep i j Hij. simpl. nia. Qed.

Lemma register_token_verifies_witness :
  exists resp user tok,
    fst (register (hashlib := Sample.hashlib) (hmac := Sample.hmac) "k"
           Sample.alice Sample.empty_world) = Ok resp
    /\ to_dict <$> Db.row_with_id (users Sample2.registered_world) (dict_id user)
       = Some user
    /\ PyJWT.claim tok "user_id" = Some (JInt (dict_id user)).
Proof.
  destruct alice_registers as (resp & Hreg & Hcreated).
  destruct (register_token_verifies (hashlib := Sample.hashlib)
              (hmac := Sample.hmac) "k" Sample.alice Sample.empty_world
              resp Sample2.registered_world Hreg Hcreated)
    as (user & tok & message & exp & _ & Hrow & Huid & _).
  - apply ticking_monotone. lia.
  - exists resp, user, tok. split; [by rewrite Hreg | ].
    split; [exact Hrow | exact Huid].
Defined.

Lemma login_updates_last_login_witness :
  exists resp w',
    login (hashlib := Sample.hashlib) (hmac := Sample.hmac) "k"
      (Sample2.credentials "a@b.com" "secret1") Sample2.registered_world
    = (Ok resp, w')
    /\ map User.username (users w')
       = map User.username (users Sample2.registered_world)
    /\ game_results w' = game_results Sample2.registered_world.
Proof.
  assert (exists resp,
             fst (login (hashlib := Sample.hashlib) (hmac := Sample.hmac) "k"
                    (Sample2.credentials "a@b.com" "secret1")
                    Sample2.registered_world) = Ok resp
             /\ App.status resp = 200)
    as (resp & Hfst & Hstatus).
  { eexists. split; [vm_compute; reflexivity | reflexivity]. }
  set (r := login (hashlib := Sample.hashlib) (hmac := Sample.hmac) "k"
              (Sample2.credentials "a@b.com" "secret1")
              Sample2.registered_world) in *.
  assert (r = (Ok resp, snd r)) as Hlogin.
  { rewrite <- Hfst. apply surjective_pairing. }
  destruct (login_updates_last_login (hashlib := Sample.hashlib)
              (hmac := Sample.hmac) "k" _ _ resp (snd r) Hlogin Hstatus)
    as (email & user & tok & _ & _ & _ & _ & _ & Hrows & _ & Hnames & _ & _
        & Hresults & _).
  exists resp, (snd r). split; [exact Hlogin | ].
  split; [exact Hnames | exact Hresults].
Defined.

Lemma login_refusals_alike_witness :
  login (hashlib := Sample.hashlib) (hmac := Sample.hmac) "k"
    (Sample2.credentials "nobody@example.org" "secret1") Sample2.played_world
  = login (hashlib := Sample.hashlib) (hmac := Sample.hmac) "k"
      (Sample2.credentials "carol@example.org" "secret1")
      Sample2.played_world.
Proof.
  apply (login_refusals_alike (hashlib := Sample.hashlib)
           (hmac := Sample.hmac) "k"
           (Sample2.credentials "nobody@example.org" "secret1")
           (Sample2.credentials "carol@example.org" "secret1")
           Sample2.played_world
           "nobody@example.org" "secret1" "carol@example.org" "secret1"
           Sample2.carol); vm_compute; reflexivity.
Defined.

Lemma login_malformed_hash_witness :
  fst (login (hashlib := Sample.hashlib) (hmac := Sample.hmac) "k"
         (Sample2.credentials "dave@example.org" "secret1")
         Sample2.played_world)
  = Ok {| App.status := 500;
          App.content :=
            FailureBody "Login failed: "
              (ValueError "Invalid hash method 'foo'.") |}.
Proof.
  rewrite (login_malformed_hash (hashlib := Sample.hashlib)
             (hmac := Sample.hmac) "k"
             (Sample2.credentials "dave@example.org" "secret1")
             Sample2.played_world "dave@example.org" "secret1" Sample2.dave
             "foo" "bar" "baz");
    try (vm_compute; reflexivity); vm_compute; discriminate.
Defined.

Lemma register_then_login_witness :
  exists resp2 w2,
    login (hashlib := Sample.hashlib) (hmac := Sample.hmac) "k"
      (Sample2.credentials "a@b.com" "secret1") Sample2.registered_world
    = (Ok resp2, w2)
    /\ App.status resp2 = 200.
Proof.
  destruct alice_registers as (resp & Hreg & Hcreated).
  assert (Sample.alice !! "email" = Some "a@b.com"%string) as He
    by (vm_compute; reflexivity).
  assert (Sample.alice !! "password" = Some "secret1"%string) as Hp
    by (vm_compute; reflexivity).
  assert (Sample2.credentials "a@b.com" "secret1" !! "email"
          = Some "a@b.com"%string) as He2 by (vm_compute; reflexivity).
  assert (Sample2.credentials "a@b.com" "secret1" !! "password"
          = Some "secret1"%string) as Hp2 by (vm_compute; reflexivity).
  destruct (register_then_login (hashlib := Sample.hashlib)
              (hmac := Sample.hmac) "k" Sample.alice Sample.empty_world
              resp Sample2.registered_world
              (Sample2.credentials "a@b.com" "secret1")
              "a@b.com" "secret1" Hreg Hcreated He Hp He2 Hp2)
    as (user & tok & message & resp2 & w2 & tok2 & _ & Hlogin & ->).
  do 2 eexists. split; [exact Hlogin | reflexivity].
Defined.

Lemma get_user_finds_registered_witness :
  exists user,
    get_user "alice" Sample2.registered_world
    = {| App.status := 200; App.content := UserBody user |}.
Proof.
  destruct alice_registers as (resp & Hreg & Hcreated).
  assert (Sample.alice !! "username" = Some "alice"%string) as Hu
    by (vm_compute; reflexivity).
  destruct (proj2 (get_user_finds_registered (hashlib := Sample.hashlib)
                     (hmac := Sample.hmac) "k" Sample.alice
                     Sample.empty_world resp Sample2.registered_world
                     "alice") Hreg Hcreated Hu)
    as (user & tok & message & _ & Hget).
  exists user. exact Hget.
Defined.

Lemma get_all_users_after_register_witness :
  exists users, content (get_all_users Sample2.registered_world) = Users users.
Proof.
  destruct alice_registers as (resp & Hreg & Hcreated).
  destruct (get_all_users_after_register (hashlib := Sample.hashlib)
              (hmac := Sample.hmac) "k" Sample.alice Sample.empty_world
              (Ok resp) Sample2.registered_world Hreg)
    as [(user & tok & message & _ & Hlist) | (_ & Hsame)].
  - eexists. exact Hlist.
  - eexists. rewrite Hsame. reflexivity.
Defined.

Lemma register_appends_witness :
  exists r w',
    register (hashlib := Sample.hashlib) (hmac := Sample.hmac) "k"
      Sample.alice Sample.empty_world = (r, w')
    /\ game_results w' = [].
Proof.
  destruct (register (hashlib := Sample.hashlib) (hmac := Sample.hmac) "k"
              Sample.alice Sample.empty_world) as [r w'] eqn:Hreg.
  exists r, w'. split; [reflexivity | ].
  apply (register_appends (hashlib := Sample.hashlib) (hmac := Sample.hmac)
           "k" Sample.alice Sample.empty_world r w' Hreg).
Defined.

End ApiFacts.

(** ** Game results and statistics over the tables *)

Module ResultFacts.
Import App Api Stats.

Lemma row_with_id_none users id :
  Db.row_with_id users id = None <-> id ∉ map User.id users.
Proof.
  unfold Db.row_with_id. induction users as [ | u users IH]; simpl.
  - split; [intros _; apply not_elem_of_nil | done].
  - rewrite not_elem_of_cons.
    destruct (Z.eqb_spec (User.id u) id) as [<- | Hne].
    + split; [done | intros [? _]; done].
    + rewrite IH. split; [intros ?; split; [congruence | done] | ].
      intros [_ ?]; done.
Qed.

Lemma get_user_some users id user :
  Db.get_user users id = Ok (Some user) ->
  Db.sqlite_int id = true /\ Db.row_with_id users id = Some user.
Proof.
  unfold Db.get_user. destruct (Db.sqlite_int id); [ | discriminate].
  by intros [= ->].
Qed.

Lemma next_result_id_above rs r :
  r ∈ rs -> GameResult.id r < next_result_id rs.
Proof.
  unfold next_result_id. induction 1 as [r rs | r q rs _ IH]; simpl; lia.
Qed.

Lemma foldr_max_is_max l :
  l <> [] -> Forall (fun x => 0 <= x) l -> is_max (foldr Z.max 0 l) l.
Proof.
  induction l as [ | x l IH]; [done | ]. intros _ Hl.
  apply Forall_cons in Hl as [Hx Hl]. simpl.
  destruct l as [ | y l].
  - simpl. rewrite Z.max_l by lia. split; [left | ].
    intros z ->%list_elem_of_singleton. lia.
  - destruct (IH ltac:(done) Hl) as [Hin Hub].
    set (b := foldr Z.max 0 (y :: l)) in *. split.
    + destruct (Z.max_spec x b) as [[_ ->] | [_ ->]]; [right; exact Hin | left].
    + intros z [-> | Hz]%elem_of_cons; [lia | ]. apply Hub in Hz. lia.
Qed.

(** On stored rows the statistics are returned, and three of them are the
    number of rows, the greatest score (0 for no rows) and the sum of the
    times. *)
Lemma compute_stats_stored rs :
  Forall stored_result rs ->
  exists st,
    compute_stats rs = Ok st
    /\ total_games st = PyInt (Z.of_nat (length rs))
    /\ best_score st = PyInt (foldr Z.max 0 (scores rs))
    /\ total_time_played st = PyInt (sum_of (times rs)).
Proof.
  intros Hrs.
  destruct (decide (rs = [])) as [-> | Hne];
    [eexists; repeat split; reflexivity | ].
  destruct (StatsFacts.columns_stored rs Hne Hrs) as (Hs & Hm & Ht).
  assert (0 < Z.of_nat (length rs)) as Hlen
    by (destruct rs; [done | simpl; lia]).
  rewrite StatsFacts.compute_stats_nonempty_eq by done.
  unfold stats_body, py_len.
  destruct (StatsFacts.py_max_spec (scores rs)) as (b & -> & Hb).
  { destruct rs; done. }
  assert (b = foldr Z.max 0 (scores rs)) as ->.
  { eapply StatsFacts.is_max_unique; [exact Hb | ]. apply foldr_max_is_max.
    - destruct rs; done.
    - unfold scores. apply Forall_map.
      eapply Forall_impl; [exact Hrs | ]. intros r (? & _). simpl. lia. }
  rewrite !StatsFacts.py_sum_sum_of.
  destruct (StatsFacts.average_returns (sum_of (scores rs))
              (Z.of_nat (length rs))) as (xs & ->); [lia | lia | lia | ].
  destruct (StatsFacts.average_returns (sum_of (move_counts rs))
              (Z.of_nat (length rs))) as (xm & ->); [lia | lia | lia | ].
  destruct (StatsFacts.average_returns (sum_of (times rs))
              (Z.of_nat (length rs))) as (xt & ->); [lia | lia | lia | ].
  simpl. eexists. repeat split; reflexivity.
Qed.

(** A request with the four counters, each within 64 bits, is stored. *)
Lemma save_result_fits data w u s m t :
  form_user_id data = Given u -> form_score data = Given s ->
  form_moves data = Given m -> form_time_taken data = Given t ->
  Db.sqlite_int u = true -> Db.sqlite_int s = true ->
  Db.sqlite_int m = true -> Db.sqlite_int t = true ->
  save_result data w
  = (Ok {| status := 201; content := Result (new_result data w u s m t) |},
     {| users := users w;
        game_results := game_results w ++ [new_result data w u s m t];
        clock := later (clock w) 1;
        random := random w |}).
Proof.
  intros Hu Hs Hm Ht Hfu Hfs Hfm Hft.
  unfold save_result, insert_result, Clock.utcnow, with_clock, with_results.
  rewrite Hu, Hs, Hm, Ht. cbn [not_in item binds game_results].
  rewrite Hfu, Hfs, Hfm, Hft. reflexivity.
Qed.

(** Every outcome of [save_result]. *)
Lemma save_result_inv data w r w' :
  save_result data w = (r, w') ->
  (exists u s m t,
      form_user_id data = Given u /\ form_score data = Given s
      /\ form_moves data = Given m /\ form_time_taken data = Given t
      /\ Db.sqlite_int u = true /\ Db.sqlite_int s = true
      /\ Db.sqlite_int m = true /\ Db.sqlite_int t = true
      /\ r = Ok {| status := 201;
                   content := Result (new_result data w u s m t) |}
      /\ w' = {| users := users w;
                 game_results :=
                   game_results w ++ [new_result data w u s m t];
                 clock := later (clock w) 1;
                 random := random w |})
  \/ (exists field,
         r = Ok {| status := 400;
                   content := Error (field +:+ " is required") |}
         /\ w' = w
         /\ not_in (form_user_id data) || not_in (form_score data)
            || not_in (form_moves data) || not_in (form_time_taken data)
            = true)
  \/ (exists e,
         r = Raise e
         /\ (e = OverflowError \/ exists msg, e = IntegrityError msg)
         /\ users w' = users w /\ game_results w' = game_results w).
Proof.
  unfold save_result, insert_result, Clock.utcnow, with_clock, with_results.
  intros Hsave.
  destruct (form_user_id data) as [ | | u] eqn:Hu,
           (form_score data) as [ | | s] eqn:Hs,
           (form_moves data) as [ | | m] eqn:Hm,
           (form_time_taken data) as [ | | t] eqn:Ht;
    cbn [not_in item binds game_results users] in Hsave;
    repeat match type of Hsave with
      | context [Db.sqlite_int ?x] => destruct (Db.sqlite_int x) eqn:?
      end;
    cbn [andb negb] in Hsave; injection Hsave as <- <-;
    first
      [ right; left; eexists; split; [reflexivity | split; reflexivity]
      | right; right; eexists; split; [reflexivity | ];
        split; [eauto | split; reflexivity]
      | left; exists u, s, m, t; repeat split; first [assumption | reflexivity] ].
Qed.

Lemma sqlite_int_spec n : Db.sqlite_int n = true <-> - 2 ^ 63 <= n < 2 ^ 63.
Proof. unfold Db.sqlite_int. rewrite andb_true_iff, Z.leb_le, Z.ltb_lt. done. Qed.

Lemma foldr_max_snoc l s :
  foldr Z.max 0 (l ++ [s]) = Z.max (foldr Z.max 0 l) s.
Proof. induction l as [ | x l IH]; simpl; [lia | rewrite IH; lia]. Qed.

Lemma sum_of_snoc l t : sum_of (l ++ [t]) = sum_of l + t.
Proof. induction l as [ | x l IH]; simpl; [lia | rewrite IH; lia]. Qed.

Lemma take_min {A} (l : list A) (n : Z) :
  0 <= n ->
  take (Z.to_nat (Z.min n (Z.of_nat (length l)))) l = take (Z.to_nat n) l.
Proof.
  intros Hn. destruct (Z.le_gt_cases n (Z.of_nat (length l))) as [Hle | Hgt].
  - by rewrite Z.min_l.
  - rewrite Z.min_r, Nat2Z.id by lia. rewrite !take_ge; [done | lia | lia].
Qed.

(** The rows that a limit keeps are a prefix of the ordered rows. *)
Lemma limit_split limit (ordered : list GameResult.t) :
  bindable limit = true ->
  exists results rest,
    match limit with
    | None => Ok ordered
    | Some n => if n =? 0 then Ok ordered else sql_limit n ordered
    end = Ok results
    /\ results ++ rest = ordered
    /\ (limit = None \/ limit = Some 0 -> rest = [])
    /\ (forall n, limit = Some n -> 0 < n ->
        results = take (Z.to_nat n) ordered).
Proof.
  destruct limit as [n | ]; cbn [bindable].
  - destruct (Z.eqb_spec n 0) as [-> | Hn]; cbn [orb].
    + intros _. exists ordered, []. rewrite app_nil_r.
      split; [done | ]. split; [done | ]. split; [done | ].
      intros n [= <-]. lia.
    + intros Hfit. unfold sql_limit. rewrite Hfit. cbn [negb].
      destruct (Z.ltb_spec n 0) as [Hneg | Hpos].
      * exists ordered, []. rewrite app_nil_r. split; [done | ].
        split; [done | ]. split; [ | intros k [= <-]; lia].
        intros [ | [= ->]]; done.
      * exists (take (Z.to_nat n) ordered), (drop (Z.to_nat n) ordered).
        rewrite take_min by lia.
        rewrite take_drop. split; [done | ]. split; [done | ].
        split; [ | by intros k [= <-]].
        intros [ | [= ->]]; done.
  - intros _. exists ordered, []. rewrite app_nil_r.
    split; [done | ]. split; [done | ]. split; [done | ]. intros n [=].
Qed.

(** A limit other than 0 beyond 64 bits cannot be bound to the query. *)
Lemma limit_overflow limit (ordered : list GameResult.t) :
  bindable limit = false ->
  match limit with
  | None => Ok ordered
  | Some n => if n =? 0 then Ok ordered else sql_limit n ordered
  end = Raise OverflowError.
Proof.
  destruct limit as [n | ]; cbn [bindable]; [ | discriminate].
  destruct (n =? 0); cbn [orb]; [discriminate | ].
  intros Hfit. unfold sql_limit. by rewrite Hfit.
Qed.

(** [get_user_results] once the user is found. *)
Lemma get_user_results_found {order : OrderBy} u limit difficulty w user :
  Db.get_user (users w) u = Ok (Some user) ->
  get_user_results u limit difficulty w
  = (results ←
       match limit with
       | None =>
           Ok (most_recent_first (selected u difficulty (game_results w)))
       | Some n =>
           if n =? 0
           then Ok (most_recent_first
                      (selected u difficulty (game_results w)))
           else sql_limit n
                  (most_recent_first
                     (selected u difficulty (game_results w)))
       end;
     Ok {| status := 200;
           content := Results (to_dict user) results
                        (Z.of_nat (length results)) |}).
Proof. intros Huser. unfold get_user_results. by rewrite Huser. Qed.

(** [get_user_stats] once the user is found. *)
Lemma get_user_stats_found u w user :
  Db.get_user (users w) u = Ok (Some user) ->
  get_user_stats u w
  = (stats ← compute_stats
               (filter (fun r => GameResult.user_id r = u) (game_results w));
     Ok {| App.status := 200;
           App.content := StatsBody (to_dict user) stats |}).
Proof. intros Huser. unfold get_user_stats. by rewrite Huser. Qed.

Section WithOrder.
Context {order : OrderBy}.

(** POST /api/results answers 201 exactly when the four counters are there
    as integers within 64 bits.  Nothing else is asked: not that a user has
    the identifier, nor that a counter is non-negative. *)
Theorem save_result_created_iff data w :
  (exists resp w', save_result data w = (Ok resp, w') /\ status resp = 201)
  <-> exists u s m t,
        form_user_id data = Given u /\ form_score data = Given s
        /\ form_moves data = Given m /\ form_time_taken data = Given t
        /\ Db.sqlite_int u = true /\ Db.sqlite_int s = true
        /\ Db.sqlite_int m = true /\ Db.sqlite_int t = true.
Proof.
  split.
  - intros (resp & w' & Hsave & Hcreated).
    apply save_result_inv in Hsave
      as [(u & s & m & t & Hu & Hs & Hm & Ht & Hfu & Hfs & Hfm & Hft & _)
         | [(field & [= ->] & _) | (e & [=] & _)]]; [ | done].
    exists u, s, m, t. repeat split; assumption.
  - intros (u & s & m & t & Hu & Hs & Hm & Ht & Hfu & Hfs & Hfm & Hft).
    do 2 eexists.
    rewrite (save_result_fits data w u s m t Hu Hs Hm Ht Hfu Hfs Hfm Hft).
    split; reflexivity.
Qed.

(** [save_result] leaves the users alone and never touches a stored row:
    with 201 it appends one row, which has the counters of the request, a
    key above those of the table, the time read as time played and the
    defaults ["medium"], ["4x4"] and [True] for the members that are
    absent; any other answer is 400 and the table is as it was. *)
Theorem save_result_appends data w r w' :
  save_result data w = (r, w') ->
  users w' = users w
  /\ ((exists row,
          r = Ok {| status := 201; content := Result row |}
          /\ game_results w' = game_results w ++ [row]
          /\ form_user_id data = Given (GameResult.user_id row)
          /\ form_score data = Given (GameResult.score row)
          /\ form_moves data = Given (GameResult.moves row)
          /\ form_time_taken data = Given (GameResult.time_taken row)
          /\ GameResult.played_at row = AuthService.now (clock w)
          /\ (forall q, q ∈ game_results w ->
              GameResult.id q < GameResult.id row)
          /\ (form_difficulty data = Absent ->
              GameResult.difficulty row = Some "medium"%string)
          /\ (form_grid_size data = Absent ->
              GameResult.grid_size row = Some "4x4"%string)
          /\ (form_completed data = None -> GameResult.completed row = true))
      \/ ((forall resp, r = Ok resp -> status resp = 400)
          /\ game_results w' = game_results w)).
Proof.
  intros [(u & s & m & t & Hu & Hs & Hm & Ht & _ & _ & _ & _ & -> & ->)
         | [(field & -> & -> & _) | (e & -> & _ & Husers & Hresults)]]
         %save_result_inv.
  - split; [reflexivity | ]. left. eexists.
    split; [reflexivity | ]. split; [reflexivity | ].
    unfold new_result; cbn [GameResult.user_id GameResult.score
      GameResult.moves GameResult.time_taken GameResult.played_at
      GameResult.id GameResult.difficulty GameResult.grid_size
      GameResult.completed].
    split; [exact Hu | ]. split; [exact Hs | ]. split; [exact Hm | ].
    split; [exact Ht | ]. split; [reflexivity | ].
    split; [apply next_result_id_above | ].
    split; [by intros -> | ]. split; [by intros -> | by intros ->].
  - split; [reflexivity | ]. right. split; [by intros resp [= <-] | done].
  - split; [exact Husers | ]. right. split; [by intros resp [=] | done].
Qed.

(** A counter that is [null] passes the check of the required fields: the
    request is not answered with 400, the insertion fails and its
    exception leaves [save_result], with nothing stored. *)
Theorem save_result_null_counter data w :
  not_in (form_user_id data) = false -> not_in (form_score data) = false ->
  not_in (form_moves data) = false -> not_in (form_time_taken data) = false ->
  form_user_id data = Null \/ form_score data = Null
  \/ form_moves data = Null \/ form_time_taken data = Null ->
  exists e w',
    save_result data w = (Raise e, w')
    /\ (e = OverflowError \/ exists msg, e = IntegrityError msg)
    /\ game_results w' = game_results w.
Proof.
  intros Hu Hs Hm Ht Hnull.
  destruct (save_result data w) as [r w'] eqn:Hsave.
  apply save_result_inv in Hsave
    as [(u & s & m & t & Hu' & Hs' & Hm' & Ht' & _)
       | [(field & _ & _ & Habsent) | (e & -> & He & _ & Hresults)]].
  - rewrite Hu', Hs', Hm', Ht' in Hnull.
    destruct Hnull as [ | [ | [ | ]]]; discriminate.
  - rewrite Hu, Hs, Hm, Ht in Habsent. discriminate.
  - by exists e, w'.
Qed.

(** What [save_result] does for one user is not seen by another: the
    statistics and the results of a user other than the one of the request
    are answered as before. *)
Theorem save_result_other_user data w r w' u :
  save_result data w = (r, w') ->
  form_user_id data <> Given u ->
  get_user_stats u w' = get_user_stats u w
  /\ forall limit difficulty,
       get_user_results u limit difficulty w'
       = get_user_results u limit difficulty w.
Proof.
  intros [(v & s & m & t & Hv & _ & _ & _ & _ & _ & _ & _ & _ & ->)
         | [(field & _ & -> & _) | (e & _ & _ & Husers & Hresults)]]
         %save_result_inv Hother.
  - assert (GameResult.user_id (new_result data w v s m t) <> u) as Hrow.
    { change (v <> u). intros ->. done. }
    unfold get_user_stats, get_user_results, selected.
    cbn [users game_results].
    rewrite !filter_app.
    rewrite (filter_cons_False (fun r => GameResult.user_id r = u)
               (new_result data w v s m t) [] Hrow).
    rewrite filter_nil, app_nil_r.
    split; reflexivity.
  - split; reflexivity.
  - unfold get_user_stats, get_user_results. rewrite Husers, Hresults.
    split; reflexivity.
Qed.

(** After a result with non-negative counters is saved for a user of a
    table of stored rows, the statistics of the user count one game more,
    the time played grows by the time taken, and the best score is the
    greater of the former best and the new score. *)
Theorem save_then_stats data w resp w' u s m t user :
  save_result data w = (Ok resp, w') -> status resp = 201 ->
  form_user_id data = Given u -> form_score data = Given s ->
  form_moves data = Given m -> form_time_taken data = Given t ->
  0 <= s -> 0 <= m -> 0 <= t ->
  Forall stored_result (game_results w) ->
  Db.get_user (users w) u = Ok (Some user) ->
  exists st st' n b total,
    get_user_stats u w
    = Ok {| App.status := 200; App.content := StatsBody (to_dict user) st |}
    /\ get_user_stats u w'
       = Ok {| App.status := 200;
               App.content := StatsBody (to_dict user) st' |}
    /\ total_games st = PyInt n /\ total_games st' = PyInt (n + 1)
    /\ best_score st = PyInt b /\ best_score st' = PyInt (Z.max b s)
    /\ total_time_played st = PyInt total
    /\ total_time_played st' = PyInt (total + t).
Proof.
  intros Hsave Hcreated Hu Hs Hm Ht Hs0 Hm0 Ht0 Hstored Huser.
  apply save_result_inv in Hsave
    as [(u' & s' & m' & t' & Hu' & Hs' & Hm' & Ht' & _ & Hfs & Hfm & Hft
         & _ & ->)
       | [(field & [= ->] & _) | (e & [=] & _)]]; [ | done].
  rewrite Hu in Hu'. injection Hu' as <-.
  rewrite Hs in Hs'. injection Hs' as <-.
  rewrite Hm in Hm'. injection Hm' as <-.
  rewrite Ht in Ht'. injection Ht' as <-.
  apply sqlite_int_spec in Hfs, Hfm, Hft.
  set (row := new_result data w u s m t).
  set (own := filter (fun r => GameResult.user_id r = u) (game_results w)).
  assert (Forall stored_result own) as Hown.
  { apply Forall_forall. intros r [_ Hr]%list_elem_of_filter.
    by eapply Forall_forall in Hstored. }
  assert (Forall stored_result (own ++ [row])) as Hown'.
  { apply Forall_app. split; [exact Hown | ].
    apply Forall_singleton. unfold stored_result, row, new_result.
    cbn [GameResult.score GameResult.moves GameResult.time_taken]. lia. }
  destruct (compute_stats_stored own Hown) as (st & Hst & Hn & Hb & Htotal).
  destruct (compute_stats_stored (own ++ [row]) Hown')
    as (st' & Hst' & Hn' & Hb' & Htotal').
  exists st, st'. do 3 eexists.
  rewrite (get_user_stats_found u w user Huser).
  rewrite (get_user_stats_found u
             {| users := users w; game_results := game_results w ++ [row];
                clock := later (clock w) 1; random := random w |}
             user Huser).
  cbn [users game_results].
  rewrite filter_app.
  rewrite (filter_cons_True (fun r => GameResult.user_id r = u) row [])
    by reflexivity.
  rewrite filter_nil. fold own. rewrite Hst, Hst'.
  split; [reflexivity | ]. split; [reflexivity | ].
  split; [exact Hn | ]. split.
  { rewrite Hn', length_app. f_equal. simpl. lia. }
  split; [exact Hb | ]. split.
  { rewrite Hb'. unfold scores. rewrite map_app.
    change (map GameResult.score [row]) with [s].
    by rewrite foldr_max_snoc. }
  split; [exact Htotal | ].
  rewrite Htotal'. unfold times. rewrite map_app.
  change (map GameResult.time_taken [row]) with [t].
  by rewrite sum_of_snoc.
Qed.

(** The two endpoints keyed by a user's identifier.  An identifier beyond
    64 bits cannot be bound to the query: [OverflowError] leaves both.
    They answer 404 exactly when the identifier is within 64 bits and no
    user has it.  Over a table of stored rows the statistics of a user
    count as many games as the results of the user listed without limit or
    difficulty, which are the user's rows in some order. *)
Theorem stats_count_listed_results u w :
  (Db.sqlite_int u = false ->
   get_user_stats u w = Raise OverflowError
   /\ forall limit difficulty,
        get_user_results u limit difficulty w = Raise OverflowError)
  /\ (get_user_stats u w
      = Ok {| App.status := 404; App.content := ErrorBody "User not found" |}
      <-> Db.sqlite_int u = true /\ u ∉ map User.id (users w))
  /\ (forall limit difficulty,
        get_user_results u limit difficulty w
        = Ok {| status := 404; content := Error "User not found" |}
        <-> Db.sqlite_int u = true /\ u ∉ map User.id (users w))
  /\ (Forall stored_result (game_results w) ->
      forall user,
        Db.get_user (users w) u = Ok (Some user) ->
        exists st results,
          get_user_stats u w
          = Ok {| App.status := 200;
                  App.content := StatsBody (to_dict user) st |}
          /\ get_user_results u None None w
             = Ok {| status := 200;
                     content := Results (to_dict user) results
                                  (Z.of_nat (length results)) |}
          /\ total_games st = PyInt (Z.of_nat (length results))
          /\ results
             ≡ₚ filter (fun r => GameResult.user_id r = u) (game_results w)).
Proof.
  split; [ | split; [ | split]].
  - intros Hbig. unfold get_user_stats, get_user_results, Db.get_user.
    rewrite Hbig. split; reflexivity.
  - rewrite <- row_with_id_none. unfold get_user_stats, Db.get_user.
    destruct (Db.sqlite_int u); [ | split; [discriminate | by intros []]].
    destruct (Db.row_with_id (users w) u) as [user | ]; [ | done].
    cbn [mbind result_bind].
    destruct (compute_stats _); simpl; split; (discriminate || by intros []).
  - intros limit difficulty. rewrite <- row_with_id_none.
    unfold get_user_results, Db.get_user.
    destruct (Db.sqlite_int u); [ | split; [discriminate | by intros []]].
    destruct (Db.row_with_id (users w) u) as [user | ]; [ | done].
    cbn [mbind result_bind].
    match goal with
    | |- context [mbind _ ?limited] => destruct limited
    end; simpl; split; (discriminate || by intros []).
  - intros Hstored user Huser.
    set (own := filter (fun r => GameResult.user_id r = u) (game_results w)).
    assert (Forall stored_result own) as Hown.
    { apply Forall_forall. intros r [_ Hr]%list_elem_of_filter.
      by eapply Forall_forall in Hstored. }
    destruct (compute_stats_stored own Hown) as (st & Hst & Hn & _).
    exists st, (most_recent_first own).
    rewrite (get_user_stats_found u w user Huser).
    rewrite (get_user_results_found u None None w user Huser).
    unfold selected. cbn [missing]. fold own. rewrite Hst.
    pose proof (most_recent_first_perm own) as Hperm.
    split; [reflexivity | ]. split; [reflexivity | ].
    split; [ | exact Hperm]. by rewrite Hn, (Permutation_length Hperm).
Qed.

(** GET /api/results/user/<user_id> for a user that exists.  A limit other
    than 0 beyond 64 bits cannot be bound to the query: [OverflowError]
    leaves the function.  Otherwise the results are rows selected for the
    user, the most recent first; without a limit, or with the limit 0, they
    are all of the selected rows; with a limit [n > 0] they are [n] of
    them, or all if there are fewer, and no row left out is more recent
    than a row returned.  The total is the number of rows returned, not of
    rows selected. *)
Theorem get_user_results_limit u limit difficulty w user :
  Db.get_user (users w) u = Ok (Some user) ->
  (bindable limit = false ->
   get_user_results u limit difficulty w = Raise OverflowError)
  /\ (bindable limit = true ->
      exists results rest,
        get_user_results u limit difficulty w
        = Ok {| status := 200;
                content := Results (to_dict user) results
                             (Z.of_nat (length results)) |}
        /\ results ++ rest ≡ₚ selected u difficulty (game_results w)
        /\ StronglySorted most_recent results
        /\ (forall a b, a ∈ results -> b ∈ rest -> most_recent a b)
        /\ (limit = None \/ limit = Some 0 -> rest = [])
        /\ (forall n, limit = Some n -> 0 < n ->
            length results
            = Nat.min (Z.to_nat n)
                (length (selected u difficulty (game_results w))))).
Proof.
  intros Huser. rewrite (get_user_results_found u limit difficulty w user Huser).
  set (sel := selected u difficulty (game_results w)).
  split.
  { intros Hbig. by rewrite (limit_overflow limit _ Hbig). }
  intros Hfit.
  pose proof (most_recent_first_perm sel) as Hperm.
  pose proof (most_recent_first_sorted sel) as Hsorted.
  destruct (limit_split limit (most_recent_first sel) Hfit)
    as (results & rest & -> & Hsplit & Hall & Hsome).
  exists results, rest.
  rewrite <- Hsplit in Hsorted.
  split; [reflexivity | ]. split; [by rewrite Hsplit | ].
  split; [exact (StronglySorted_app_1_l _ _ _ Hsorted) | ].
  split.
  { intros a b Ha Hb.
    exact (StronglySorted_app_1_elem_of _ _ _ a b Hsorted Ha Hb). }
  split; [exact Hall | ].
  intros n Hn Hpos. rewrite (Hsome n Hn Hpos), length_take.
  by rewrite (Permutation_length Hperm).
Qed.

(** The [difficulty] parameter: an empty one selects as if there were none,
    and with any other every result returned is a row of the table with
    the user and that difficulty. *)
Theorem get_user_results_difficulty u limit w :
  get_user_results u limit (Some ""%string) w = get_user_results u limit None w
  /\ forall d user results n,
       d <> ""%string ->
       get_user_results u limit (Some d) w
       = Ok {| status := 200; content := Results user results n |} ->
       Forall (fun r =>
                 r ∈ game_results w /\ GameResult.user_id r = u
                 /\ GameResult.difficulty r = Some d) results.
Proof.
  split; [reflexivity | ].
  intros d user results n Hd. unfold get_user_results.
  destruct (Db.get_user (users w) u) as [[found | ] | e]; [ | done | done].
  cbn [mbind result_bind].
  set (sel := selected u (Some d) (game_results w)).
  destruct (bindable limit) eqn:Hfit;
    [ | by rewrite (limit_overflow limit _ Hfit)].
  destruct (limit_split limit (most_recent_first sel) Hfit)
    as (listed & rest & -> & Hsplit & _).
  intros [= _ <- _].
  apply Forall_forall. intros r Hr.
  assert (r ∈ sel) as Hsel.
  { rewrite <- (most_recent_first_perm sel), <- Hsplit.
    apply elem_of_app. by left. }
  unfold sel, selected in Hsel.
  assert (missing (Some d) = false) as Hmissing by (by destruct d).
  rewrite Hmissing in Hsel.
  apply list_elem_of_filter in Hsel as [Hdiff Hsel].
  apply list_elem_of_filter in Hsel as [Hown Hsel]. done.
Qed.

End WithOrder.

Lemma played_world_stored :
  Forall stored_result (game_results Sample2.played_world).
Proof.
  assert (2 ^ 63 = 9223372036854775808) as K63 by reflexivity.
  repeat constructor; simpl; lia.
Qed.

Lemma save_result_created_iff_witness :
  exists resp w',
    save_result (Sample2.form 1 150 12 45) Sample2.played_world
    = (Ok resp, w')
    /\ status resp = 201.
Proof.
  apply (proj2 (save_result_created_iff (Sample2.form 1 150 12 45)
                  Sample2.played_world)).
  exists 1, 150, 12, 45. repeat split; vm_compute; reflexivity.
Defined.

Lemma save_result_appends_witness :
  users (snd (save_result (Sample2.form 1 150 12 45) Sample2.played_world))
  = users Sample2.played_world.
Proof.
  apply (save_result_appends (Sample2.form 1 150 12 45) Sample2.played_world
           (fst (save_result (Sample2.form 1 150 12 45) Sample2.played_world))
           (snd (save_result (Sample2.form 1 150 12 45)
                   Sample2.played_world))).
  apply surjective_pairing.
Defined.

Lemma save_result_null_counter_witness :
  exists e w',
    save_result Sample2.null_score Sample2.played_world = (Raise e, w')
    /\ (e = OverflowError \/ exists msg, e = IntegrityError msg)
    /\ game_results w' = game_results Sample2.played_world.
Proof.
  apply (save_result_null_counter Sample2.null_score Sample2.played_world);
    try reflexivity.
  right. left. reflexivity.
Defined.

Lemma save_result_other_user_witness :
  get_user_stats 2
    (snd (save_result (Sample2.form 1 150 12 45) Sample2.played_world))
  = get_user_stats 2 Sample2.played_world.
Proof.
  apply (save_result_other_user (order := Sample2.order)
           (Sample2.form 1 150 12 45) Sample2.played_world
           (fst (save_result (Sample2.form 1 150 12 45) Sample2.played_world))
           (snd (save_result (Sample2.form 1 150 12 45)
                   Sample2.played_world)) 2).
  - apply surjective_pairing.
  - simpl. discriminate.
Defined.

Lemma save_then_stats_witness :
  exists st st',
    get_user_stats 1 Sample2.played_world
    = Ok {| App.status := 200;
            App.content := StatsBody (to_dict Sample2.carol) st |}
    /\ get_user_stats 1
         (snd (save_result (Sample2.form 1 150 12 45) Sample2.played_world))
       = Ok {| App.status := 200;
               App.content := StatsBody (to_dict Sample2.carol) st' |}
    /\ total_games st = PyInt 3 /\ total_games st' = PyInt 4.
Proof.
  assert (Db.sqlite_int 1 = true) as H1 by (vm_compute; reflexivity).
  assert (Db.sqlite_int 150 = true) as H150 by (vm_compute; reflexivity).
  assert (Db.sqlite_int 12 = true) as H12 by (vm_compute; reflexivity).
  assert (Db.sqlite_int 45 = true) as H45 by (vm_compute; reflexivity).
  pose proof (save_result_fits (Sample2.form 1 150 12 45)
                Sample2.played_world 1 150 12 45 eq_refl eq_refl eq_refl
                eq_refl H1 H150 H12 H45) as Hsave.
  destruct (save_then_stats (Sample2.form 1 150 12 45) Sample2.played_world
              _ _ 1 150 12 45 Sample2.carol Hsave)
    as (st & st' & n & b & total & Hst & Hst' & Hn & Hn' & _);
    try reflexivity; try lia.
  - exact played_world_stored.
  - exists st, st'. rewrite Hsave. cbn [snd].
    split; [exact Hst | ]. split; [exact Hst' | ].
    assert (total_games st = PyInt 3) as Hthree.
    { vm_compute in Hst. injection Hst as <-. reflexivity. }
    split; [exact Hthree | ].
    rewrite Hthree in Hn. injection Hn as <-. exact Hn'.
Defined.

Lemma stats_count_listed_results_witness :
  exists st results,
    get_user_stats 1 Sample2.played_world
    = Ok {| App.status := 200;
            App.content := StatsBody (to_dict Sample2.carol) st |}
    /\ total_games st = PyInt (Z.of_nat (length results))
    /\ results
       ≡ₚ filter (fun r => GameResult.user_id r = 1)
            (game_results Sample2.played_world).
Proof.
  destruct (proj2 (proj2 (proj2 (stats_count_listed_results
                                   (order := Sample2.order)
                                   1 Sample2.played_world)))
              played_world_stored Sample2.carol eq_refl)
    as (st & results & Hst & _ & Hn & Hperm).
  exists st, results. split; [exact Hst | ]. split; [exact Hn | exact Hperm].
Defined.

Lemma get_user_results_limit_witness :
  exists results,
    get_user_results (order := Sample2.order) 1 (Some 2) None
      Sample2.played_world
    = Ok {| status := 200;
            content := Results (to_dict Sample2.carol) results 2 |}
    /\ StronglySorted most_recent results.
Proof.
  destruct (proj2 (get_user_results_limit (order := Sample2.order) 1 (Some 2)
                     None Sample2.played_world Sample2.carol eq_refl)
              eq_refl)
    as (results & rest & Hget & _ & Hsorted & _ & _ & Hlength).
  exists results. rewrite Hget.
  rewrite (Hlength 2 eq_refl ltac:(lia)). split; [reflexivity | exact Hsorted].
Defined.

Lemma get_user_results_difficulty_witness :
  exists user results n,
    get_user_results (order := Sample2.order) 1 None (Some "easy"%string)
      Sample2.played_world
    = Ok {| status := 200; content := Results user results n |}
    /\ Forall (fun r =>
                 r ∈ game_results Sample2.played_world
                 /\ GameResult.user_id r = 1
                 /\ GameResult.difficulty r = Some "easy"%string) results.
Proof.
  assert (exists user results n,
             get_user_results (order := Sample2.order) 1 None
               (Some "easy"%string) Sample2.played_world
             = Ok {| status := 200; content := Results user results n |})
    as (user & results & n & Hget).
  { do 3 eexists. vm_compute. reflexivity. }
  exists user, results, n. split; [exact Hget | ].
  apply (proj2 (get_user_results_difficulty (order := Sample2.order) 1 None
                  Sample2.played_world) "easy"%string user results n);
    [discriminate | exact Hget].
Defined.

End ResultFacts.

(** ** The tables over any sequence of requests *)

Module ServeFacts.
Import App Api.

Lemma grows_refl w : grows w w.
Proof. unfold grows. repeat split; reflexivity. Qed.

Lemma grows_trans w1 w2 w3 : grows w1 w2 -> grows w2 w3 -> grows w1 w3.
Proof.
  unfold grows. intros (? & ? & ? & ? & ? & ?) (? & ? & ? & ? & ? & ?).
  repeat split; etrans; eassumption.
Qed.

Lemma grows_same w w' :
  users w' = users w -> game_results w' = game_results w -> grows w w'.
Proof. unfold grows. intros -> ->. repeat split; reflexivity. Qed.

Lemma distinct_keys_same w w' :
  users w' = users w -> game_results w' = game_results w ->
  distinct_keys w -> distinct_keys w'.
Proof. unfold distinct_keys. by intros -> ->. Qed.

Lemma next_id_fresh users : Db.next_id users ∉ map User.id users.
Proof.
  intros (u & Heq & Hu%list_elem_of_In%ApiFacts.next_id_above)
    %list_elem_of_In%in_map_iff.
  lia.
Qed.

Lemma next_result_id_fresh rs : next_result_id rs ∉ map GameResult.id rs.
Proof.
  intros (r & Heq & Hr%list_elem_of_In%ResultFacts.next_result_id_above)
    %list_elem_of_In%in_map_iff.
  lia.
Qed.

(** [create_user] changes no table. *)
Lemma create_user_tables data w :
  users (snd (create_user data w)) = users w
  /\ game_results (snd (create_user data w)) = game_results w.
Proof.
  unfold create_user. destruct data as [data | ]; [ | done].
  destruct (data !! "username") as [username | ]; [ | done].
  destruct (Db.first_by_username (users w) username); [done | ].
  change (Db.User_init _)
    with (@Raise Db.UserObj
            (TypeError
               "'auth_provider' is an invalid keyword argument for User")).
  done.
Qed.

Section WithPrimitives.
Context {hashlib : Hashlib} {hmac : PyJWT.Hmac}.
Variable JWT_SECRET : string.

Lemma serve_step req w :
  grows w (serve JWT_SECRET req w)
  /\ (distinct_keys w -> distinct_keys (serve JWT_SECRET req w)).
Proof.
  destruct req as [data | data | data | | | data | | ]; cbn [serve];
    try (split; [apply grows_refl | done]).
  - destruct (register JWT_SECRET data w) as [r w'] eqn:Hreg. cbn [snd].
    apply ApiFacts.register_inv in Hreg
      as [(email & username & password & h & tok & Hok & _ & _ & _ & ->)
         | (resp & _ & _ & Husers & Hresults)].
    + destruct Hok as (_ & _ & _ & _ & _ & _ & _ & Hmail & Hname & _).
      apply AppFacts.first_by_email_none in Hmail.
      apply AppFacts.first_by_username_none in Hname.
      split.
      * unfold grows. cbn [users game_results]. rewrite !map_app.
        repeat split; first [apply prefix_app_r | idtac]; reflexivity.
      * unfold distinct_keys, Db.unique_users. cbn [users game_results].
        rewrite !map_app. intros (Hids & [Hnames Hmails] & Hkeys).
        split; [ | split; [split | exact Hkeys]];
          apply AppFacts.NoDup_snoc; try assumption.
        apply next_id_fresh.
    + split; [by apply grows_same | by apply distinct_keys_same].
  - destruct (login JWT_SECRET data w) as [r w'] eqn:Hlogin. cbn [snd].
    apply ApiFacts.login_inv in Hlogin
      as [(email & password & user & tok & _ & _ & _ & _ & _ & _ & ->)
         | (resp & _ & _ & ->)]; [ | split; [apply grows_refl | done]].
    destruct (ApiFacts.update_last_login_columns (users w) (User.id user)
                (AuthService.now (clock w)))
      as (Hids & Hnames & Hmails & Hhashes & Hcreated).
    split.
    * unfold grows. cbn [users game_results].
      rewrite Hids, Hnames, Hmails, Hhashes, Hcreated.
      repeat split; reflexivity.
    * unfold distinct_keys, Db.unique_users. cbn [users game_results].
      by rewrite Hids, Hnames, Hmails.
  - destruct (create_user_tables data w) as [Husers Hresults].
    split; [by apply grows_same | by apply distinct_keys_same].
  - destruct (save_result data w) as [r w'] eqn:Hsave. cbn [snd].
    apply ResultFacts.save_result_inv in Hsave
      as [(u & s & m & t & _ & _ & _ & _ & _ & _ & _ & _ & _ & ->)
         | [(field & _ & -> & _) | (e & _ & _ & Husers & Hresults)]].
    + split.
      * unfold grows. cbn [users game_results].
        repeat split; first [apply prefix_app_r | idtac]; reflexivity.
      * unfold distinct_keys. cbn [users game_results]. rewrite map_app.
        intros (Hids & Hunique & Hkeys).
        split; [exact Hids | split; [exact Hunique | ]].
        apply AppFacts.NoDup_snoc; [exact Hkeys | apply next_result_id_fresh].
    + split; [apply grows_refl | done].
    + split; [by apply grows_same | by apply distinct_keys_same].
Qed.

(** Over any sequence of requests nothing is removed from the tables and
    no identifier, username, email, password hash or creation time of a
    user and no stored result is changed; and when the keys, usernames and
    emails are distinct at the start, they are distinct at the end. *)
Theorem serve_all_tables reqs w :
  grows w (serve_all JWT_SECRET reqs w)
  /\ (distinct_keys w -> distinct_keys (serve_all JWT_SECRET reqs w)).
Proof.
  unfold serve_all. revert w.
  induction reqs as [ | req reqs IH]; intros w; simpl.
  - split; [apply grows_refl | done].
  - destruct (serve_step req w) as [Hgrows Hkeys].
    destruct (IH (serve JWT_SECRET req w)) as [Hgrows' Hkeys'].
    split; [by eapply grows_trans | auto].
Qed.

End WithPrimitives.

Lemma serve_all_tables_witness :
  distinct_keys
    (serve_all (hashlib := Sample.hashlib) (hmac := Sample.hmac) "k"
       [Register Sample.alice;
        Login (Sample2.credentials "a@b.com" "secret1");
        SaveResult (Sample2.form 1 150 12 45)]
       Sample.empty_world).
Proof.
  apply (proj2 (serve_all_tables (hashlib := Sample.hashlib)
                  (hmac := Sample.hmac) "k"
                  [Register Sample.alice;
                   Login (Sample2.credentials "a@b.com" "secret1");
                   SaveResult (Sample2.form 1 150 12 45)]
                  Sample.empty_world)).
  repeat split; constructor.
Defined.

End ServeFacts.
